(** * OpenFeedbackLayer: the feedback ingestion pipeline

    A shallow embedding of the request handler [POST] of
    [src/api/feedback/route.ts] and of the classification client
    [analyzeFeedback] of [src/lib/ai-service.ts], with the properties the
    specification states about them; then of the notifier
    [sendNotificationEmail] of the same route and of the handlers of the
    component [FeedbackWidget], with further properties of the code.

    Conventions of the model:
    - a JavaScript string is the list of its UTF-16 code units ([list N]);
    - [Date.now()], [Math.random()], [process.env] and the answers of the
      collaborators (Supabase storage and table, Gemini) are read from an
      environment record, one answer per call site;
    - supabase-js reports a failure in the [error] field of the value its
      promise resolves to, and the model follows that contract;
    - side effects are recorded, in order, in a trace of [Effect]s;
    - the classification client is an import of the route: [POST_with]
      is the handler with the client as an argument, and [POST] the
      handler with [analyzeFeedback]. *)

From Stdlib Require Import Strings.String Strings.Ascii Strings.Byte.
From Stdlib Require Import Numbers.DecimalString.
From Stdlib Require Import ZArith NArith List Lia Bool.
From stdpp Require Import base option list gmap.

Open Scope Z_scope.

(** ** JavaScript strings *)

Module Js.

Abbreviation str := (list N).

(** A literal written in the file, code unit by code unit. *)
Fixpoint lit (s : String.string) : str :=
  match s with
  | String.EmptyString => []
  | String.String a r => Ascii.N_of_ascii a :: lit r
  end.

(** The double quote cannot be typed inside a literal of this file; [jq]
    reads an apostrophe as a double quote, so that [jq "{'a':1}"] is the
    text [{"a":1}]. *)
Definition requote (c : N) : N := if N.eqb c 39 then 34%N else c.
Definition jq (s : String.string) : str := map requote (lit s).

Arguments lit s%_string : simpl never.
Arguments jq s%_string : simpl never.

Definition str_eqb (a b : str) : bool := bool_decide (a = b).

(** WhiteSpace and LineTerminator of ECMAScript: what [String.prototype.trim]
    removes and what [\s] matches. *)
Definition is_space (c : N) : bool :=
  (N.eqb c 9 || N.eqb c 10 || N.eqb c 11 || N.eqb c 12 || N.eqb c 13
   || N.eqb c 32 || N.eqb c 160 || N.eqb c 5760
   || (N.leb 8192 c && N.leb c 8202)
   || N.eqb c 8232 || N.eqb c 8233 || N.eqb c 8239 || N.eqb c 8287
   || N.eqb c 12288 || N.eqb c 65279)%bool.

Fixpoint skip_space (s : str) : str :=
  match s with
  | c :: r => if is_space c then skip_space r else s
  | [] => []
  end.

(** [s.trim()] *)
Definition trim (s : str) : str := rev (skip_space (rev (skip_space s))).

(** [s.startsWith(p)], returning what follows the prefix. *)
Fixpoint strip_prefix (p s : str) : option str :=
  match p, s with
  | [], _ => Some s
  | a :: p', b :: s' => if N.eqb a b then strip_prefix p' s' else None
  | _ :: _, [] => None
  end.

Definition startsWith (s p : str) : bool :=
  match strip_prefix p s with Some _ => true | None => false end.

(** [s.includes(c)] for a one-character needle. *)
Definition includes_char (s : str) (c : N) : bool := existsb (N.eqb c) s.

(** [s.split(c)] for a one-character separator. *)
Fixpoint split_char (c : N) (s : str) : list str :=
  match s with
  | [] => [[]]
  | x :: r =>
      if N.eqb x c then [] :: split_char c r
      else match split_char c r with
           | h :: t => (x :: h) :: t
           | [] => [[x]]
           end
  end.

(** Truthiness of a string: the empty string is falsy. *)
Definition truthy_str (s : str) : bool :=
  match s with [] => false | _ :: _ => true end.

(** [a || b] on a string that may be [null]/[undefined]. *)
Definition or_else (a : option str) (b : option str) : option str :=
  match a with
  | Some s => if truthy_str s then Some s else b
  | None => b
  end.

End Js.

Import Js.

(** ** The rate limiter ([checkRateLimit], route.ts) *)

Record RateEntry := { count : Z; resetAt : Z }.

Definition RATE_LIMIT : Z := 10.
Definition RATE_WINDOW : Z := 60 * 1000.

Abbreviation RateMap := (gmap (list N) RateEntry).

(** [checkRateLimit(ip)] with [Date.now()] passed as [now] and the
    module-level [rateLimitMap] threaded through. The entry is an object held
    by the map alone, so [entry.count++] is an update of the map at [ip]. *)
Definition checkRateLimit (now : Z) (ip : str) (m : RateMap) : bool * RateMap :=
  let fresh := {| count := 1; resetAt := now + RATE_WINDOW |} in
  match m !! ip with
  | None => (true, <[ip := fresh]> m)
  | Some entry =>
      if now >? resetAt entry then (true, <[ip := fresh]> m)
      else if count entry >=? RATE_LIMIT then (false, m)
      else (true, <[ip := {| count := count entry + 1; resetAt := resetAt entry |}]> m)
  end.

(** A sequence of calls, each with its identity and its clock reading; the
    decisions are returned in order, paired with the identity. *)
Fixpoint serve (reqs : list (str * Z)) (m : RateMap) : list (str * bool) * RateMap :=
  match reqs with
  | [] => ([], m)
  | (ip, now) :: rest =>
      let '(ok, m1) := checkRateLimit now ip m in
      let '(ds, m2) := serve rest m1 in
      ((ip, ok) :: ds, m2)
  end.

(** The decisions taken for one identity, in order. *)
Definition decisions_of (ip : str) (ds : list (str * bool)) : list bool :=
  map snd (filter (fun d => d.1 = ip) ds).

Definition count_admissions (bs : list bool) : nat := length (filter (fun b => b = true) bs).

(** A call at [now] opens a window for [ip]: no entry, or the entry's window
    has elapsed. *)
Definition opens_window (m : RateMap) (ip : str) (now : Z) : Prop :=
  m !! ip = None ∨ ∃ e, m !! ip = Some e ∧ now > resetAt e.

Set Warnings "-register-all".

(** ** JSON values and [JSON.parse] *)

Module Json.

(** A number as its literal reads: [(-1)^neg * mant * 10^exp10]. The double
    that JavaScript makes of it is the nearest one; the model keeps the
    literal and decides on it what the code asks of the double. *)
Record numlit := { neg : bool; mant : N; exp10 : Z }.

Inductive json :=
| JNull
| JBool (b : bool)
| JNum (n : numlit)
| JStr (s : str)
| JArr (items : list json)
| JObj (members : list (str * json)).

(** The literal rounds to zero as a double: its magnitude is at most
    [2^-1075], half the least subnormal (the tie goes to the even
    neighbour, zero). *)
Definition rounds_to_zero (n : numlit) : bool :=
  if exp10 n >=? 0 then N.eqb (mant n) 0
  else Z.of_N (mant n) * 2 ^ 1075 <=? 10 ^ (- exp10 n).

(** Insignificant whitespace of JSON. *)
Definition is_ws (c : N) : bool :=
  (N.eqb c 32 || N.eqb c 9 || N.eqb c 10 || N.eqb c 13)%bool.

Fixpoint skip_ws (s : str) : str :=
  match s with
  | c :: r => if is_ws c then skip_ws r else s
  | [] => []
  end.

Definition is_digit (c : N) : bool := (N.leb 48 c && N.leb c 57)%bool.

Definition hex_value (c : N) : option N :=
  if (N.leb 48 c && N.leb c 57)%bool then Some (c - 48)%N
  else if (N.leb 65 c && N.leb c 70)%bool then Some (c - 55)%N
  else if (N.leb 97 c && N.leb c 102)%bool then Some (c - 87)%N
  else None.

Definition hex4 (a b c d : N) : option N :=
  match hex_value a, hex_value b, hex_value c, hex_value d with
  | Some x, Some y, Some z, Some w => Some (((x * 16 + y) * 16 + z) * 16 + w)%N
  | _, _, _, _ => None
  end.

(** A one-character escape after the backslash. *)
Definition simple_escape (e : N) : option N :=
  if N.eqb e 34 then Some 34%N        (* quote *)
  else if N.eqb e 92 then Some 92%N   (* backslash *)
  else if N.eqb e 47 then Some 47%N   (* slash *)
  else if N.eqb e 98 then Some 8%N    (* b *)
  else if N.eqb e 102 then Some 12%N  (* f *)
  else if N.eqb e 110 then Some 10%N  (* n *)
  else if N.eqb e 114 then Some 13%N  (* r *)
  else if N.eqb e 116 then Some 9%N   (* t *)
  else None.

(** The characters of a string after its opening quote, up to and including
    the closing one. *)
Fixpoint parse_chars (s : str) : option (str * str) :=
  match s with
  | [] => None
  | c :: r =>
      if N.eqb c 34 then Some ([], r)
      else if N.eqb c 92 then
        match r with
        | [] => None
        | e :: r1 =>
            if N.eqb e 117 then
              match r1 with
              | a :: b :: x :: d :: r2 =>
                  match hex4 a b x d with
                  | Some u =>
                      match parse_chars r2 with
                      | Some (cs, rest) => Some (u :: cs, rest)
                      | None => None
                      end
                  | None => None
                  end
              | _ => None
              end
            else
              match simple_escape e with
              | Some u =>
                  match parse_chars r1 with
                  | Some (cs, rest) => Some (u :: cs, rest)
                  | None => None
                  end
              | None => None
              end
        end
      else if N.ltb c 32 then None
      else
        match parse_chars r with
        | Some (cs, rest) => Some (c :: cs, rest)
        | None => None
        end
  end.

(** The longest run of digits at the head, and what follows. *)
Fixpoint take_digits (s : str) : str * str :=
  match s with
  | c :: r =>
      if is_digit c then let '(ds, rest) := take_digits r in (c :: ds, rest)
      else ([], s)
  | [] => ([], [])
  end.

Definition digits_value (ds : str) : N :=
  fold_left (fun acc c => (acc * 10 + (c - 48))%N) ds 0%N.

(** [int]: a single zero, or a non-zero digit followed by digits. *)
Definition parse_int (s : str) : option (str * str) :=
  match s with
  | c :: r =>
      if N.eqb c 48 then Some ([c], r)
      else if is_digit c then let '(ds, rest) := take_digits r in Some (c :: ds, rest)
      else None
  | [] => None
  end.

(** [frac]: nothing, or a point followed by at least one digit. *)
Definition parse_frac (s : str) : option (str * str) :=
  match s with
  | c :: r =>
      if N.eqb c 46 then
        match take_digits r with
        | ([], _) => None
        | (ds, rest) => Some (ds, rest)
        end
      else Some ([], s)
  | [] => Some ([], [])
  end.

(** [exp]: nothing, or e/E, an optional sign and at least one digit. *)
Definition parse_exp (s : str) : option (Z * str) :=
  match s with
  | c :: r =>
      if (N.eqb c 101 || N.eqb c 69)%bool then
        let '(sgn, r1) :=
          match r with
          | x :: r' =>
              if N.eqb x 45 then (-1, r')
              else if N.eqb x 43 then (1, r') else (1, r)
          | [] => (1, r)
          end in
        match take_digits r1 with
        | ([], _) => None
        | (ds, rest) => Some (sgn * Z.of_N (digits_value ds), rest)
        end
      else Some (0, s)
  | [] => Some (0, [])
  end.

Definition parse_number (s : str) : option (numlit * str) :=
  let '(ng, s1) :=
    match s with
    | c :: r => if N.eqb c 45 then (true, r) else (false, s)
    | [] => (false, s)
    end in
  match parse_int s1 with
  | None => None
  | Some (ip, s2) =>
      match parse_frac s2 with
      | None => None
      | Some (fp, s3) =>
          match parse_exp s3 with
          | None => None
          | Some (e, s4) =>
              Some ({| neg := ng;
                       mant := digits_value (ip ++ fp);
                       exp10 := e - Z.of_nat (length fp) |}, s4)
          end
      end
  end.

(** One value at the head of [s] (whitespace already skipped), and the rest.
    Every nested call takes one unit of [fuel]; [JSON_parse] gives enough
    for any text. *)
Fixpoint parse_value (fuel : nat) (s : str) : option (json * str) :=
  match fuel with
  | O => None
  | S f =>
      match s with
      | [] => None
      | c :: r =>
          if N.eqb c 123 then                        (* left brace *)
            match skip_ws r with
            | d :: r1 =>
                if N.eqb d 125 then Some (JObj [], r1)
                else match parse_members f (d :: r1) with
                     | Some (kvs, rest) => Some (JObj kvs, rest)
                     | None => None
                     end
            | [] => None
            end
          else if N.eqb c 91 then                    (* left bracket *)
            match skip_ws r with
            | d :: r1 =>
                if N.eqb d 93 then Some (JArr [], r1)
                else match parse_elements f (d :: r1) with
                     | Some (vs, rest) => Some (JArr vs, rest)
                     | None => None
                     end
            | [] => None
            end
          else if N.eqb c 34 then
            match parse_chars r with
            | Some (cs, rest) => Some (JStr cs, rest)
            | None => None
            end
          else if N.eqb c 116 then
            match strip_prefix (lit "true") s with
            | Some rest => Some (JBool true, rest)
            | None => None
            end
          else if N.eqb c 102 then
            match strip_prefix (lit "false") s with
            | Some rest => Some (JBool false, rest)
            | None => None
            end
          else if N.eqb c 110 then
            match strip_prefix (lit "null") s with
            | Some rest => Some (JNull, rest)
            | None => None
            end
          else
            match parse_number s with
            | Some (n, rest) => Some (JNum n, rest)
            | None => None
            end
      end
  end

(** The members of an object from its first key on, through the closing
    brace. *)
with parse_members (fuel : nat) (s : str) : option (list (str * json) * str) :=
  match fuel with
  | O => None
  | S f =>
      match s with
      | q :: r =>
          if N.eqb q 34 then
            match parse_chars r with
            | Some (k, r1) =>
                match skip_ws r1 with
                | colon :: r2 =>
                    if N.eqb colon 58 then
                      match parse_value f (skip_ws r2) with
                      | Some (v, r3) =>
                          match skip_ws r3 with
                          | x :: r4 =>
                              if N.eqb x 125 then Some ([(k, v)], r4)
                              else if N.eqb x 44 then
                                match parse_members f (skip_ws r4) with
                                | Some (kvs, rest) => Some ((k, v) :: kvs, rest)
                                | None => None
                                end
                              else None
                          | [] => None
                          end
                      | None => None
                      end
                    else None
                | [] => None
                end
            | None => None
            end
          else None
      | [] => None
      end
  end

(** The elements of an array from the first one on, through the closing
    bracket. *)
with parse_elements (fuel : nat) (s : str) : option (list json * str) :=
  match fuel with
  | O => None
  | S f =>
      match parse_value f s with
      | Some (v, r1) =>
          match skip_ws r1 with
          | x :: r2 =>
              if N.eqb x 93 then Some ([v], r2)
              else if N.eqb x 44 then
                match parse_elements f (skip_ws r2) with
                | Some (vs, rest) => Some (v :: vs, rest)
                | None => None
                end
              else None
          | [] => None
          end
      | None => None
      end
  end.

(** [JSON.parse(text)]: one value, whitespace around it, nothing else.
    [None] stands for the SyntaxError. *)
Definition JSON_parse (text : str) : option json :=
  match parse_value (2 * length text + 2) (skip_ws text) with
  | Some (v, rest) =>
      match skip_ws rest with
      | [] => Some v
      | _ :: _ => None
      end
  | None => None
  end.

(** [o.k] on a parsed object: the last member of that name wins. *)
Fixpoint member (k : str) (kvs : list (str * json)) : option json :=
  match kvs with
  | [] => None
  | (k', v) :: rest =>
      match member k rest with
      | Some w => Some w
      | None => if str_eqb k' k then Some v else None
      end
  end.

(** Property read [v.k] for the names the code reads, none of which a
    prototype supplies: [None] is [undefined]; reading from [null] throws
    and is handled where it happens. *)
Definition get (k : str) (v : json) : option json :=
  match v with
  | JObj kvs => member k kvs
  | _ => None
  end.

(** Truthiness of a value that may be [undefined]. *)
Definition truthy (v : option json) : bool :=
  match v with
  | None => false
  | Some JNull => false
  | Some (JBool b) => b
  | Some (JNum n) => negb (rounds_to_zero n)
  | Some (JStr s) => truthy_str s
  | Some (JArr _) => true
  | Some (JObj _) => true
  end.

(** [Array.isArray(v)] *)
Definition isArray (v : option json) : bool :=
  match v with Some (JArr _) => true | _ => false end.

(** [names.includes(v)] for an array of string literals: only a string equal
    to one of them is included. *)
Definition includes (names : list str) (v : option json) : bool :=
  match v with
  | Some (JStr s) => existsb (str_eqb s) names
  | _ => false
  end.

End Json.

Import Json.

(** ** Effects and control flow *)

(** A value of [FormData]: a string or a file. *)
Inductive FormValue :=
| FText (s : str)
| FFile (name type : str) (content : list Byte.byte).

(** One content part of a Gemini request. *)
Inductive Part :=
| PText (text : str)
| PInline (mimeType data : str).

(** The object handed to [insert]. *)
Record Row := {
  page_url : str;
  user_agent : option str;
  message_raw : str;
  screenshot_url : option str;
  ai_data : option json;
  project_id : option FormValue;
  row_status : str }.

(** The argument of [sendNotificationEmail]. *)
Record Notice := {
  n_id : str;
  n_message_raw : str;
  n_page_url : str;
  n_ai_data : option json }.

Inductive Effect :=
| Log (msg : str)
| Upload (bucket filename : str) (content : list Byte.byte) (contentType cacheControl : str)
| Generate (model : str) (parts : list Part)
| InsertRow (table : str) (row : Row)
| Notify (n : Notice).

(** A block of statements falls through with a value, leaves the function
    with [return r], or throws; the effects so far are kept in each case. *)
Inductive Step (R A : Type) :=
| Next (a : A)
| Return (r : R)
| Raise.

Arguments Next {R A} a.
Arguments Return {R A} r.
Arguments Raise {R A}.

Definition M (R A : Type) : Type := (Step R A * list Effect)%type.

Definition ret {R A} (a : A) : M R A := (Next a, []).
Definition leave {R A} (r : R) : M R A := (Return r, []).
Definition raise {R A} : M R A := (Raise, []).
Definition emit {R} (e : Effect) : M R unit := (Next tt, [e]).

Definition bind {R A B} (m : M R A) (k : A -> M R B) : M R B :=
  match m with
  | (Next a, es) => let '(s, es') := k a in (s, es ++ es')
  | (Return r, es) => (Return r, es)
  | (Raise, es) => (Raise, es)
  end.

#[global] Instance M_ret {R} : MRet (M R) := fun _ a => ret a.
#[global] Instance M_bind {R} : MBind (M R) := fun _ _ k m => bind m k.

(** [try { body } catch { log; return r }] around a whole function body:
    the handler is the value it returns and what it logs. *)
Definition try_catch {R} (body : M R R) (handler : R * list Effect) : R * list Effect :=
  match body with
  | (Next r, es) => (r, es)
  | (Return r, es) => (r, es)
  | (Raise, es) => (handler.1, es ++ handler.2)
  end.

(** ** The classification client ([analyzeFeedback], ai-service.ts) *)

Module Ai.

Definition fence : str := [96; 96; 96]%N.

(** [\s*```] matches at the head of [s]: the run of whitespace is followed
    by the fence (no shorter run can be, a backtick is not whitespace). *)
Definition closes (s : str) : bool := startsWith (skip_space s) fence.

(** [[\s\S]*\}] followed by [\s*```], from just after the opening brace: the
    star is greedy, so the closing brace is the last one the fence follows.
    The result is the text matched, through that brace. *)
Fixpoint body_end (s : str) : option str :=
  match s with
  | [] => None
  | c :: r =>
      match body_end r with
      | Some b => Some (c :: b)
      | None => if (N.eqb c 125 && closes r)%bool then Some [c] else None
      end
  end.

(** [\s*(\{[\s\S]*\})\s*```] at the head of [s]; the group. *)
Definition block_here (s : str) : option str :=
  match skip_space s with
  | c :: r =>
      if N.eqb c 123 then
        match body_end r with
        | Some b => Some (c :: b)
        | None => None
        end
      else None
  | [] => None
  end.

(** The whole pattern at the head of [s]: the optional [json] is tried
    first, and given up when the rest does not match after it. *)
Definition match_here (s : str) : option str :=
  match strip_prefix fence s with
  | None => None
  | Some r =>
      match strip_prefix (lit "json") r with
      | Some r1 =>
          match block_here r1 with
          | Some g => Some g
          | None => block_here r
          end
      | None => block_here r
      end
  end.

(** [text.match(/```(?:json)?\s*(\{[\s\S]*\})\s*```/)]: group 1 of the
    leftmost match. *)
Fixpoint fenced_block (s : str) : option str :=
  match match_here s with
  | Some g => Some g
  | None =>
      match s with
      | [] => None
      | _ :: r => fenced_block r
      end
  end.

(** The text handed to [JSON.parse]. *)
Definition extract_json (text : str) : str :=
  let jsonText := trim text in
  match fenced_block jsonText with
  | Some g => g
  | None => jsonText
  end.

Fixpoint take_until (c : N) (s : str) : str :=
  match s with
  | x :: r => if N.eqb x c then [] else x :: take_until c r
  | [] => []
  end.

(** [s.match(/data:([^;]+)/)]: group 1 of the leftmost match. *)
Fixpoint data_mime (s : str) : option str :=
  let here :=
    match strip_prefix (lit "data:") s with
    | Some r =>
        match take_until 59 r with
        | [] => None
        | g => Some g
        end
    | None => None
    end in
  match here with
  | Some g => Some g
  | None =>
      match s with
      | [] => None
      | _ :: r => data_mime r
      end
  end.

Definition nth_str (i : nat) (l : list str) : str := nth i l [].

(** The inline part built from [screenshotBase64]. *)
Definition inline_part (screenshotBase64 : str) : Part :=
  let base64Data :=
    if includes_char screenshotBase64 44
    then nth_str 1 (split_char 44 screenshotBase64)
    else screenshotBase64 in
  let mimeType :=
    if startsWith screenshotBase64 (lit "data:") then
      match data_mime screenshotBase64 with
      | Some m => m
      | None => lit "image/png"
      end
    else lit "image/png" in
  PInline mimeType base64Data.

Definition prompt (messageRaw : str) : str :=
  jq "Analyze this user feedback and classify it. The user is reporting feedback, a bug, feature request, or question.

User message: '" ++ messageRaw ++ jq "'

Extract:
1. A concise title (5-8 words)
2. A short summary (1-2 sentences)
3. Key details as a list
4. Category: bug, feature, question, billing, praise, or other
5. Feature area: which part of the product (e.g. 'export', 'upload', 'dashboard', 'prompts', 'billing', 'login')
6. Priority: low, medium, or high (high = blocking/urgent, medium = important, low = nice to have)
7. Steps to reproduce (if bug)
8. Expected behavior (if bug)
9. Confidence score (0.0-1.0)
10. Clarifying questions (only if really needed, max 2)

Return ONLY valid JSON (no markdown, no explanation):
{
  'title': '...',
  'short_summary': '...',
  'key_details': ['...', '...'],
  'suggested_category': 'bug'|'feature'|'question'|'billing'|'praise'|'other',
  'suggested_feature_area': '...',
  'suggested_priority': 'low'|'medium'|'high',
  'steps': ['...', '...'],
  'expected': '...' or null,
  'confidence': 0.0-1.0,
  'clarifying_questions': ['...', '...']
}".

Definition categories : list str :=
  [lit "bug"; lit "feature"; lit "question"; lit "billing"; lit "praise"; lit "other"].

Definition priorities : list str := [lit "low"; lit "medium"; lit "high"].

(** The condition of the [if] under "Validate structure": the reply is
    rejected when it holds. *)
Definition invalid_structure (aiData : json) : bool :=
  (negb (truthy (get (lit "title") aiData))
   || negb (truthy (get (lit "short_summary") aiData))
   || negb (isArray (get (lit "key_details") aiData))
   || negb (includes categories (get (lit "suggested_category") aiData))
   || negb (truthy (get (lit "suggested_feature_area") aiData))
   || negb (includes priorities (get (lit "suggested_priority") aiData)))%bool.

(** [analyzeFeedback({messageRaw, screenshotBase64, geminiApiKey})].
    [reply] is what [generateContent(parts)] followed by [response.text()]
    gives for this call: a text, or [None] when either throws. *)
Definition analyzeFeedback (messageRaw : str) (screenshotBase64 : option str)
    (geminiApiKey : str) (reply : option str) : option json * list Effect :=
  if negb (truthy_str geminiApiKey) then
    (None, [Log (lit "[OpenFeedbackLayer] No Gemini API key provided, skipping AI analysis")])
  else
    try_catch
      (let parts :=
         PText (prompt messageRaw) ::
         match screenshotBase64 with
         | Some s => if truthy_str s then [inline_part s] else []
         | None => []
         end in
       emit (Generate (lit "gemini-2.5-flash-lite") parts);;
       text ← match reply with Some t => ret t | None => raise end;
       (if negb (truthy_str text) then
          emit (Log (lit "[OpenFeedbackLayer] Empty response from Gemini"));;
          leave None
        else ret tt);;
       aiData ← match JSON_parse (extract_json text) with
                 | Some v => ret v
                 | None => raise
                 end;
       (* reading a property of [null] throws *)
       match aiData with JNull => raise | _ => ret tt end;;
       (if invalid_structure aiData then
          emit (Log (lit "[OpenFeedbackLayer] Invalid AI response structure"));;
          leave None
        else ret tt);;
       leave (Some aiData))
      (None, [Log (lit "[OpenFeedbackLayer] Error analyzing feedback:")]).

End Ai.

Import Ai.

(** ** The request handler ([POST], route.ts) *)

(** [buffer.toString('base64')] *)
Definition b64_char (i : N) : N :=
  (if i <? 26 then 65 + i
   else if i <? 52 then 97 + (i - 26)
   else if i <? 62 then 48 + (i - 52)
   else if i =? 62 then 43 else 47)%N.

Fixpoint base64 (bs : list Byte.byte) : str :=
  match bs with
  | [] => []
  | a :: r1 =>
      let x := Byte.to_N a in
      match r1 with
      | [] => [b64_char (x / 4); b64_char (x mod 4 * 16); 61; 61]%N
      | b :: r2 =>
          let y := Byte.to_N b in
          match r2 with
          | [] =>
              [b64_char (x / 4); b64_char (x mod 4 * 16 + y / 16);
               b64_char (y mod 16 * 4); 61]%N
          | c :: r3 =>
              let z := Byte.to_N c in
              [b64_char (x / 4); b64_char (x mod 4 * 16 + y / 16);
               b64_char (y mod 16 * 4 + z / 64); b64_char (z mod 64)]%N
              ++ base64 r3
          end
      end
  end.

(** The headers the handler reads; [None] is the [null] of [headers.get]. *)
Record Headers := {
  x_forwarded_for : option str;
  x_real_ip : option str;
  x_page_url : option str;
  referer : option str;
  h_user_agent : option str }.

(** The fields the handler reads with [formData.get]; [None] is [null]. *)
Record FormData := {
  website : option FormValue;
  message : option FormValue;
  screenshot : option FormValue;
  project : option FormValue }.

(** [formData] is [None] when [request.formData()] rejects (a body that is
    not a form). *)
Record Request := {
  headers : Headers;
  formData : option FormData }.

(** What a Supabase call resolves to: [{ data, error }]. *)
Record Answer := {
  data : option str;
  error : option str }.

(** Everything the handler reads from outside during one request. *)
Record World := {
  clock : Z;                       (* Date.now() in checkRateLimit *)
  GEMINI_API_KEY : option str;     (* process.env.GEMINI_API_KEY *)
  upload_clock : N;                (* Date.now() in the file name *)
  random_suffix : str;             (* Math.random().toString(36).substring(7) *)
  upload_answer : Answer;          (* storage.from('feedback').upload(...) *)
  publicUrl : str -> str;          (* getPublicUrl(filename).data.publicUrl *)
  gemini_reply : option str;       (* generateContent(parts), response.text() *)
  insert_answer : Answer }.        (* from('feedback').insert(...).select('id').single(); data is the id *)

Record Response := {
  status : Z;
  body : json }.

(** [a || d] where [d] is a string literal. *)
Definition or_lit (a : option str) (d : str) : str :=
  match a with
  | Some s => if truthy_str s then s else d
  | None => d
  end.

Definition client_ip (h : Headers) : str :=
  or_lit (or_else ((fun s => nth_str 0 (split_char 44 s)) <$> x_forwarded_for h)
                  (x_real_ip h))
         (lit "unknown").

(** [String(n)] for a non-negative integer. *)
Definition decimal (n : N) : str := lit (NilZero.string_of_uint (N.to_uint n)).

Definition error_body (msg : str) : json := JObj [(lit "error", JStr msg)].

Definition json_of_option (v : option json) : json :=
  match v with Some j => j | None => JNull end.

Definition lift {R A} (r : A * list Effect) : M R A := (Next r.1, r.2).

(** The block under "Handle screenshot upload to Supabase Storage": the
    upload, and the two variables it sets, [screenshotUrl] and
    [screenshotBase64]. A string in the field has no [size] and is skipped
    like an absent or empty file. *)
Definition handle_screenshot (w : World) (screenshot : option FormValue)
    : M Response (option str * option str) :=
  match screenshot with
  | Some (FFile _ _ buffer) =>
      if (0 <? length buffer)%nat then
        (* `${Date.now()}-${Math.random().toString(36).substring(7)}.png` *)
        let filename :=
          decimal (upload_clock w) ++ lit "-" ++ random_suffix w ++ lit ".png" in
        emit (Upload (lit "feedback") filename buffer (lit "image/png") (lit "3600"));;
        let screenshotUrl :=
          match error (upload_answer w), data (upload_answer w) with
          | None, Some _ => Some (publicUrl w filename)
          | _, _ => None
          end in
        ret (screenshotUrl, Some (lit "data:image/png;base64," ++ base64 buffer))
      else ret (None, None)
  | _ => ret (None, None)
  end.

(** The block under "AI classification". *)
Definition classify (w : World) (messageRaw : str) (screenshotBase64 : option str)
    : M Response (option json) :=
  match GEMINI_API_KEY w with
  | Some geminiKey =>
      if truthy_str geminiKey then
        lift (analyzeFeedback messageRaw (or_else screenshotBase64 None)
                              geminiKey (gemini_reply w))
      else ret None
  | None => ret None
  end.

Definition POST (w : World) (request : Request) (rateLimitMap : RateMap)
    : Response * list Effect * RateMap :=
  let ip := client_ip (headers request) in
  let '(ok, rateLimitMap') := checkRateLimit (clock w) ip rateLimitMap in
  (try_catch
     ((if negb ok then
         leave {| status := 429; body := error_body (lit "Too many requests") |}
       else ret tt);;
      form ← match formData request with Some f => ret f | None => raise end;
      (* honeypot && honeypot.trim().length > 0; a File has no trim *)
      bot ← match website form with
            | None => ret false
            | Some (FText honeypot) =>
                ret (truthy_str honeypot && truthy_str (trim honeypot))%bool
            | Some (FFile _ _ _) => raise
            end;
      (if bot : bool then
         emit (Log (lit "[Feedback] Bot detected via honeypot"));;
         leave {| status := 200;
                  body := JObj [(lit "id", JStr (lit "fake-id"));
                                (lit "message", JStr (lit "Feedback sent"))] |}
       else ret tt);;
      let projectId :=
        match project form with
        | Some (FText s) => if truthy_str s then Some (FText s) else None
        | other => other
        end in
      (* !messageRaw?.trim() *)
      messageRaw ← match message form with
                   | None => leave {| status := 400; body := error_body (lit "Message is required") |}
                   | Some (FText s) =>
                       if truthy_str (trim s) then ret s
                       else leave {| status := 400; body := error_body (lit "Message is required") |}
                   | Some (FFile _ _ _) => raise
                   end;
      let pageUrl := or_lit (or_else (x_page_url (headers request)) (referer (headers request)))
                            (lit "unknown") in
      let userAgent := or_else (h_user_agent (headers request)) None in
      shot ← handle_screenshot w (screenshot form);
      let screenshotUrl : option str := shot.1 in
      let screenshotBase64 : option str := shot.2 in
      aiData ← classify w messageRaw screenshotBase64;
      (* Store feedback *)
      emit (InsertRow (lit "feedback")
              {| page_url := pageUrl;
                 user_agent := userAgent;
                 message_raw := messageRaw;
                 screenshot_url := screenshotUrl;
                 ai_data := aiData;
                 project_id := projectId;
                 row_status := lit "new" |});;
      match error (insert_answer w) with
      | Some _ =>
          emit (Log (lit "[Feedback] Database error:"));;
          leave {| status := 500; body := error_body (lit "Failed to save feedback") |}
      | None => ret tt
      end;;
      (* feedback.id, with feedback the data of the answer *)
      feedback_id ← match data (insert_answer w) with
                    | Some id => ret id
                    | None => raise
                    end;
      (* Send email notification (async) *)
      emit (Notify {| n_id := feedback_id;
                      n_message_raw := messageRaw;
                      n_page_url := pageUrl;
                      n_ai_data := aiData |});;
      leave {| status := 200;
               body := JObj [(lit "id", JStr feedback_id);
                             (lit "ai_data", json_of_option aiData);
                             (lit "message", JStr (lit "Feedback received"))] |})
     ({| status := 500; body := error_body (lit "Internal server error") |},
      [Log (lit "[Feedback] Error:")]),
   rateLimitMap').

(** ** The handler, for any classification client *)

(** The route imports [analyzeFeedback]. Here the import is an argument of
    the handler, so that what the handler hands to the client can be told
    from what the client does with it: a client takes the message, the
    screenshot string, the key and the reply of the model, as
    [analyzeFeedback] does. The two definitions below are [classify] and
    [POST] word for word, but for the client; [POST] is
    [POST_with analyzeFeedback]. *)
Definition Client : Type :=
  str -> option str -> str -> option str -> option json * list Effect.

Definition classify_with (client : Client) (w : World) (messageRaw : str)
    (screenshotBase64 : option str) : M Response (option json) :=
  match GEMINI_API_KEY w with
  | Some geminiKey =>
      if truthy_str geminiKey then
        lift (client messageRaw (or_else screenshotBase64 None)
                     geminiKey (gemini_reply w))
      else ret None
  | None => ret None
  end.

Definition POST_with (client : Client) (w : World) (request : Request)
    (rateLimitMap : RateMap)
    : Response * list Effect * RateMap :=
  let ip := client_ip (headers request) in
  let '(ok, rateLimitMap') := checkRateLimit (clock w) ip rateLimitMap in
  (try_catch
     ((if negb ok then
         leave {| status := 429; body := error_body (lit "Too many requests") |}
       else ret tt);;
      form ← match formData request with Some f => ret f | None => raise end;
      (* honeypot && honeypot.trim().length > 0; a File has no trim *)
      bot ← match website form with
            | None => ret false
            | Some (FText honeypot) =>
                ret (truthy_str honeypot && truthy_str (trim honeypot))%bool
            | Some (FFile _ _ _) => raise
            end;
      (if bot : bool then
         emit (Log (lit "[Feedback] Bot detected via honeypot"));;
         leave {| status := 200;
                  body := JObj [(lit "id", JStr (lit "fake-id"));
                                (lit "message", JStr (lit "Feedback sent"))] |}
       else ret tt);;
      let projectId :=
        match project form with
        | Some (FText s) => if truthy_str s then Some (FText s) else None
        | other => other
        end in
      (* !messageRaw?.trim() *)
      messageRaw ← match message form with
                   | None => leave {| status := 400; body := error_body (lit "Message is required") |}
                   | Some (FText s) =>
                       if truthy_str (trim s) then ret s
                       else leave {| status := 400; body := error_body (lit "Message is required") |}
                   | Some (FFile _ _ _) => raise
                   end;
      let pageUrl := or_lit (or_else (x_page_url (headers request)) (referer (headers request)))
                            (lit "unknown") in
      let userAgent := or_else (h_user_agent (headers request)) None in
      shot ← handle_screenshot w (screenshot form);
      let screenshotUrl : option str := shot.1 in
      let screenshotBase64 : option str := shot.2 in
      aiData ← classify_with client w messageRaw screenshotBase64;
      (* Store feedback *)
      emit (InsertRow (lit "feedback")
              {| page_url := pageUrl;
                 user_agent := userAgent;
                 message_raw := messageRaw;
                 screenshot_url := screenshotUrl;
                 ai_data := aiData;
                 project_id := projectId;
                 row_status := lit "new" |});;
      match error (insert_answer w) with
      | Some _ =>
          emit (Log (lit "[Feedback] Database error:"));;
          leave {| status := 500; body := error_body (lit "Failed to save feedback") |}
      | None => ret tt
      end;;
      (* feedback.id, with feedback the data of the answer *)
      feedback_id ← match data (insert_answer w) with
                    | Some id => ret id
                    | None => raise
                    end;
      (* Send email notification (async) *)
      emit (Notify {| n_id := feedback_id;
                      n_message_raw := messageRaw;
                      n_page_url := pageUrl;
                      n_ai_data := aiData |});;
      leave {| status := 200;
               body := JObj [(lit "id", JStr feedback_id);
                             (lit "ai_data", json_of_option aiData);
                             (lit "message", JStr (lit "Feedback received"))] |})
     ({| status := 500; body := error_body (lit "Internal server error") |},
      [Log (lit "[Feedback] Error:")]),
   rateLimitMap').

(** What the handler does once the row is handed to the table: the
    response, and the log line or the notification, by the answer of the
    insertion. *)
Definition after_insert (w : World) (messageRaw pageUrl : str) (aiData : option json)
    : Response * list Effect :=
  match error (insert_answer w), data (insert_answer w) with
  | Some _, _ =>
      ({| status := 500; body := error_body (lit "Failed to save feedback") |},
       [Log (lit "[Feedback] Database error:")])
  | None, None =>
      ({| status := 500; body := error_body (lit "Internal server error") |},
       [Log (lit "[Feedback] Error:")])
  | None, Some feedback_id =>
      ({| status := 200;
          body := JObj [(lit "id", JStr feedback_id);
                        (lit "ai_data", json_of_option aiData);
                        (lit "message", JStr (lit "Feedback received"))] |},
       [Notify {| n_id := feedback_id;
                  n_message_raw := messageRaw;
                  n_page_url := pageUrl;
                  n_ai_data := aiData |}])
  end.

(** ** The schema of the specification, and sample data *)

(** A number literal denotes a value of the interval [0,1]. *)
Definition in_unit_interval (n : numlit) : bool :=
  ((negb (neg n) || N.eqb (mant n) 0)
   && (if exp10 n >=? 0 then Z.of_N (mant n) * 10 ^ exp10 n <=? 1
       else Z.of_N (mant n) <=? 10 ^ (- exp10 n)))%bool.

Definition is_string (v : option json) : bool :=
  match v with Some (JStr _) => true | _ => false end.

(** The constraints the specification puts on a classification result
    (section 3, as the testable property lists them): the required string
    fields are strings, the category and the priority are in their closed
    sets, the key details are an array, the confidence is a number of
    [0,1]. This definition follows the specification, not the code. *)
Definition spec_schema_ok (v : json) : bool :=
  (is_string (get (lit "title") v)
   && is_string (get (lit "short_summary") v)
   && is_string (get (lit "suggested_feature_area") v)
   && includes categories (get (lit "suggested_category") v)
   && includes priorities (get (lit "suggested_priority") v)
   && isArray (get (lit "key_details") v)
   && match get (lit "confidence") v with
      | Some (JNum n) => in_unit_interval n
      | _ => false
      end)%bool.

(** A model reply that is well formed but for a confidence of 7. *)
Definition reply_confidence_7 : str :=
  jq "{'title':'Export button broken','short_summary':'Export does nothing.','key_details':['no download'],'suggested_category':'bug','suggested_feature_area':'export','suggested_priority':'high','steps':[],'expected':null,'confidence':7,'clarifying_questions':[]}".

(** A well-formed model reply whose title quotes a fenced snippet. *)
Definition reply_quoting_fence : str :=
  jq "{'title':'Paste of ```{}``` breaks editor','short_summary':'Pasting a fenced block fails.','key_details':[],'suggested_category':'bug','suggested_feature_area':'editor','suggested_priority':'low','steps':[],'expected':null,'confidence':0.9,'clarifying_questions':[]}".

(** Effects that touch no collaborator but the model: a log line or a
    call of the model. *)
Definition quiet (e : Effect) : Prop :=
  match e with
  | Log _ | Generate _ _ => True
  | Upload _ _ _ _ _ | InsertRow _ _ | Notify _ => False
  end.

(** The text holds three backticks in a row somewhere. *)
Fixpoint has_fence (s : str) : bool :=
  match strip_prefix fence s with
  | Some _ => true
  | None =>
      match s with
      | [] => false
      | _ :: r => has_fence r
      end
  end.

(** The honeypot test of the handler is negative: the field is absent, or
    a text that is empty once trimmed. *)
Definition honeypot_clear (v : option FormValue) : Prop :=
  match v with
  | None => True
  | Some (FText s) => trim s = []
  | Some (FFile _ _ _) => False
  end.

(** The message is missing, or a text that is empty once trimmed. *)
Definition blank_message (v : option FormValue) : Prop :=
  match v with
  | None => True
  | Some (FText s) => trim s = []
  | Some (FFile _ _ _) => False
  end.

(** The request passes the limiter, carries a form, passes the honeypot
    test and brings the non-blank message text [s]: the handler goes on to
    the screenshot, the classification and the insertion. *)
Definition reaches_storage (w : World) (request : Request) (m : RateMap)
    (form : FormData) (s : str) : Prop :=
  (checkRateLimit (clock w) (client_ip (headers request)) m).1 = true
  ∧ formData request = Some form
  ∧ honeypot_clear (website form)
  ∧ message form = Some (FText s)
  ∧ trim s ≠ [].

(** The same world, but for the answer of the upload, of the insertion. *)
Definition with_upload (a : Answer) (w : World) : World :=
  {| clock := clock w; GEMINI_API_KEY := GEMINI_API_KEY w;
     upload_clock := upload_clock w; random_suffix := random_suffix w;
     upload_answer := a; publicUrl := publicUrl w;
     gemini_reply := gemini_reply w; insert_answer := insert_answer w |}.

Definition with_insert (a : Answer) (w : World) : World :=
  {| clock := clock w; GEMINI_API_KEY := GEMINI_API_KEY w;
     upload_clock := upload_clock w; random_suffix := random_suffix w;
     upload_answer := upload_answer w; publicUrl := publicUrl w;
     gemini_reply := gemini_reply w; insert_answer := a |}.

Definition with_reply (r : option str) (w : World) : World :=
  {| clock := clock w; GEMINI_API_KEY := GEMINI_API_KEY w;
     upload_clock := upload_clock w; random_suffix := random_suffix w;
     upload_answer := upload_answer w; publicUrl := publicUrl w;
     gemini_reply := r; insert_answer := insert_answer w |}.

(** The same request, with another value in its screenshot field. *)
Definition with_screenshot (v : option FormValue) (request : Request) : Request :=
  {| headers := headers request;
     formData :=
       (λ f, {| website := website f; message := message f;
                screenshot := v; project := project f |}) <$> formData request |}.

Definition clear_screenshot_url (r : Row) : Row :=
  {| page_url := page_url r; user_agent := user_agent r;
     message_raw := message_raw r; screenshot_url := None;
     ai_data := ai_data r; project_id := project_id r;
     row_status := row_status r |}.

(** The name under which a screenshot is uploaded. *)
Definition upload_name (w : World) : str :=
  decimal (upload_clock w) ++ lit "-" ++ random_suffix w ++ lit ".png".

Definition sample_headers : Headers :=
  {| x_forwarded_for := Some (lit "203.0.113.7, 10.0.0.1");
     x_real_ip := None;
     x_page_url := Some (lit "https://app.example/reports");
     referer := None;
     h_user_agent := Some (lit "Mozilla/5.0") |}.

Definition reply_export_bug : str :=
  jq "{'title':'Export button does nothing','short_summary':'Clicking export has no effect.','key_details':['no download'],'suggested_category':'bug','suggested_feature_area':'export','suggested_priority':'high','steps':['open reports','click export'],'expected':'a file is downloaded','confidence':0.9,'clarifying_questions':[]}".

Definition sample_world : World :=
  {| clock := 1000;
     GEMINI_API_KEY := Some (lit "key");
     upload_clock := 1700000000000;
     random_suffix := lit "k3x9q";
     upload_answer := {| data := Some (lit "1700000000000-k3x9q.png"); error := None |};
     publicUrl := λ f, lit "https://cdn.example/feedback/" ++ f;
     gemini_reply := Some reply_export_bug;
     insert_answer := {| data := Some (lit "row-1"); error := None |} |}.

Definition request_of (form : FormData) : Request :=
  {| headers := sample_headers; formData := Some form |}.

Definition form_genuine : FormData :=
  {| website := Some (FText []);
     message := Some (FText (lit "Export button does nothing"));
     screenshot := None;
     project := None |}.

Definition form_bot : FormData :=
  {| website := Some (FText (lit "http://spam.example"));
     message := Some (FText (lit "Cheap pills"));
     screenshot := None;
     project := None |}.

(** A blank message, sent with the honeypot field filled in. *)
Definition form_bot_blank : FormData :=
  {| website := Some (FText (lit "x"));
     message := Some (FText (lit "   "));
     screenshot := None;
     project := Some (FText (lit "acme")) |}.

Definition form_blank : FormData :=
  {| website := Some (FText []);
     message := Some (FText (lit "   "));
     screenshot := None;
     project := Some (FText (lit "acme")) |}.

(** A JPEG sent as screenshot. *)
Definition form_with_jpeg : FormData :=
  {| website := Some (FText []);
     message := Some (FText (lit "Export button does nothing"));
     screenshot := Some (FFile (lit "shot.jpg") (lit "image/jpeg") [xff; xd8; xff; xe0]);
     project := None |}.

(** The identity of the sample requests, at its limit in an open window. *)
Definition table_full : RateMap :=
  {[ lit "203.0.113.7" := {| count := 10; resetAt := 50000 |} ]}.

Definition table_room : RateMap :=
  {[ lit "203.0.113.7" := {| count := 3; resetAt := 50000 |} ]}.

Definition failed_answer : Answer :=
  {| data := None; error := Some (lit "storage unavailable") |}.

(** The names of the members of a response body, in order. *)
Definition keys (v : json) : list str :=
  match v with
  | JObj members => map fst members
  | _ => []
  end.

(** The rows handed to [insert] in a trace. *)
Definition inserted (es : list Effect) : list Row :=
  omap (λ e, match e with InsertRow _ row => Some row | _ => None end) es.

(** The notifications dispatched in a trace. *)
Definition notified (es : list Effect) : list Notice :=
  omap (λ e, match e with Notify n => Some n | _ => None end) es.

(** A reply [j] inside a fenced block, with or without the language tag and
    with whitespace [ws1], [ws2] (a line break, usually) around it. *)
Definition fenced (tagged : bool) (ws1 j ws2 : str) : str :=
  fence ++ (if tagged then lit "json" else []) ++ ws1 ++ j ++ ws2 ++ fence.

(** Eleven calls of one identity within a minute, another identity in
    between: ten admitted, the eleventh refused. *)
Definition eleven_calls : list (str * Z) :=
  [(lit "10.0.0.7", 1); (lit "10.0.0.7", 2); (lit "10.0.0.9", 2);
   (lit "10.0.0.7", 3); (lit "10.0.0.7", 4); (lit "10.0.0.7", 5);
   (lit "10.0.0.7", 6); (lit "10.0.0.7", 7); (lit "10.0.0.7", 8);
   (lit "10.0.0.7", 9); (lit "10.0.0.7", 60000)].


(** ** The notification email ([sendNotificationEmail], route.ts) *)

(** What the function reads from [process.env], and how the Resend client
    behaves for this call. *)
Inductive ResendOutcome :=
| ImportFails          (* import('resend') rejects *)
| SendThrows           (* resend.emails.send(...) rejects *)
| SendResolves.

Record MailEnv := {
  RESEND_API_KEY : option str;
  FEEDBACK_NOTIFY_EMAIL : option str;
  RESEND_FROM_EMAIL : option str;
  resend : ResendOutcome }.

(** The argument of [resend.emails.send]. *)
Record Email := {
  e_from : str;
  e_to : str;
  e_subject : str;
  e_html : str }.

Inductive MailEffect :=
| Send (e : Email)
| MailLog (msg : str).

(** [s.replace(/\n/g, '<br>')] *)
Fixpoint replace_newlines (s : str) : str :=
  match s with
  | [] => []
  | c :: r => if N.eqb c 10 then lit "<br>" ++ replace_newlines r
              else c :: replace_newlines r
  end.

(** The three signs of the subject, as UTF-16: U+1F534, U+1F7E1, U+1F7E2. *)
Definition red_circle : str := [55357; 56628]%N.
Definition yellow_circle : str := [55357; 57313]%N.
Definition green_circle : str := [55357; 57314]%N.

(** [v || d] on a value that may be [undefined], [d] a string literal. *)
Definition json_or (v : option json) (d : str) : json :=
  match v with
  | Some j => if truthy v then j else JStr d
  | None => JStr d
  end.

(** [v === s] for a string literal [s]. *)
Definition is_str (v : json) (s : str) : bool :=
  match v with
  | JStr x => str_eqb x s
  | _ => false
  end.

(** [feedback.ai_data?.k]: [undefined] on [null] as on a missing member. *)
Definition get_opt (k : str) (v : option json) : option json :=
  match v with
  | Some j => get k j
  | None => None
  end.

(** The html of the email; [category] and [priority] are already strings. *)
Definition email_html (category priority page_url message_raw : str) : str :=
  lit "
        <h2>New Feedback Received</h2>
        <p><strong>Category:</strong> " ++ category
  ++ lit "</p>
        <p><strong>Priority:</strong> " ++ priority
  ++ lit "</p>
        <p><strong>Page:</strong> " ++ page_url
  ++ lit "</p>
        <hr>
        <p><strong>Message:</strong></p>
        <blockquote>" ++ replace_newlines message_raw
  ++ lit "</blockquote>
      ".

(** [sendNotificationEmail(feedback)]. [to_string] is the conversion a
    template literal applies to a value (the identity on strings). The
    function is not awaited by its caller; its effects are its own. *)
Definition sendNotificationEmail (to_string : json -> str) (env : MailEnv)
    (feedback : Notice) : list MailEffect :=
  match or_else (RESEND_API_KEY env) None, or_else (FEEDBACK_NOTIFY_EMAIL env) None with
  | Some resendKey, Some notifyEmail =>
      match resend env with
      | ImportFails => [MailLog (lit "[Feedback] Failed to send email:")]
      | outcome =>
          let category :=
            json_or (get_opt (lit "suggested_category") (n_ai_data feedback)) (lit "unknown") in
          let priority :=
            json_or (get_opt (lit "suggested_priority") (n_ai_data feedback)) (lit "medium") in
          let emoji :=
            if is_str priority (lit "high") then red_circle
            else if is_str priority (lit "medium") then yellow_circle
            else green_circle in
          Send {| e_from := or_lit (RESEND_FROM_EMAIL env) (lit "feedback@yourdomain.com");
                  e_to := notifyEmail;
                  e_subject := emoji ++ lit " New Feedback: " ++ to_string category;
                  e_html := email_html (to_string category) (to_string priority)
                                       (n_page_url feedback) (n_message_raw feedback) |}
          :: match outcome with
             | SendThrows => [MailLog (lit "[Feedback] Failed to send email:")]
             | _ => []
             end
      end
  | _, _ => []
  end.

(** ** Observations on traces and sequences of requests *)

(** The files handed to the storage bucket in a trace. *)
Definition uploads (es : list Effect) : list (str * str) :=
  omap (λ e, match e with
             | Upload _ filename _ contentType _ => Some (filename, contentType)
             | _ => None
             end) es.

(** The calls of the model in a trace. *)
Definition model_calls (es : list Effect) : list (list Part) :=
  omap (λ e, match e with Generate _ parts => Some parts | _ => None end) es.

(** Requests handled one after the other, each in its own world, on the
    table the previous one left. *)
Fixpoint handle_all (reqs : list (World * Request)) (m : RateMap)
    : list (str * (Response * list Effect)) * RateMap :=
  match reqs with
  | [] => ([], m)
  | (w, request) :: rest =>
      let '(r, m1) := POST w request m in
      let '(rs, m2) := handle_all rest m1 in
      ((client_ip (headers request), r) :: rs, m2)
  end.

(** The call of the limiter a request gives rise to. *)
Definition call_of (wr : World * Request) : str * Z :=
  (client_ip (headers wr.2), clock wr.1).

(** The row the handler assembles. *)
Definition stored_row (request : Request) (form : FormData) (s : str)
    (url : option str) (aiData : option json) : Row :=
  {| page_url := or_lit (or_else (x_page_url (headers request)) (referer (headers request)))
                        (lit "unknown");
     user_agent := or_else (h_user_agent (headers request)) None;
     message_raw := s;
     screenshot_url := url;
     ai_data := aiData;
     project_id :=
       match project form with
       | Some (FText p) => if truthy_str p then Some (FText p) else None
       | other => other
       end;
     row_status := lit "new" |}.

(** The answers given to one identity, in order. *)
Definition answers_to (ip : str) (rs : list (str * (Response * list Effect)))
    : list (Response * list Effect) :=
  map snd (filter (λ d, d.1 = ip) rs).

(** Every count of the table lies between 1 and the limit. *)
Definition table_ok (m : RateMap) : Prop :=
  ∀ ip e, m !! ip = Some e → 1 <= count e <= RATE_LIMIT.

(** The sample world of a deployment without a key for the model. *)
Definition world_without_key : World :=
  {| clock := clock sample_world; GEMINI_API_KEY := None;
     upload_clock := upload_clock sample_world;
     random_suffix := random_suffix sample_world;
     upload_answer := upload_answer sample_world;
     publicUrl := publicUrl sample_world;
     gemini_reply := gemini_reply sample_world;
     insert_answer := insert_answer sample_world |}.

Definition sample_mail_env : MailEnv :=
  {| RESEND_API_KEY := Some (lit "re_key");
     FEEDBACK_NOTIFY_EMAIL := Some (lit "team@example.com");
     RESEND_FROM_EMAIL := None;
     resend := SendResolves |}.

(** A conversion to string that is the identity on strings, for the
    samples. *)
Definition sample_to_string (v : json) : str :=
  match v with
  | JStr s => s
  | _ => lit "[object Object]"
  end.

Definition sample_notice : Notice :=
  {| n_id := lit "row-1";
     n_message_raw := lit "Export button
does nothing <b>at all</b>";
     n_page_url := lit "https://app.example/reports";
     n_ai_data := JSON_parse reply_export_bug |}.

(** The email of the sample notice. *)
Definition sample_email : Email :=
  {| e_from := lit "feedback@yourdomain.com";
     e_to := lit "team@example.com";
     e_subject := red_circle ++ lit " New Feedback: bug";
     e_html := email_html (lit "bug") (lit "high") (n_page_url sample_notice)
                          (n_message_raw sample_notice) |}.

(** A form whose website field is a file. *)
Definition form_website_file : FormData :=
  {| website := Some (FFile (lit "w.txt") (lit "text/plain") [x41]);
     message := Some (FText (lit "Export button does nothing"));
     screenshot := None;
     project := None |}.

(** Eleven requests of one identity within a minute, bots and blank
    messages among them. *)
Definition eleven_requests : list (World * Request) :=
  [(sample_world, request_of form_genuine); (sample_world, request_of form_bot);
   (sample_world, request_of form_blank); (sample_world, request_of form_with_jpeg);
   (sample_world, request_of form_genuine); (sample_world, request_of form_genuine);
   (sample_world, request_of form_bot_blank); (sample_world, request_of form_genuine);
   (sample_world, request_of form_genuine); (sample_world, request_of form_genuine);
   (sample_world, request_of form_genuine)].

(** ** The widget ([FeedbackWidget]) *)

(** The component's state and its handlers. A handler is a function of the
    state it finds, and gives the state it leaves and what it does to the
    outside; rendering and styles are left out. The state fields, the props
    and the handlers keep their names, inside a module of their own. *)
Module Widget.

(** A [File] of the browser. *)
Record File := {
  name : str;
  type : str;
  content : list Byte.byte }.

(** [file.size] *)
Definition size (file : File) : Z := Z.of_nat (length (content file)).

(** The file as an entry of a form. *)
Definition entry (file : File) : FormValue :=
  FFile (name file) (type file) (content file).

(** What [formatPriority] returns: a label or, for a name that the object
    literal [map] inherits from [Object.prototype], the inherited member. *)
Inductive Shown :=
| Label (s : str)
| Inherited (member : str).

(** The names an object literal inherits from [Object.prototype]; each of
    the members is truthy. *)
Definition object_prototype : list str :=
  [lit "constructor"; lit "hasOwnProperty"; lit "isPrototypeOf";
   lit "propertyIsEnumerable"; lit "toLocaleString"; lit "toString";
   lit "valueOf"; lit "__proto__"; lit "__defineGetter__";
   lit "__defineSetter__"; lit "__lookupGetter__"; lit "__lookupSetter__"].

(** [formatPriority(priority)]: [map[priority] || 'P1'], the key already
    converted to a string. *)
Definition formatPriority (priority : str) : Shown :=
  if str_eqb priority (lit "high") then Label (lit "P0")
  else if str_eqb priority (lit "medium") then Label (lit "P1")
  else if str_eqb priority (lit "low") then Label (lit "P2")
  else if existsb (str_eqb priority) object_prototype then Inherited priority
  else Label (lit "P1").

(** The card of the sent state. The category and the feature area are
    whatever the reply holds. *)
Record Classification := {
  category : json;
  feature_area : json;
  priority : Shown }.

(** What a callback of the host page does when called. *)
Inductive Callback :=
| Returns
| ThrowsError      (* throws an instance of Error *)
| ThrowsOther.     (* throws another value *)

(** The props the handlers read. [onError], when given, is taken to
    return. *)
Record Props := {
  apiEndpoint : str;
  projectId : option str;
  onSubmit : option Callback;
  onError : bool }.

Record State := {
  isOpen : bool;
  message : str;
  screenshotFile : option File;
  screenshotPreview : option str;
  isSending : bool;
  isSent : bool;
  aiResponse : option json;
  classification : option Classification;
  honeypot : str }.

(** The state of [useState] at the first render. *)
Definition initial : State :=
  {| isOpen := false; message := []; screenshotFile := None;
     screenshotPreview := None; isSending := false; isSent := false;
     aiResponse := None; classification := None; honeypot := [] |}.

Definition setIsOpen (v : bool) (st : State) : State :=
  {| isOpen := v; message := message st; screenshotFile := screenshotFile st;
     screenshotPreview := screenshotPreview st; isSending := isSending st;
     isSent := isSent st; aiResponse := aiResponse st;
     classification := classification st; honeypot := honeypot st |}.

Definition setMessage (v : str) (st : State) : State :=
  {| isOpen := isOpen st; message := v; screenshotFile := screenshotFile st;
     screenshotPreview := screenshotPreview st; isSending := isSending st;
     isSent := isSent st; aiResponse := aiResponse st;
     classification := classification st; honeypot := honeypot st |}.

Definition setScreenshotFile (v : option File) (st : State) : State :=
  {| isOpen := isOpen st; message := message st; screenshotFile := v;
     screenshotPreview := screenshotPreview st; isSending := isSending st;
     isSent := isSent st; aiResponse := aiResponse st;
     classification := classification st; honeypot := honeypot st |}.

Definition setScreenshotPreview (v : option str) (st : State) : State :=
  {| isOpen := isOpen st; message := message st; screenshotFile := screenshotFile st;
     screenshotPreview := v; isSending := isSending st;
     isSent := isSent st; aiResponse := aiResponse st;
     classification := classification st; honeypot := honeypot st |}.

Definition setIsSending (v : bool) (st : State) : State :=
  {| isOpen := isOpen st; message := message st; screenshotFile := screenshotFile st;
     screenshotPreview := screenshotPreview st; isSending := v;
     isSent := isSent st; aiResponse := aiResponse st;
     classification := classification st; honeypot := honeypot st |}.

Definition setIsSent (v : bool) (st : State) : State :=
  {| isOpen := isOpen st; message := message st; screenshotFile := screenshotFile st;
     screenshotPreview := screenshotPreview st; isSending := isSending st;
     isSent := v; aiResponse := aiResponse st;
     classification := classification st; honeypot := honeypot st |}.

Definition setAiResponse (v : option json) (st : State) : State :=
  {| isOpen := isOpen st; message := message st; screenshotFile := screenshotFile st;
     screenshotPreview := screenshotPreview st; isSending := isSending st;
     isSent := isSent st; aiResponse := v;
     classification := classification st; honeypot := honeypot st |}.

Definition setClassification (v : option Classification) (st : State) : State :=
  {| isOpen := isOpen st; message := message st; screenshotFile := screenshotFile st;
     screenshotPreview := screenshotPreview st; isSending := isSending st;
     isSent := isSent st; aiResponse := aiResponse st;
     classification := v; honeypot := honeypot st |}.

Definition setHoneypot (v : str) (st : State) : State :=
  {| isOpen := isOpen st; message := message st; screenshotFile := screenshotFile st;
     screenshotPreview := screenshotPreview st; isSending := isSending st;
     isSent := isSent st; aiResponse := aiResponse st;
     classification := classification st; honeypot := v |}.

(** What a handler does to the outside. *)
Inductive UiEffect :=
| Alert (msg : str)
| ReadAsDataURL (file : File)
| Fetch (url page : str) (form : FormData)   (* POST, header x-page-url *)
| Submitted (message_raw page_url : str) (ai_data : option json)   (* onSubmit *)
| Failed                                                           (* onError *)
| ConsoleError (msg : str)
| SetTimeout (ms : Z).

(** [handleScreenshotSelect(file)] *)
Definition handleScreenshotSelect (file : File) (st : State) : State * list UiEffect :=
  if 5 * 1024 * 1024 <? size file then
    (st, [Alert (lit "Image must be less than 5MB")])
  else (setScreenshotFile (Some file) st, [ReadAsDataURL file]).

(** [reader.onloadend]: the preview is the result of the reader. *)
Definition onloadend (result : option str) (st : State) : State :=
  setScreenshotPreview result st.

(** [handleDrop(e)], [files] being [e.dataTransfer.files]. *)
Definition handleDrop (files : list File) (st : State) : State * list UiEffect :=
  match files with
  | file :: _ =>
      if startsWith (type file) (lit "image/") then handleScreenshotSelect file st
      else (st, [])
  | [] => (st, [])
  end.

(** The [onChange] of the file input, [files] being [e.target.files]. *)
Definition onChange_file (files : list File) (st : State) : State * list UiEffect :=
  match files with
  | file :: _ => handleScreenshotSelect file st
  | [] => (st, [])
  end.

(** The loop of [handlePaste] over the items of the clipboard: the type
    of an item and what its [getAsFile()] returns. *)
Fixpoint paste_items (items : list (str * option File)) (st : State)
    : State * list UiEffect :=
  match items with
  | [] => (st, [])
  | (item_type, file) :: rest =>
      let '(st1, es1) :=
        if startsWith item_type (lit "image/") then
          match file with
          | Some f => handleScreenshotSelect f st
          | None => (st, [])
          end
        else (st, []) in
      let '(st2, es2) := paste_items rest st1 in
      (st2, es1 ++ es2)
  end.

(** [handlePaste(e)]; [items] is [None] without clipboard data. *)
Definition handlePaste (items : option (list (str * option File))) (st : State)
    : State * list UiEffect :=
  if negb (isOpen st) then (st, [])
  else match items with
       | None => (st, [])
       | Some l => paste_items l st
       end.

(** The button that removes the screenshot. *)
Definition remove_screenshot (st : State) : State :=
  setScreenshotPreview None (setScreenshotFile None st).

(** [handleClose()], and the function it hands to [setTimeout]. *)
Definition handleClose (st : State) : State * list UiEffect :=
  (setIsOpen false st, if isSent st then [SetTimeout 300] else []).

Definition reset (st : State) : State :=
  setClassification None
    (setAiResponse None
       (setIsSent false
          (setScreenshotPreview None (setScreenshotFile None (setMessage [] st))))).

(** How the request of [handleSend] ends: [fetch] rejects, or resolves
    with [response.ok] and with what [response.json()] gives, [None] when
    that rejects. *)
Inductive FetchOutcome :=
| NetworkError
| Responded (ok : bool) (result : option json).

(** [handleSend] up to the [fetch]: [None] when the guard returns at
    once. [href] is [window.location.href], or the empty string without a
    window. *)
Definition handleSend_request (p : Props) (href : str) (st : State) : option UiEffect :=
  if (negb (truthy_str (trim (message st))) || isSending st)%bool then None
  else
    Some (Fetch (apiEndpoint p) href
            (Build_FormData
               (Some (FText (honeypot st)))
               (Some (FText (message st)))
               (entry <$> screenshotFile st)
               (match projectId p with
                | Some id => if truthy_str id then Some (FText id) else None
                | None => None
                end))).

Definition default_card : Classification :=
  {| category := JStr (lit "feedback");
     feature_area := JStr (lit "general");
     priority := Label (lit "P1") |}.

Definition thanks : str := lit "Thank you for your feedback!".

(** [setClassification(c); setAiResponse(a); setIsSent(true)] *)
Definition show (c : Classification) (a : json) (st : State) : State :=
  setIsSent true (setAiResponse (Some a) (setClassification (Some c) st)).

(** The [catch] block; [is_error] is [error instanceof Error]. *)
Definition catch_block (p : Props) (is_error : bool) (st : State)
    : State * list UiEffect :=
  (show default_card (JStr thanks) st,
   ConsoleError (lit "[OpenFeedbackLayer] Send error:")
   :: if (onError p && is_error)%bool then [Failed] else []).

(** [handleSend] from the answer of the [fetch] on. [sent] is the message
    the handler was called with. Whatever [fetch] and [response.json()]
    reject with is an instance of Error, and so are the TypeError of
    [result.ai_data] on [null] and the Error of a response that is not
    ok. *)
Definition handleSend_settle (to_string : json → str) (p : Props) (href sent : str)
    (outcome : FetchOutcome) (st : State) : State * list UiEffect :=
  let '(st', es) :=
    match outcome with
    | NetworkError => catch_block p true st
    | Responded false _ => catch_block p true st
    | Responded true None => catch_block p true st
    | Responded true (Some JNull) => catch_block p true st
    | Responded true (Some result) =>
        let aiData := get (lit "ai_data") result in
        let st1 :=
          if truthy aiData then
            show {| category := json_or (get_opt (lit "suggested_category") aiData)
                                        (lit "other");
                    feature_area := json_or (get_opt (lit "suggested_feature_area") aiData)
                                            (lit "general");
                    priority :=
                      formatPriority
                        (to_string (json_or (get_opt (lit "suggested_priority") aiData)
                                            (lit "medium"))) |}
                 (json_or (get_opt (lit "short_summary") aiData) thanks) st
          else show default_card (JStr thanks) st in
        match onSubmit p with
        | None => (st1, [])
        | Some Returns => (st1, [Submitted sent href aiData])
        | Some ThrowsError =>
            let '(st2, es) := catch_block p true st1 in
            (st2, Submitted sent href aiData :: es)
        | Some ThrowsOther =>
            let '(st2, es) := catch_block p false st1 in
            (st2, Submitted sent href aiData :: es)
        end
    end in
  (setIsSending false st', es).

(** [handleSend()], when nothing happens between the request and its
    answer. *)
Definition handleSend (to_string : json → str) (p : Props) (href : str)
    (outcome : FetchOutcome) (st : State) : State * list UiEffect :=
  match handleSend_request p href st with
  | None => (st, [])
  | Some request =>
      let '(st', es) :=
        handleSend_settle to_string p href (message st) outcome (setIsSending true st) in
      (st', request :: es)
  end.

(** What can happen to the component. A request that is under way ends in
    an event of its own, so that others can come in between. *)
Inductive Event :=
| Open                                              (* the floating button *)
| Close
| Timer                                             (* the timeout of handleClose *)
| Typed (s : str)                                   (* the textarea *)
| Filled (s : str)                                  (* the honeypot input *)
| Chosen (files : list File)                        (* the file input *)
| Dropped (files : list File)
| Pasted (items : option (list (str * option File)))
| Loaded (result : option str)                      (* the reader of the preview *)
| Removed
| Clicked                                           (* the Send button *)
| Settled (sent : str) (outcome : FetchOutcome).

Definition step (to_string : json → str) (p : Props) (href : str) (ev : Event)
    (st : State) : State * list UiEffect :=
  match ev with
  | Open => (setIsOpen true st, [])
  | Close => handleClose st
  | Timer => (reset st, [])
  | Typed s => (setMessage s st, [])
  | Filled s => (setHoneypot s st, [])
  | Chosen files => onChange_file files st
  | Dropped files => handleDrop files st
  | Pasted items => handlePaste items st
  | Loaded result => (onloadend result st, [])
  | Removed => (remove_screenshot st, [])
  | Clicked =>
      match handleSend_request p href st with
      | None => (st, [])
      | Some request => (setIsSending true st, [request])
      end
  | Settled sent outcome => handleSend_settle to_string p href sent outcome st
  end.

Fixpoint run (to_string : json → str) (p : Props) (href : str) (evs : list Event)
    (st : State) : State * list UiEffect :=
  match evs with
  | [] => (st, [])
  | ev :: rest =>
      let '(st1, es1) := step to_string p href ev st in
      let '(st2, es2) := run to_string p href rest st1 in
      (st2, es1 ++ es2)
  end.

End Widget.

(** The form the handler finds for the form the widget sends: the files as
    they are, the texts as the encoding of the form leaves them. *)
Definition transported (wire : str → str) (form : FormData) : FormData :=
  let field v :=
    match v with
    | Some (FText s) => Some (FText (wire s))
    | other => other
    end in
  {| website := field (website form); message := field (message form);
     screenshot := field (screenshot form); project := field (project form) |}.

Definition sample_props : Widget.Props :=
  {| Widget.apiEndpoint := lit "/api/feedback";
     Widget.projectId := Some (lit "docs");
     Widget.onSubmit := Some Widget.Returns;
     Widget.onError := true |}.

Definition sample_file : Widget.File :=
  {| Widget.name := lit "shot.jpg"; Widget.type := lit "image/jpeg";
     Widget.content := [x41; x42] |}.

Definition sample_href : str := lit "https://app.example/reports".

(** The panel is opened, a message typed, a picture chosen, Send clicked. *)
Definition sample_events : list Widget.Event :=
  [Widget.Open; Widget.Typed (lit "Export button does nothing");
   Widget.Chosen [sample_file]; Widget.Clicked].

(** The state in which Send is clicked. *)
Definition sample_state : Widget.State :=
  Widget.setMessage (lit "Export button does nothing")
    (Widget.setIsOpen true Widget.initial).

(** The form of the request that [sample_events] ends in. *)
Definition sample_sent_form : FormData :=
  {| website := Some (FText []);
     message := Some (FText (lit "Export button does nothing"));
     screenshot := Some (FFile (lit "shot.jpg") (lit "image/jpeg") [x41; x42]);
     project := Some (FText (lit "docs")) |}.

(** The body of an Accepted response that carries a classification. *)
Definition sample_body : json :=
  JObj [(lit "id", JStr (lit "row-1"));
        (lit "ai_data", json_of_option (JSON_parse reply_export_bug));
        (lit "message", JStr (lit "Feedback received"))].

(** A sample of what the encoding of a form does to a text: a line feed
    is sent as carriage return and line feed. *)
Fixpoint crlf (s : str) : str :=
  match s with
  | [] => []
  | c :: r => if N.eqb c 10 then 13%N :: 10%N :: crlf r else c :: crlf r
  end.

(** A client that does nothing but log the screenshot string it is
    given. *)
Definition probe_client : Client :=
  λ _ screenshotBase64 _ _, (None, [Log (or_lit screenshotBase64 (lit "undefined"))]).

(** * Properties *)

(** Unfolding of the control monad, literals kept folded. *)
Ltac run := unfold mbind, M_bind, bind, ret, leave, raise, emit, lift, try_catch; simpl.

(** The honeypot test on a field that passes it, [H : honeypot_clear _]. *)
Ltac pass_honeypot H :=
  match goal with
  | |- context [website ?f] =>
      destruct (website f) as [[?|]|]; simpl in H;
      [rewrite H, andb_false_r; simpl | done | simpl]
  end.

(** Two spellings of one list, up to the nesting of its appends. *)
Ltac by_assoc := repeat (simpl; rewrite <- ?app_assoc); reflexivity.

(** ** Rate limiter *)

Section RateLimiter.

Implicit Types (m : RateMap) (ip : str) (now : Z) (e : RateEntry).

Lemma checkRateLimit_open m ip now :
  opens_window m ip now →
  checkRateLimit now ip m
  = (true, <[ip := {| count := 1; resetAt := now + RATE_WINDOW |}]> m).
Proof.
  unfold checkRateLimit. intros [-> | (e & -> & Hgt)]; [done|].
  destruct (Z.gtb_spec now (resetAt e)); [done | lia].
Qed.

Lemma checkRateLimit_full m ip now e :
  m !! ip = Some e → now <= resetAt e → count e >= RATE_LIMIT →
  checkRateLimit now ip m = (false, m).
Proof.
  unfold checkRateLimit. intros -> Hle Hc.
  destruct (Z.gtb_spec now (resetAt e)); [lia|].
  destruct (Z.geb_spec (count e) RATE_LIMIT); [done | lia].
Qed.

Lemma checkRateLimit_room m ip now e :
  m !! ip = Some e → now <= resetAt e → count e < RATE_LIMIT →
  checkRateLimit now ip m
  = (true, <[ip := {| count := count e + 1; resetAt := resetAt e |}]> m).
Proof.
  unfold checkRateLimit. intros -> Hle Hc.
  destruct (Z.gtb_spec now (resetAt e)); [lia|].
  destruct (Z.geb_spec (count e) RATE_LIMIT); [lia | done].
Qed.

(** A call for one identity leaves the entries of the others alone. *)
Lemma checkRateLimit_other m ip ip' now :
  ip' ≠ ip → (checkRateLimit now ip' m).2 !! ip = m !! ip.
Proof.
  intros Hne. unfold checkRateLimit.
  destruct (m !! ip') as [e|]; simpl.
  - destruct (now >? resetAt e); simpl; [by rewrite lookup_insert_ne|].
    destruct (count e >=? RATE_LIMIT); simpl; [done | by rewrite lookup_insert_ne].
  - by rewrite lookup_insert_ne.
Qed.

(** Inside a window whose entry holds [c], the [k]-th further call of the
    identity is admitted exactly when [c + k] is below the limit. *)
Lemma serve_in_window ip (rest : list (str * Z)) :
  ∀ m c r,
    m !! ip = Some {| count := c; resetAt := r |} →
    (∀ t, (ip, t) ∈ rest → t <= r) →
    ∀ (k : nat) (b : bool),
      decisions_of ip (serve rest m).1 !! k = Some b →
      b = bool_decide (c + Z.of_nat k < RATE_LIMIT).
Proof.
  induction rest as [|[ip' t] rest IH]; intros m c r Hm Hin k b; [done|].
  simpl.
  destruct (checkRateLimit t ip' m) as [ok m1] eqn:Hc.
  destruct (serve rest m1) as [ds m2] eqn:Hs. simpl.
  assert (Hrest : ∀ t0, (ip, t0) ∈ rest → t0 <= r).
  { intros t0 Ht0. apply Hin. by right. }
  unfold decisions_of. rewrite filter_cons. simpl.
  destruct (decide (ip' = ip)) as [->|Hne].
  - assert (Ht : t <= r) by (apply Hin; left).
    destruct (Z.lt_ge_cases c RATE_LIMIT) as [Hlt|Hge].
    + rewrite (checkRateLimit_room m ip t _ Hm) in Hc by (simpl; lia).
      injection Hc as <- <-. simpl in *.
      destruct k as [|k]; simpl.
      * intros [= <-]. rewrite bool_decide_eq_true_2; [done | lia].
      * intros Hk.
        assert (Hb := IH (<[ip:={| count := c + 1; resetAt := r |}]> m) (c + 1) r
                        (lookup_insert_eq _ _ _) Hrest k b).
        rewrite Hs in Hb. specialize (Hb Hk). subst b.
        apply bool_decide_ext. lia.
    + rewrite (checkRateLimit_full m ip t _ Hm) in Hc by (simpl; lia).
      injection Hc as <- <-.
      destruct k as [|k]; simpl.
      * intros [= <-]. rewrite bool_decide_eq_false_2; [done | lia].
      * intros Hk.
        assert (Hb := IH m c r Hm Hrest k b).
        rewrite Hs in Hb. specialize (Hb Hk). subst b.
        rewrite !bool_decide_eq_false_2; [done | lia | lia].
  - intros Hk.
    assert (Hm1 : m1 !! ip = Some {| count := c; resetAt := r |}).
    { rewrite <- Hm. replace m1 with (checkRateLimit t ip' m).2 by (by rewrite Hc).
      by apply checkRateLimit_other. }
    assert (Hb := IH m1 c r Hm1 Hrest k b).
    rewrite Hs in Hb. by apply Hb.
Qed.

(** Decisions that are positive only below position [n - c] hold at most
    [n - c] admissions. *)
Lemma admissions_bound (bs : list bool) :
  ∀ c n : nat,
    (∀ (k : nat) b, bs !! k = Some b → b = true → (c + k < n)%nat) →
    (count_admissions bs <= n - c)%nat.
Proof.
  unfold count_admissions.
  induction bs as [|b bs IH]; intros c n H; simpl; [lia|].
  rewrite filter_cons.
  assert (Htl : (length (filter (λ b0 : bool, b0 = true) bs) <= n - S c)%nat).
  { apply IH. intros k b' Hk Hb'. specialize (H (S k) b' Hk Hb'). lia. }
  destruct (decide (b = true)) as [->|]; simpl; [|lia].
  specialize (H 0%nat true eq_refl eq_refl). lia.
Qed.

End RateLimiter.

(** C3. Each call of the limiter follows fixed-window counting: when the
    identity has no entry or the clock is past [resetAt], the entry becomes
    (count 1, resetAt now + RATE_WINDOW) and the call is admitted; otherwise,
    when the count has reached RATE_LIMIT, the call is refused and the table
    is left as it was; otherwise the count goes up by one, the window is
    kept, and the call is admitted. *)
Theorem checkRateLimit_fixed_window (m : RateMap) (ip : str) (now : Z) :
  (opens_window m ip now →
   checkRateLimit now ip m
   = (true, <[ip := {| count := 1; resetAt := now + RATE_WINDOW |}]> m))
  ∧ (∀ e, m !! ip = Some e → ¬ now > resetAt e → count e >= RATE_LIMIT →
          checkRateLimit now ip m = (false, m))
  ∧ (∀ e, m !! ip = Some e → ¬ now > resetAt e → ¬ count e >= RATE_LIMIT →
          checkRateLimit now ip m
          = (true, <[ip := {| count := count e + 1; resetAt := resetAt e |}]> m)).
Proof.
  split; [apply checkRateLimit_open|].
  split; intros e He Hnow Hc.
  - apply (checkRateLimit_full m ip now e He); lia.
  - apply (checkRateLimit_room m ip now e He); lia.
Qed.

Lemma checkRateLimit_fixed_window_witness :
  checkRateLimit 5 (lit "10.0.0.7") ∅
  = (true, {[ lit "10.0.0.7" := {| count := 1; resetAt := 60005 |} ]})
  ∧ checkRateLimit 50 (lit "10.0.0.7")
      {[ lit "10.0.0.7" := {| count := 10; resetAt := 100 |} ]}
    = (false, {[ lit "10.0.0.7" := {| count := 10; resetAt := 100 |} ]})
  ∧ checkRateLimit 50 (lit "10.0.0.7")
      {[ lit "10.0.0.7" := {| count := 3; resetAt := 100 |} ]}
    = (true, <[ lit "10.0.0.7" := {| count := 4; resetAt := 100 |} ]>
               {[ lit "10.0.0.7" := {| count := 3; resetAt := 100 |} ]}).
Proof.
  split; [|split].
  - apply (proj1 (checkRateLimit_fixed_window ∅ (lit "10.0.0.7") 5)).
    left. reflexivity.
  - apply (proj1 (proj2 (checkRateLimit_fixed_window
                           {[ lit "10.0.0.7" := {| count := 10; resetAt := 100 |} ]}
                           (lit "10.0.0.7") 50))
             {| count := 10; resetAt := 100 |}).
    + vm_compute. reflexivity.
    + simpl. lia.
    + unfold RATE_LIMIT. simpl. lia.
  - apply (proj2 (proj2 (checkRateLimit_fixed_window
                           {[ lit "10.0.0.7" := {| count := 3; resetAt := 100 |} ]}
                           (lit "10.0.0.7") 50))
             {| count := 3; resetAt := 100 |}).
    + vm_compute. reflexivity.
    + simpl. lia.
    + unfold RATE_LIMIT. simpl. lia.
Defined.

(** C4. From the call that opens a window for an identity, and for as long
    as the calls of that identity fall within RATE_WINDOW of it, the k-th
    call (counting from 0, whatever other identities do in between) is
    admitted exactly when k < RATE_LIMIT: at most RATE_LIMIT calls are
    admitted in the window and the (RATE_LIMIT+1)-th is refused. *)
Theorem window_admits_at_most_limit (m : RateMap) (ip : str) (t0 : Z)
    (rest : list (str * Z)) :
  opens_window m ip t0 →
  Forall (λ q, q.1 = ip → q.2 <= t0 + RATE_WINDOW) rest →
  let bs := decisions_of ip (serve ((ip, t0) :: rest) m).1 in
  (∀ (k : nat) (b : bool), bs !! k = Some b → b = bool_decide (Z.of_nat k < RATE_LIMIT))
  ∧ Z.of_nat (count_admissions bs) <= RATE_LIMIT
  ∧ (∀ b : bool, bs !! Z.to_nat RATE_LIMIT = Some b → b = false).
Proof.
  intros Hopen Hrest bs.
  assert (Hall : ∀ (k : nat) (b : bool),
             bs !! k = Some b → b = bool_decide (Z.of_nat k < RATE_LIMIT)).
  { subst bs. simpl. rewrite (checkRateLimit_open _ _ _ Hopen).
    destruct (serve rest _) as [ds m2] eqn:Hs. simpl.
    unfold decisions_of. rewrite filter_cons. simpl.
    rewrite decide_True by done. simpl.
    intros [|k] b.
    - simpl. intros [= <-]. reflexivity.
    - simpl. intros Hk.
      assert (Hb := serve_in_window ip rest
                      (<[ip:={| count := 1; resetAt := t0 + RATE_WINDOW |}]> m)
                      1 (t0 + RATE_WINDOW) (lookup_insert_eq _ _ _)).
      rewrite Hs in Hb. simpl in Hb.
      rewrite (Hb (λ t Ht, proj1 (Forall_forall _ _) Hrest (ip, t) Ht eq_refl) k b Hk).
      apply bool_decide_ext. lia. }
  split; [exact Hall|]. split.
  - assert (count_admissions bs <= Z.to_nat RATE_LIMIT - 0)%nat; [|unfold RATE_LIMIT in *; lia].
    apply admissions_bound. intros k b Hk ->.
    apply Hall in Hk. symmetry in Hk. apply bool_decide_eq_true_1 in Hk.
    unfold RATE_LIMIT in *. lia.
  - intros b Hb. apply Hall in Hb. subst b.
    apply bool_decide_eq_false_2. unfold RATE_LIMIT. simpl. lia.
Qed.

Lemma window_admits_at_most_limit_witness :
  let bs := decisions_of (lit "10.0.0.7")
              (serve ((lit "10.0.0.7", 0) :: eleven_calls) ∅).1 in
  bs = [true; true; true; true; true; true; true; true; true; true; false]
  ∧ Z.of_nat (count_admissions bs) <= RATE_LIMIT
  ∧ (∀ b : bool, bs !! Z.to_nat RATE_LIMIT = Some b → b = false).
Proof.
  split; [vm_compute; reflexivity|].
  apply (window_admits_at_most_limit ∅ (lit "10.0.0.7") 0 eleven_calls).
  - left. reflexivity.
  - unfold eleven_calls, RATE_WINDOW.
    repeat constructor; simpl; intros _; lia.
Defined.

(** ** Classification client *)

Section Classification.

Implicit Types (messageRaw key : str) (shot reply : option str) (v : json).

Lemma analyzeFeedback_quiet messageRaw shot key reply :
  Forall quiet (analyzeFeedback messageRaw shot key reply).2.
Proof.
  unfold analyzeFeedback.
  destruct (truthy_str key); simpl; [|by repeat constructor].
  destruct reply as [text|]; simpl; [|by repeat constructor].
  destruct (truthy_str text); simpl; [|by repeat constructor].
  destruct (JSON_parse (extract_json text)) as [aiData|]; simpl;
    [|by repeat constructor].
  destruct aiData; simpl; try (by repeat constructor);
    match goal with
    | |- context [invalid_structure ?a] => destruct (invalid_structure a)
    end; simpl; by repeat constructor.
Qed.

(** What is returned passed the validation. *)
Lemma analyzeFeedback_some messageRaw shot key reply v :
  (analyzeFeedback messageRaw shot key reply).1 = Some v →
  ∃ text, reply = Some text
          ∧ JSON_parse (extract_json text) = Some v
          ∧ invalid_structure v = false.
Proof.
  unfold analyzeFeedback.
  destruct (truthy_str key); simpl; [|done].
  destruct reply as [text|]; simpl; [|done].
  destruct (truthy_str text); simpl; [|done].
  destruct (JSON_parse (extract_json text)) as [aiData|] eqn:Hp; simpl; [|done].
  destruct aiData; simpl; try done;
    match goal with
    | |- context [invalid_structure ?a] => destruct (invalid_structure a) eqn:Hinv
    end; simpl; try done; intros [= <-]; eauto.
Qed.

(** The result depends on the key and the reply only. *)
Lemma analyzeFeedback_result messageRaw messageRaw' shot shot' key reply :
  (analyzeFeedback messageRaw shot key reply).1
  = (analyzeFeedback messageRaw' shot' key reply).1.
Proof.
  unfold analyzeFeedback.
  destruct (truthy_str key); simpl; [|done].
  destruct reply as [text|]; simpl; [|done].
  destruct (truthy_str text); simpl; [|done].
  destruct (JSON_parse (extract_json text)) as [aiData|]; simpl; [|done].
  destruct aiData; simpl; try done;
    match goal with
    | |- context [invalid_structure ?a] => destruct (invalid_structure a)
    end; done.
Qed.

(** Every path that gives null ends on a diagnostic log line. *)
Lemma analyzeFeedback_none_logs messageRaw shot key reply :
  (analyzeFeedback messageRaw shot key reply).1 = None →
  ∃ es msg, (analyzeFeedback messageRaw shot key reply).2 = es ++ [Log msg].
Proof.
  unfold analyzeFeedback.
  destruct (truthy_str key); simpl; [|by intros _; eexists [], _].
  destruct reply as [text|]; simpl; [|by intros _; eexists [_], _].
  destruct (truthy_str text); simpl; [|by intros _; eexists [_], _].
  destruct (JSON_parse (extract_json text)) as [aiData|]; simpl;
    [|by intros _; eexists [_], _].
  destruct aiData; simpl; try (by intros _; eexists [_], _);
    match goal with
    | |- context [invalid_structure ?a] => destruct (invalid_structure a)
    end; simpl; try done; by intros _; eexists [_], _.
Qed.

Lemma includes_elem (names : list str) (o : option json) :
  includes names o = true → ∃ s, o = Some (JStr s) ∧ s ∈ names.
Proof.
  destruct o as [[]|]; simpl; try done.
  intros H. eexists; split; [done|].
  apply existsb_exists in H as (x & Hx & Heq).
  unfold str_eqb in Heq. apply bool_decide_eq_true_1 in Heq. subst.
  by apply list_elem_of_In.
Qed.

End Classification.

(** C2, as the code has it. [analyzeFeedback] is a total function: every
    exception raised inside it is caught, and it returns either null, after
    a diagnostic log line, or the parsed reply. A reply that is returned is
    an object whose title,
    short_summary and suggested_feature_area are truthy (present, not
    necessarily strings), whose key_details is an array, whose
    suggested_category is one of bug, feature, question, billing, praise,
    other and whose suggested_priority is one of low, medium, high.
    Nothing is checked of confidence, steps, expected and
    clarifying_questions. *)
Theorem analyzeFeedback_validated (messageRaw : str) (shot : option str)
    (key : str) (reply : option str) :
  match (analyzeFeedback messageRaw shot key reply).1 with
  | None => ∃ es msg, (analyzeFeedback messageRaw shot key reply).2 = es ++ [Log msg]
  | Some v =>
      (∃ members, v = JObj members)
      ∧ truthy (get (lit "title") v) = true
      ∧ truthy (get (lit "short_summary") v) = true
      ∧ truthy (get (lit "suggested_feature_area") v) = true
      ∧ (∃ items, get (lit "key_details") v = Some (JArr items))
      ∧ (∃ c, get (lit "suggested_category") v = Some (JStr c) ∧ c ∈ categories)
      ∧ (∃ p, get (lit "suggested_priority") v = Some (JStr p) ∧ p ∈ priorities)
  end.
Proof.
  destruct (analyzeFeedback messageRaw shot key reply).1 as [v|] eqn:Hv;
    [|by apply analyzeFeedback_none_logs].
  apply analyzeFeedback_some in Hv as (text & _ & _ & Hinv).
  unfold invalid_structure in Hinv.
  repeat (apply orb_false_elim in Hinv as [Hinv ?]).
  repeat match goal with H : negb _ = false |- _ => apply negb_false_iff in H end.
  split.
  { destruct v; simpl in *; try done. eauto. }
  repeat split; try done.
  - destruct (get (lit "key_details") v) as [[]|]; simpl in *; try done. eauto.
  - by apply includes_elem.
  - by apply includes_elem.
Qed.

(** C2, as stated, fails: a reply with a confidence of 7 is returned,
    although the schema of the specification bounds it by 1. *)
Lemma analyzeFeedback_returns_confidence_7 :
  ∃ v, (analyzeFeedback (lit "Export button does nothing") None (lit "key")
          (Some reply_confidence_7)).1 = Some v
       ∧ get (lit "confidence") v = Some (JNum {| neg := false; mant := 7; exp10 := 0 |})
       ∧ spec_schema_ok v = false.
Proof.
  eexists. split; [vm_compute; reflexivity|].
  split; vm_compute; reflexivity.
Qed.

(** ** Fenced replies *)

Section Fences.

Implicit Types (s t body ws : str).

Lemma skip_space_app ws s :
  Forall (λ c, is_space c = true) ws → skip_space (ws ++ s) = skip_space s.
Proof. induction 1 as [|c ws Hc _ IH]; simpl; [done | by rewrite Hc]. Qed.

Lemma skip_space_id c s : is_space c = false → skip_space (c :: s) = c :: s.
Proof. intros H. simpl. by rewrite H. Qed.

Lemma skip_space_all ws :
  Forall (λ c, is_space c = true) ws → skip_space ws = [].
Proof. induction 1 as [|c ws Hc _ IH]; simpl; [done | by rewrite Hc]. Qed.

(** Trimming removes the padding of a text that starts and ends with
    characters that are not whitespace. *)
Lemma trim_padded ws1 ws2 a b body :
  Forall (λ c, is_space c = true) ws1 →
  Forall (λ c, is_space c = true) ws2 →
  is_space a = false → is_space b = false →
  trim (ws1 ++ a :: body ++ b :: ws2) = a :: body ++ [b].
Proof.
  intros H1 H2 Ha Hb. unfold trim.
  rewrite skip_space_app, skip_space_id by done.
  replace (a :: body ++ b :: ws2) with ((a :: body) ++ b :: ws2) by done.
  rewrite rev_app_distr. simpl rev at 1.
  rewrite <- !app_assoc. rewrite skip_space_app.
  - simpl. rewrite Hb. replace (b :: rev body ++ [a]) with (rev (a :: body ++ [b])).
    + apply rev_involutive.
    + simpl. rewrite rev_app_distr. done.
  - apply Forall_forall. intros x Hx. rewrite Forall_forall in H2.
    apply H2. apply list_elem_of_In. apply in_rev. by apply list_elem_of_In.
Qed.

Lemma body_end_last body t :
  body_end t = None → closes t = true →
  body_end (body ++ 125%N :: t) = Some (body ++ [125%N]).
Proof.
  intros Hn Hc. induction body as [|c body IH]; simpl.
  - by rewrite Hn, Hc.
  - by rewrite IH.
Qed.

Lemma body_end_padding ws :
  Forall (λ c, is_space c = true) ws → body_end (ws ++ fence) = None.
Proof.
  induction 1 as [|c ws Hc _ IH]; [done|].
  simpl. rewrite IH.
  destruct (N.eqb_spec c 125) as [->|]; [done | done].
Qed.

Lemma closes_padding ws :
  Forall (λ c, is_space c = true) ws → closes (ws ++ fence) = true.
Proof. intros H. unfold closes. by rewrite skip_space_app. Qed.

Lemma block_here_fenced ws1 ws2 body :
  Forall (λ c, is_space c = true) ws1 →
  Forall (λ c, is_space c = true) ws2 →
  block_here (ws1 ++ (123%N :: body ++ [125%N]) ++ ws2 ++ fence)
  = Some (123%N :: body ++ [125%N]).
Proof.
  intros H1 H2. unfold block_here.
  rewrite skip_space_app by done. simpl.
  rewrite <- app_assoc. simpl.
  by rewrite body_end_last by auto using body_end_padding, closes_padding.
Qed.

(** Without the tag, the optional [json] of the pattern matches nothing:
    padding or the brace comes first. *)
Lemma strip_json_padding ws s :
  Forall (λ c, is_space c = true) ws →
  strip_prefix (lit "json") (ws ++ 123%N :: s) = None.
Proof.
  intros H. destruct H as [|c ws Hc _]; [reflexivity|].
  change (lit "json") with (106%N :: lit "son"). cbn [app strip_prefix].
  destruct (N.eqb_spec 106 c) as [<-|]; [discriminate | reflexivity].
Qed.

(** A text without three backticks in a row holds no fenced block. *)
Lemma fenced_block_none s : has_fence s = false → fenced_block s = None.
Proof.
  induction s as [|c s IH]; intros H; [reflexivity|].
  change (has_fence (c :: s))
    with (match strip_prefix fence (c :: s) with
          | Some _ => true
          | None => has_fence s
          end) in H.
  change (fenced_block (c :: s))
    with (match match_here (c :: s) with
          | Some g => Some g
          | None => fenced_block s
          end).
  unfold match_here.
  destruct (strip_prefix fence (c :: s)); [done|]. auto.
Qed.

(** In a fenced reply the pattern matches at the first character, and
    captures the object. *)
Lemma fenced_block_fenced tagged ws1 ws2 body :
  Forall (λ c, is_space c = true) ws1 →
  Forall (λ c, is_space c = true) ws2 →
  fenced_block (fenced tagged ws1 (123%N :: body ++ [125%N]) ws2)
  = Some (123%N :: body ++ [125%N]).
Proof.
  intros H1 H2.
  assert (Hm : match_here (fenced tagged ws1 (123%N :: body ++ [125%N]) ws2)
               = Some (123%N :: body ++ [125%N])).
  { unfold match_here, fenced. destruct tagged.
    - change (strip_prefix fence (fence ++ lit "json" ++ ?x)) with (Some (lit "json" ++ x)).
      cbv beta iota.
      change (strip_prefix (lit "json") (lit "json" ++ ?x)) with (Some x).
      cbv beta iota. by rewrite block_here_fenced.
    - change (strip_prefix fence (fence ++ [] ++ ?x)) with (Some x).
      cbv beta iota. rewrite block_here_fenced by done.
      change ((123%N :: body ++ [125%N]) ++ ws2 ++ fence)
        with (123%N :: (body ++ [125%N]) ++ ws2 ++ fence).
      by rewrite strip_json_padding. }
  unfold fenced in *. simpl in *. by rewrite Hm.
Qed.

End Fences.

(** ** What [JSON.parse] consumes *)

Section ParserShape.

Implicit Types (s r : str).

Lemma skip_ws_split s :
  ∃ w, Forall (λ c, is_ws c = true) w ∧ s = w ++ Json.skip_ws s.
Proof.
  induction s as [|c s (w & Hw & IH)]; [by exists []|].
  simpl. destruct (is_ws c) eqn:Hc.
  - exists (c :: w). split; [by constructor | simpl; congruence].
  - by exists [].
Qed.

Lemma skip_ws_suffix s : Json.skip_ws s `suffix_of` s.
Proof. destruct (skip_ws_split s) as (w & _ & H). by exists w. Qed.

Lemma strip_prefix_suffix p s r : strip_prefix p s = Some r → r `suffix_of` s.
Proof.
  revert s. induction p as [|a p IH]; intros [|b s]; simpl; try done.
  - by intros [= <-].
  - by intros [= <-].
  - destruct (N.eqb a b); [|done]. intros H. by apply suffix_cons_r, IH.
Qed.

Lemma parse_chars_suffix s : ∀ cs r, parse_chars s = Some (cs, r) → r `suffix_of` s.
Proof.
  induction s as [s IH] using (induction_ltof1 _ (@length N)).
  unfold ltof in IH. intros cs r.
  destruct s as [|c s]; [done|]. simpl.
  destruct (N.eqb c 34).
  { intros [= <- <-]. by apply suffix_cons_r. }
  destruct (N.eqb c 92).
  - destruct s as [|e s1]; [done|].
    destruct (N.eqb e 117).
    + destruct s1 as [|a [|b [|x [|d s2]]]]; try done.
      destruct (hex4 a b x d); [|done].
      destruct (parse_chars s2) as [[cs' r']|] eqn:Hp; [|done].
      intros [= <- <-]. apply IH in Hp; [|simpl; lia].
      by do 6 apply suffix_cons_r.
    + destruct (simple_escape e); [|done].
      destruct (parse_chars s1) as [[cs' r']|] eqn:Hp; [|done].
      intros [= <- <-]. apply IH in Hp; [|simpl; lia].
      by do 2 apply suffix_cons_r.
  - destruct (N.ltb c 32); [done|].
    destruct (parse_chars s) as [[cs' r']|] eqn:Hp; [|done].
    intros [= <- <-]. apply IH in Hp; [|simpl; lia].
    by apply suffix_cons_r.
Qed.

Lemma take_digits_suffix s : (take_digits s).2 `suffix_of` s.
Proof.
  induction s as [|c s IH]; simpl; [done|].
  destruct (is_digit c); [|done].
  destruct (take_digits s). simpl in *. by apply suffix_cons_r.
Qed.

Lemma parse_number_suffix s n r : parse_number s = Some (n, r) → r `suffix_of` s.
Proof.
  unfold parse_number.
  set (p := match s with
            | c :: r0 => if N.eqb c 45 then (true, r0) else (false, s)
            | [] => (false, s)
            end).
  assert (Hp : p.2 `suffix_of` s).
  { subst p. destruct s as [|c s]; [done|].
    destruct (N.eqb c 45); simpl; [by apply suffix_cons_r | done]. }
  destruct p as [ng s1]. simpl in Hp.
  destruct (parse_int s1) as [[ip s2]|] eqn:Hi; [|done].
  destruct (parse_frac s2) as [[fp s3]|] eqn:Hf; [|done].
  destruct (parse_exp s3) as [[e s4]|] eqn:He; [|done].
  intros [= <- <-].
  assert (H2 : s2 `suffix_of` s1).
  { unfold parse_int in Hi. destruct s1 as [|c s1]; [done|].
    destruct (N.eqb c 48); [injection Hi as <- <-; by apply suffix_cons_r|].
    destruct (is_digit c); [|done].
    pose proof (take_digits_suffix s1) as Ht.
    destruct (take_digits s1). injection Hi as <- <-. by apply suffix_cons_r. }
  assert (H3 : s3 `suffix_of` s2).
  { unfold parse_frac in Hf. destruct s2 as [|c s2]; [by injection Hf as <- <-|].
    destruct (N.eqb c 46); [|by injection Hf as <- <-].
    pose proof (take_digits_suffix s2) as Ht.
    destruct (take_digits s2) as [[|d ds] rest]; [done|].
    injection Hf as <- <-. by apply suffix_cons_r. }
  assert (H4 : s4 `suffix_of` s3).
  { unfold parse_exp in He. destruct s3 as [|c s3]; [by injection He as <- <-|].
    destruct (N.eqb c 101 || N.eqb c 69)%bool; [|by injection He as <- <-].
    set (q := match s3 with
              | x :: r' =>
                  if N.eqb x 45 then (-1, r')
                  else if N.eqb x 43 then (1, r') else (1, s3)
              | [] => (1, s3)
              end) in He.
    assert (Hq : q.2 `suffix_of` s3).
    { subst q. destruct s3 as [|x s3]; [done|].
      destruct (N.eqb x 45); simpl; [by apply suffix_cons_r|].
      destruct (N.eqb x 43); simpl; [by apply suffix_cons_r | done]. }
    destruct q as [sgn r1]. simpl in Hq.
    pose proof (take_digits_suffix r1) as Ht.
    destruct (take_digits r1) as [[|d ds] rest]; [done|].
    injection He as <- <-. apply suffix_cons_r. by etrans. }
  by repeat (etrans; [eassumption|]).
Qed.

(** A value is parsed off the head of the text; an object runs from its
    opening brace through a closing brace. *)
Lemma parse_consumes (fuel : nat) :
  (∀ s v r, parse_value fuel s = Some (v, r) →
            r `suffix_of` s
            ∧ ∀ members, v = JObj members → ∃ body, s = 123%N :: body ++ 125%N :: r)
  ∧ (∀ s members r, parse_members fuel s = Some (members, r) →
                    ∃ p, s = p ++ 125%N :: r)
  ∧ (∀ s items r, parse_elements fuel s = Some (items, r) → r `suffix_of` s).
Proof.
  induction fuel as [|f (IHv & IHm & IHe)]; [by repeat split|].
  split; [|split].
  - intros [|c r0] v r; [done|]. cbn [parse_value].
    destruct (N.eqb_spec c 123) as [->|_].
    { destruct (skip_ws_split r0) as (w & _ & Hw).
      destruct (Json.skip_ws r0) as [|d r1]; [done|].
      destruct (N.eqb_spec d 125) as [->|_].
      - intros [= <- <-]. split.
        + exists (123%N :: w ++ [125%N]). rewrite Hw. by_assoc.
        + intros _ _. exists w. by rewrite Hw.
      - destruct (parse_members f (d :: r1)) as [[kvs rest]|] eqn:Hm; [|done].
        intros [= <- <-]. apply IHm in Hm as (p & Hp). split.
        + exists (123%N :: w ++ p ++ [125%N]). rewrite Hw, Hp. by_assoc.
        + intros _ _. exists (w ++ p). rewrite Hw, Hp. by_assoc. }
    destruct (N.eqb_spec c 91) as [->|_].
    { destruct (skip_ws_split r0) as (w & _ & Hw).
      destruct (Json.skip_ws r0) as [|d r1]; [done|].
      destruct (N.eqb_spec d 93) as [->|_].
      - intros [= <- <-]. split; [|done].
        exists (91%N :: w ++ [93%N]). rewrite Hw. by_assoc.
      - destruct (parse_elements f (d :: r1)) as [[vs rest]|] eqn:He; [|done].
        intros [= <- <-]. apply IHe in He as (p & Hp). split; [|done].
        exists (91%N :: w ++ p). rewrite Hw, Hp. by_assoc. }
    destruct (N.eqb c 34).
    { destruct (parse_chars r0) as [[cs rest]|] eqn:Hc; [|done].
      intros [= <- <-]. split; [|done].
      by apply suffix_cons_r, (parse_chars_suffix r0 cs). }
    destruct (N.eqb c 116).
    { destruct (strip_prefix (lit "true") (c :: r0)) as [rest|] eqn:Hs; [|done].
      intros [= <- <-]. split; [|done]. by apply (strip_prefix_suffix _ _ _ Hs). }
    destruct (N.eqb c 102).
    { destruct (strip_prefix (lit "false") (c :: r0)) as [rest|] eqn:Hs; [|done].
      intros [= <- <-]. split; [|done]. by apply (strip_prefix_suffix _ _ _ Hs). }
    destruct (N.eqb c 110).
    { destruct (strip_prefix (lit "null") (c :: r0)) as [rest|] eqn:Hs; [|done].
      intros [= <- <-]. split; [|done]. by apply (strip_prefix_suffix _ _ _ Hs). }
    destruct (parse_number (c :: r0)) as [[n rest]|] eqn:Hn; [|done].
    intros [= <- <-]. split; [|done]. by apply (parse_number_suffix _ _ _ Hn).
  - intros [|q r0] members r; [done|]. cbn [parse_members].
    destruct (N.eqb q 34); [|done].
    destruct (parse_chars r0) as [[k r1]|] eqn:Hc; [|done].
    apply parse_chars_suffix in Hc as (p1 & ->).
    destruct (skip_ws_split r1) as (w1 & _ & Hw1).
    destruct (Json.skip_ws r1) as [|colon r2]; [done|].
    destruct (N.eqb colon 58); [|done].
    destruct (skip_ws_suffix r2) as (w2 & Hw2).
    destruct (parse_value f (Json.skip_ws r2)) as [[v r3]|] eqn:Hv; [|done].
    apply IHv in Hv as [(p3 & Hp3) _].
    destruct (skip_ws_split r3) as (w3 & _ & Hw3).
    destruct (Json.skip_ws r3) as [|x r4]; [done|].
    assert (Hall : ∃ p, q :: p1 ++ r1 = p ++ x :: r4).
    { exists (q :: p1 ++ w1 ++ colon :: w2 ++ p3 ++ w3).
      rewrite Hw1, Hw2, Hp3, Hw3. by_assoc. }
    destruct Hall as (p & Hp).
    destruct (N.eqb_spec x 125) as [->|_].
    { intros [= <- <-]. by exists p. }
    destruct (N.eqb x 44); [|done].
    destruct (skip_ws_suffix r4) as (w4 & Hw4).
    destruct (parse_members f (Json.skip_ws r4)) as [[kvs rest]|] eqn:Hm; [|done].
    intros [= <- <-]. apply IHm in Hm as (p5 & Hp5).
    exists (p ++ x :: w4 ++ p5). rewrite Hp, Hw4, Hp5. by_assoc.
  - intros s items r. cbn [parse_elements].
    destruct (parse_value f s) as [[v r1]|] eqn:Hv; [|done].
    apply IHv in Hv as [Hs1 _].
    pose proof (skip_ws_suffix r1) as Hs2.
    destruct (Json.skip_ws r1) as [|x r2]; [done|].
    assert (Hs3 : r2 `suffix_of` s).
    { etrans; [|exact Hs1]. etrans; [|exact Hs2]. by apply suffix_cons_r. }
    destruct (N.eqb x 93); [by intros [= <- <-]|].
    destruct (N.eqb x 44); [|done].
    pose proof (skip_ws_suffix r2) as Hs4.
    destruct (parse_elements f (Json.skip_ws r2)) as [[vs rest]|] eqn:He; [|done].
    intros [= <- <-]. apply IHe in He.
    etrans; [exact He|]. by etrans.
Qed.

Lemma is_ws_space (w : str) :
  Forall (λ c, is_ws c = true) w → Forall (λ c, is_space c = true) w.
Proof.
  intros H. eapply Forall_impl; [exact H|]. clear. intros c. unfold is_ws, is_space.
  destruct (N.eqb_spec c 32) as [->|]; [done|].
  destruct (N.eqb_spec c 9) as [->|]; [done|].
  destruct (N.eqb_spec c 10) as [->|]; [done|].
  destruct (N.eqb_spec c 13) as [->|]; done.
Qed.

(** A text that [JSON.parse] reads as an object is an opening brace, a
    body and a closing brace, with whitespace around them at most. *)
Lemma object_text_shape (text : str) (members : list (str * json)) :
  JSON_parse text = Some (JObj members) →
  ∃ w1 body w2,
    text = w1 ++ 123%N :: body ++ 125%N :: w2
    ∧ Forall (λ c, is_space c = true) w1
    ∧ Forall (λ c, is_space c = true) w2.
Proof.
  unfold JSON_parse.
  destruct (skip_ws_split text) as (w1 & Hw1 & Ht).
  destruct (parse_value _ (Json.skip_ws text)) as [[v rest]|] eqn:Hv; [|done].
  destruct (skip_ws_split rest) as (w2 & Hw2 & Hr).
  destruct (Json.skip_ws rest); [|done].
  intros [= ->].
  apply parse_consumes in Hv as [_ Hshape].
  destruct (Hshape members eq_refl) as (body & Hbody).
  exists w1, body, w2. rewrite app_nil_r in Hr. subst rest.
  split; [by rewrite Ht at 1; rewrite Hbody | auto using is_ws_space].
Qed.

End ParserShape.

(** ** The fuel of [JSON_parse] *)

(** Length facts about what the parsers leave. *)
Ltac lengths f :=
  repeat match goal with
    | E : Json.skip_ws ?a = ?b |- _ =>
        lazymatch goal with
        | _ : (length b ≤ length a)%nat |- _ => fail
        | _ => let H := fresh in
               pose proof (suffix_length _ _ (skip_ws_suffix a)) as H;
               rewrite E in H
        end
    | _ : context [Json.skip_ws ?a] |- _ =>
        lazymatch goal with
        | _ : (length (Json.skip_ws a) ≤ length a)%nat |- _ => fail
        | _ => pose proof (suffix_length _ _ (skip_ws_suffix a))
        end
    | E : parse_chars ?a = Some (_, ?b) |- _ =>
        lazymatch goal with
        | _ : (length b ≤ length a)%nat |- _ => fail
        | _ => pose proof (suffix_length _ _ (parse_chars_suffix a _ _ E))
        end
    | E : parse_value f ?a = Some (_, ?b) |- _ =>
        lazymatch goal with
        | _ : (length b ≤ length a)%nat |- _ => fail
        | _ => pose proof (suffix_length _ _ (proj1 (proj1 (parse_consumes f) a _ _ E)))
        end
    | E : parse_elements f ?a = Some (_, ?b) |- _ =>
        lazymatch goal with
        | _ : (length b ≤ length a)%nat |- _ => fail
        | _ => pose proof (suffix_length _ _ (proj2 (proj2 (parse_consumes f)) a _ _ E))
        end
    | E : parse_members f ?a = Some (_, ?b) |- _ =>
        lazymatch goal with
        | _ : (length b < length a)%nat |- _ => fail
        | _ => let p := fresh in let Hp := fresh in let H := fresh in
               destruct (proj1 (proj2 (parse_consumes f)) a _ _ E) as (p & Hp);
               assert (H : (length b < length a)%nat)
                 by (rewrite Hp, length_app; simpl; lia);
               clear p Hp
        end
    end;
  simpl length in *.

Section ParserFuel.

#[local] Open Scope nat_scope.

(** More fuel changes no result. *)
Lemma parse_fuel_step (f : nat) :
  (∀ s x, parse_value f s = Some x → parse_value (S f) s = Some x)
  ∧ (∀ s x, parse_members f s = Some x → parse_members (S f) s = Some x)
  ∧ (∀ s x, parse_elements f s = Some x → parse_elements (S f) s = Some x).
Proof.
  induction f as [|f (IHv & IHm & IHe)]; [done|].
  remember (S f) as g eqn:Hg.
  split; [|split]; intros s x H; rewrite Hg in H.
  - cbn [parse_value] in H |- *.
    repeat (case_match; simplify_eq; try done);
      repeat match goal with
             | E : parse_members f _ = Some _ |- _ => apply IHm in E
             | E : parse_elements f _ = Some _ |- _ => apply IHe in E
             | E : parse_value f _ = Some _ |- _ => apply IHv in E
             end; congruence.
  - cbn [parse_members] in H |- *.
    repeat (case_match; simplify_eq; try done);
      repeat match goal with
             | E : parse_members f _ = Some _ |- _ => apply IHm in E
             | E : parse_elements f _ = Some _ |- _ => apply IHe in E
             | E : parse_value f _ = Some _ |- _ => apply IHv in E
             end; congruence.
  - cbn [parse_elements] in H |- *.
    repeat (case_match; simplify_eq; try done);
      repeat match goal with
             | E : parse_members f _ = Some _ |- _ => apply IHm in E
             | E : parse_elements f _ = Some _ |- _ => apply IHe in E
             | E : parse_value f _ = Some _ |- _ => apply IHv in E
             end; congruence.
Qed.

Lemma parse_fuel_mono (f f' : nat) :
  f ≤ f' →
  (∀ s x, parse_value f s = Some x → parse_value f' s = Some x)
  ∧ (∀ s x, parse_members f s = Some x → parse_members f' s = Some x)
  ∧ (∀ s x, parse_elements f s = Some x → parse_elements f' s = Some x).
Proof.
  induction 1 as [|f' _ (IHv & IHm & IHe)]; [done|].
  destruct (parse_fuel_step f') as (Sv & Sm & Se).
  repeat split; eauto.
Qed.

(** A parse that succeeds needs no more fuel than twice the characters it
    consumes, plus one. *)
Lemma parse_fuel_enough (f : nat) :
  (∀ s v r, parse_value f s = Some (v, r) →
            parse_value (2 * (length s - length r) + 1) s = Some (v, r))
  ∧ (∀ s kvs r, parse_members f s = Some (kvs, r) →
                parse_members (2 * (length s - length r) + 1) s = Some (kvs, r))
  ∧ (∀ s vs r, parse_elements f s = Some (vs, r) →
               parse_elements (2 * (length s - length r) + 1) s = Some (vs, r)).
Proof.
  induction f as [|f (IHv & IHm & IHe)]; [done|].
  assert (Lv : ∀ g s v r, parse_value f s = Some (v, r) →
                 2 * (length s - length r) + 1 ≤ g → parse_value g s = Some (v, r)).
  { intros g s v r E Hg. apply IHv in E. by apply (parse_fuel_mono _ g Hg). }
  assert (Lm : ∀ g s v r, parse_members f s = Some (v, r) →
                 2 * (length s - length r) + 1 ≤ g → parse_members g s = Some (v, r)).
  { intros g s v r E Hg. apply IHm in E. by apply (parse_fuel_mono _ g Hg). }
  assert (Le : ∀ g s v r, parse_elements f s = Some (v, r) →
                 2 * (length s - length r) + 1 ≤ g → parse_elements g s = Some (v, r)).
  { intros g s v r E Hg. apply IHe in E. by apply (parse_fuel_mono _ g Hg). }
  clear IHv IHm IHe.
  split; [|split]; intros s v r H.
  - rewrite Nat.add_1_r. set (g := 2 * (length s - length r)).
    cbn [parse_value] in H |- *.
    repeat (case_match; simplify_eq; try done); lengths f;
      repeat match goal with
             | E : parse_members f _ = Some _ |- _ => apply (Lm g) in E; [|subst g; simpl length; lia]
             | E : parse_elements f _ = Some _ |- _ => apply (Le g) in E; [|subst g; simpl length; lia]
             | E : parse_value f _ = Some _ |- _ => apply (Lv g) in E; [|subst g; simpl length; lia]
             end; congruence.
  - rewrite Nat.add_1_r. set (g := 2 * (length s - length r)).
    cbn [parse_members] in H |- *.
    repeat (case_match; simplify_eq; try done); lengths f;
      repeat match goal with
             | E : parse_members f _ = Some _ |- _ => apply (Lm g) in E; [|subst g; simpl length; lia]
             | E : parse_elements f _ = Some _ |- _ => apply (Le g) in E; [|subst g; simpl length; lia]
             | E : parse_value f _ = Some _ |- _ => apply (Lv g) in E; [|subst g; simpl length; lia]
             end; congruence.
  - rewrite Nat.add_1_r. set (g := 2 * (length s - length r)).
    cbn [parse_elements] in H |- *.
    repeat (case_match; simplify_eq; try done); lengths f;
      repeat match goal with
             | E : parse_members f _ = Some _ |- _ => apply (Lm g) in E; [|subst g; simpl length; lia]
             | E : parse_elements f _ = Some _ |- _ => apply (Le g) in E; [|subst g; simpl length; lia]
             | E : parse_value f _ = Some _ |- _ => apply (Lv g) in E; [|subst g; simpl length; lia]
             end; congruence.
Qed.

(** The fuel [JSON_parse] gives is enough: a text that some amount of fuel
    parses is parsed. *)
Lemma JSON_parse_enough (text : str) (f : nat) (v : json) (rest : str) :
  parse_value f (Json.skip_ws text) = Some (v, rest) →
  Json.skip_ws rest = [] →
  JSON_parse text = Some v.
Proof.
  intros Hv Hrest. unfold JSON_parse.
  pose proof (suffix_length _ _ (skip_ws_suffix text)) as Hlen.
  apply parse_fuel_enough in Hv.
  assert (Hle : 2 * (length (Json.skip_ws text) - length rest) + 1
                ≤ 2 * length text + 2) by lia.
  apply (proj1 (parse_fuel_mono _ _ Hle)) in Hv.
  by rewrite Hv, Hrest.
Qed.

End ParserFuel.

Section FencedReplies.

Implicit Types (s t j ws : str).

Lemma has_fence_cons c s : has_fence s = true → has_fence (c :: s) = true.
Proof.
  intros H.
  change (has_fence (c :: s))
    with (match strip_prefix fence (c :: s) with
          | Some _ => true
          | None => has_fence s
          end).
  by destruct (strip_prefix fence (c :: s)).
Qed.

Lemma strip_prefix_app p s t r :
  strip_prefix p s = Some r → strip_prefix p (s ++ t) = Some (r ++ t).
Proof.
  revert s. induction p as [|a p IH]; intros [|b s]; simpl; try done.
  - by intros [= <-].
  - by intros [= <-].
  - destruct (N.eqb a b); [apply IH | done].
Qed.

Lemma has_fence_app_r s t : has_fence s = true → has_fence (s ++ t) = true.
Proof.
  induction s as [|c s IH]; [done|]. intros H.
  change (has_fence (c :: s))
    with (match strip_prefix fence (c :: s) with
          | Some _ => true
          | None => has_fence s
          end) in H.
  change (has_fence ((c :: s) ++ t))
    with (match strip_prefix fence ((c :: s) ++ t) with
          | Some _ => true
          | None => has_fence (s ++ t)
          end).
  destruct (strip_prefix fence (c :: s)) as [r|] eqn:Hs.
  - by rewrite (strip_prefix_app _ _ t _ Hs).
  - destruct (strip_prefix fence ((c :: s) ++ t)); auto.
Qed.

Lemma has_fence_app_l s t : has_fence t = true → has_fence (s ++ t) = true.
Proof. induction s; simpl app; auto using has_fence_cons. Qed.

Lemma has_fence_inside s j t : has_fence (s ++ j ++ t) = false → has_fence j = false.
Proof.
  intros H. destruct (has_fence j) eqn:Hj; [|done].
  by rewrite has_fence_app_l in H by by apply has_fence_app_r.
Qed.

(** A fenced reply starts and ends with a backtick: trimming keeps it. *)
Lemma trim_fenced (tagged : bool) ws1 j ws2 :
  trim (fenced tagged ws1 j ws2) = fenced tagged ws1 j ws2.
Proof.
  set (s := (if tagged then lit "json" else []) ++ ws1 ++ j ++ ws2).
  pose proof (trim_padded [] [] 96 96 ([96; 96]%N ++ s ++ [96; 96]%N)) as H.
  replace (fenced tagged ws1 j ws2)
    with ([] ++ 96%N :: ([96; 96]%N ++ s ++ [96; 96]%N) ++ [96%N]).
  - rewrite H by done. by_assoc.
  - subst s. unfold fenced, fence. by_assoc.
Qed.

(** A reply that [JSON.parse] reads as an object and that holds no three
    backticks in a row is handed to the parser as the same text, trimmed,
    whether it comes bare or inside a fenced block. *)
Lemma fenced_reply_same_as_bare (tagged : bool) ws1 ws2 j
    (members : list (str * json)) :
  JSON_parse j = Some (JObj members) →
  has_fence j = false →
  Forall (λ c, is_space c = true) ws1 →
  Forall (λ c, is_space c = true) ws2 →
  extract_json (fenced tagged ws1 j ws2) = trim j
  ∧ extract_json j = trim j.
Proof.
  intros Hj Hf H1 H2.
  apply object_text_shape in Hj as (w1 & body & w2 & -> & Hw1 & Hw2).
  assert (Ht : trim (w1 ++ 123%N :: body ++ 125%N :: w2) = 123%N :: body ++ [125%N])
    by by apply trim_padded.
  assert (Hf0 : has_fence (123%N :: body ++ [125%N]) = false).
  { apply (has_fence_inside w1 _ w2).
    rewrite <- Hf. f_equal. by_assoc. }
  split.
  - unfold extract_json.
    replace (fenced tagged ws1 (w1 ++ 123%N :: body ++ 125%N :: w2) ws2)
      with (fenced tagged (ws1 ++ w1) (123%N :: body ++ [125%N]) (w2 ++ ws2))
      by (unfold fenced; destruct tagged; by_assoc).
    rewrite trim_fenced.
    rewrite fenced_block_fenced by (by apply Forall_app).
    by rewrite Ht.
  - unfold extract_json. rewrite Ht. by rewrite fenced_block_none.
Qed.

End FencedReplies.

(** C7, at a reply the code mishandles. [reply_quoting_fence] is a
    well-formed classification whose title quotes a fenced snippet. Inside
    a fenced block it is extracted whole and returned; bare, the pattern
    matches inside the title, only the braces of the snippet reach
    [JSON.parse], and the classification is lost. *)
Theorem bare_reply_quoting_fence_is_lost :
  (∃ v, JSON_parse reply_quoting_fence = Some v
        ∧ invalid_structure v = false
        ∧ (analyzeFeedback (lit "Editor breaks") None (lit "key")
             (Some (fenced true [10%N] reply_quoting_fence [10%N]))).1 = Some v)
  ∧ extract_json (fenced true [10%N] reply_quoting_fence [10%N]) = reply_quoting_fence
  ∧ extract_json reply_quoting_fence = jq "{}"
  ∧ (analyzeFeedback (lit "Editor breaks") None (lit "key")
       (Some reply_quoting_fence)).1 = None.
Proof.
  split; [eexists; split; [vm_compute; reflexivity|]; split; vm_compute; reflexivity|].
  split; [vm_compute; reflexivity|].
  split; vm_compute; reflexivity.
Qed.

(** ** The handler *)

#[local] Opaque lit.

Section Handler.

Variables (w : World) (request : Request) (m : RateMap).

Let ip := client_ip (headers request).
Let pageUrl :=
  or_lit (or_else (x_page_url (headers request)) (referer (headers request)))
         (lit "unknown").

(** The table after a request is the table after the limiter's call,
    whatever happens next. *)
Lemma POST_rate_table :
  (POST w request m).2 = (checkRateLimit (clock w) ip m).2.
Proof. unfold POST. fold ip. by destruct (checkRateLimit (clock w) ip m). Qed.

Lemma POST_limited :
  (checkRateLimit (clock w) ip m).1 = false →
  (POST w request m).1
  = ({| status := 429; body := error_body (lit "Too many requests") |}, []).
Proof.
  unfold POST. fold ip. destruct (checkRateLimit (clock w) ip m) as [ok m'].
  simpl. by intros ->.
Qed.

Lemma trim_nonempty s : trim s ≠ [] → truthy_str s = true.
Proof. destruct s; [by intros [] | done]. Qed.

Lemma truthy_nonempty s : s ≠ [] → truthy_str s = true.
Proof. by destruct s. Qed.

Lemma truthy_empty s : s = [] → truthy_str s = false.
Proof. by intros ->. Qed.

Lemma POST_bot form s :
  (checkRateLimit (clock w) ip m).1 = true →
  formData request = Some form →
  website form = Some (FText s) →
  trim s ≠ [] →
  (POST w request m).1
  = ({| status := 200;
        body := JObj [(lit "id", JStr (lit "fake-id"));
                      (lit "message", JStr (lit "Feedback sent"))] |},
     [Log (lit "[Feedback] Bot detected via honeypot")]).
Proof.
  unfold POST. fold ip. destruct (checkRateLimit (clock w) ip m) as [ok m'].
  simpl. intros -> ->. run. intros -> Hs.
  rewrite (trim_nonempty s Hs), (truthy_nonempty _ Hs). reflexivity.
Qed.

Lemma POST_blank form :
  (checkRateLimit (clock w) ip m).1 = true →
  formData request = Some form →
  honeypot_clear (website form) →
  blank_message (message form) →
  (POST w request m).1
  = ({| status := 400; body := error_body (lit "Message is required") |}, []).
Proof.
  unfold POST. fold ip. destruct (checkRateLimit (clock w) ip m) as [ok m'].
  simpl. intros -> -> Hbot Hmsg. run.
  destruct (message form) as [[s|]|]; simpl in Hmsg; try done;
    pass_honeypot Hbot; by rewrite ?Hmsg.
Qed.

(** The outcome of a request that reaches the insertion, from what the
    screenshot block and the classification block gave. *)
Lemma POST_accepted form s url b64 es1 aiData es2 :
  reaches_storage w request m form s →
  handle_screenshot w (screenshot form) = (Next (url, b64), es1) →
  classify w s b64 = (Next aiData, es2) →
  (POST w request m).1
  = let row :=
      {| page_url := pageUrl;
         user_agent := or_else (h_user_agent (headers request)) None;
         message_raw := s;
         screenshot_url := url;
         ai_data := aiData;
         project_id :=
           match project form with
           | Some (FText p) => if truthy_str p then Some (FText p) else None
           | other => other
           end;
         row_status := lit "new" |} in
    match error (insert_answer w), data (insert_answer w) with
    | Some _, _ =>
        ({| status := 500; body := error_body (lit "Failed to save feedback") |},
         es1 ++ es2 ++ [InsertRow (lit "feedback") row;
                        Log (lit "[Feedback] Database error:")])
    | None, None =>
        ({| status := 500; body := error_body (lit "Internal server error") |},
         es1 ++ es2 ++ [InsertRow (lit "feedback") row; Log (lit "[Feedback] Error:")])
    | None, Some id =>
        ({| status := 200;
            body := JObj [(lit "id", JStr id);
                          (lit "ai_data", json_of_option aiData);
                          (lit "message", JStr (lit "Feedback received"))] |},
         es1 ++ es2 ++ [InsertRow (lit "feedback") row;
                        Notify {| n_id := id; n_message_raw := s;
                                  n_page_url := pageUrl; n_ai_data := aiData |}])
    end.
Proof.
  intros (Hok & Hform & Hbot & Hmsg & Hs) Hshot Hai.
  unfold POST. fold ip. fold pageUrl.
  fold ip in Hok. destruct (checkRateLimit (clock w) ip m) as [ok m'].
  simpl in Hok. subst ok. rewrite Hform. run.
  rewrite Hmsg, (truthy_nonempty _ Hs), Hshot. simpl. rewrite Hai.
  pass_honeypot Hbot;
    destruct (error (insert_answer w)), (data (insert_answer w)); simpl;
    rewrite <- ?app_assoc; reflexivity.
Qed.

End Handler.

Section Stages.

Variable w : World.

Lemma handle_screenshot_file name type buffer :
  buffer ≠ [] →
  handle_screenshot w (Some (FFile name type buffer))
  = (Next (match error (upload_answer w), data (upload_answer w) with
           | None, Some _ => Some (publicUrl w (upload_name w))
           | _, _ => None
           end,
           Some (lit "data:image/png;base64," ++ base64 buffer)),
     [Upload (lit "feedback") (upload_name w) buffer (lit "image/png") (lit "3600")]).
Proof.
  intros Hb. unfold handle_screenshot.
  destruct buffer as [|b buffer]; [done|]. reflexivity.
Qed.

(** The screenshot block falls through, and touches the storage bucket
    only. *)
Lemma handle_screenshot_total (v : option FormValue) :
  ∃ url b64 es,
    handle_screenshot w v = (Next (url, b64), es)
    ∧ inserted es = [] ∧ notified es = [].
Proof.
  destruct v as [[s|name type buffer]|]; try by (do 3 eexists).
  destruct buffer as [|b buffer]; [by do 3 eexists|].
  rewrite handle_screenshot_file by done. by do 3 eexists.
Qed.

Lemma inserted_quiet (es : list Effect) : Forall quiet es → inserted es = [].
Proof.
  induction 1 as [|e es He _ IH]; [done|].
  destruct e; simpl in *; done.
Qed.

Lemma notified_quiet (es : list Effect) : Forall quiet es → notified es = [].
Proof.
  induction 1 as [|e es He _ IH]; [done|].
  destruct e; simpl in *; done.
Qed.

(** The classification block falls through, with the client's result when
    a key is configured and null otherwise. *)
Lemma classify_total (s : str) (b64 : option str) :
  ∃ aiData es,
    classify w s b64 = (Next aiData, es)
    ∧ Forall quiet es
    ∧ (aiData = None
       ∨ ∃ key, GEMINI_API_KEY w = Some key
                ∧ aiData = (analyzeFeedback s None key (gemini_reply w)).1).
Proof.
  unfold classify. destruct (GEMINI_API_KEY w) as [key|].
  - destruct (truthy_str key).
    + do 2 eexists. split; [reflexivity|]. split; [apply analyzeFeedback_quiet|].
      right. exists key. split; [done|]. apply analyzeFeedback_result.
    + do 2 eexists. split; [reflexivity|]. split; [constructor | by left].
  - do 2 eexists. split; [reflexivity|]. split; [constructor | by left].
Qed.

End Stages.

(** ** The honeypot *)

(** C1, as the code has it. A request that the limiter admits, whose form
    can be read and whose website field is a text that is not empty once
    trimmed gets status 200 with the body {id: 'fake-id', message:
    'Feedback sent'} and nothing but a log line happens: no upload, no
    call of the model, no insertion, no notification. The body has no
    ai_data member. *)
Theorem honeypot_silent_success (w : World) (request : Request) (m : RateMap)
    (form : FormData) (s : str) :
  (checkRateLimit (clock w) (client_ip (headers request)) m).1 = true →
  formData request = Some form →
  website form = Some (FText s) →
  trim s ≠ [] →
  (POST w request m).1
  = ({| status := 200;
        body := JObj [(lit "id", JStr (lit "fake-id"));
                      (lit "message", JStr (lit "Feedback sent"))] |},
     [Log (lit "[Feedback] Bot detected via honeypot")])
  ∧ get (lit "ai_data") (body (POST w request m).1.1) = None
  ∧ inserted (POST w request m).1.2 = []
  ∧ notified (POST w request m).1.2 = [].
Proof.
  intros Hok Hform Hweb Hs.
  rewrite (POST_bot w request m form s Hok Hform Hweb Hs).
  repeat split; vm_compute; reflexivity.
Qed.

Lemma honeypot_silent_success_witness :
  (POST sample_world (request_of form_bot) ∅).1
  = ({| status := 200;
        body := JObj [(lit "id", JStr (lit "fake-id"));
                      (lit "message", JStr (lit "Feedback sent"))] |},
     [Log (lit "[Feedback] Bot detected via honeypot")])
  ∧ get (lit "ai_data") (body (POST sample_world (request_of form_bot) ∅).1.1) = None
  ∧ inserted (POST sample_world (request_of form_bot) ∅).1.2 = []
  ∧ notified (POST sample_world (request_of form_bot) ∅).1.2 = [].
Proof.
  apply (honeypot_silent_success sample_world (request_of form_bot) ∅ form_bot
           (lit "http://spam.example")).
  - vm_compute. reflexivity.
  - reflexivity.
  - reflexivity.
  - vm_compute. discriminate.
Defined.

(** C1, as stated, fails: the body answered to a honeypot submission has
    the members id and message, the body of a genuine accept has id,
    ai_data and message, with another message text. *)
Lemma honeypot_body_differs_from_accept :
  let bot := (POST sample_world (request_of form_bot) ∅).1.1 in
  let genuine := (POST sample_world (request_of form_genuine) ∅).1.1 in
  status bot = 200 ∧ status genuine = 200
  ∧ keys (body bot) = [lit "id"; lit "message"]
  ∧ keys (body genuine) = [lit "id"; lit "ai_data"; lit "message"]
  ∧ keys (body bot) ≠ keys (body genuine).
Proof.
  repeat split; try (vm_compute; reflexivity).
  vm_compute. discriminate.
Qed.

(** C9. The limiter runs before the honeypot test. A honeypot submission
    that opens a window creates the entry of its identity, one that falls
    in an open window with room raises the count by one, and in both cases
    the answer is the counterfeit 200; one whose identity is at the limit
    gets 429, with no trace, and the table is unchanged. *)
Theorem honeypot_consumes_budget (w : World) (request : Request) (m : RateMap)
    (form : FormData) (s : str) :
  formData request = Some form →
  website form = Some (FText s) →
  trim s ≠ [] →
  let ip := client_ip (headers request) in
  let counterfeit :=
    ({| status := 200;
        body := JObj [(lit "id", JStr (lit "fake-id"));
                      (lit "message", JStr (lit "Feedback sent"))] |},
     [Log (lit "[Feedback] Bot detected via honeypot")]) in
  (opens_window m ip (clock w) →
   POST w request m
   = (counterfeit, <[ip := {| count := 1; resetAt := clock w + RATE_WINDOW |}]> m))
  ∧ (∀ e, m !! ip = Some e → clock w <= resetAt e → count e < RATE_LIMIT →
          POST w request m
          = (counterfeit, <[ip := {| count := count e + 1; resetAt := resetAt e |}]> m))
  ∧ (∀ e, m !! ip = Some e → clock w <= resetAt e → count e >= RATE_LIMIT →
          POST w request m
          = (({| status := 429; body := error_body (lit "Too many requests") |}, []), m)).
Proof.
  intros Hform Hweb Hs ip counterfeit.
  assert (Hpair : ∀ r : Response * list Effect * RateMap, r = (r.1, r.2))
    by by intros [[] ?].
  split; [|split].
  - intros Hopen. rewrite (Hpair (POST w request m)), POST_rate_table.
    pose proof (checkRateLimit_open m ip (clock w) Hopen) as Hc.
    rewrite (POST_bot w request m form s) by (fold ip; by rewrite ?Hc).
    fold ip. by rewrite Hc.
  - intros e He Hnow Hcount. rewrite (Hpair (POST w request m)), POST_rate_table.
    pose proof (checkRateLimit_room m ip (clock w) e He Hnow Hcount) as Hc.
    rewrite (POST_bot w request m form s) by (fold ip; by rewrite ?Hc).
    fold ip. by rewrite Hc.
  - intros e He Hnow Hcount. rewrite (Hpair (POST w request m)), POST_rate_table.
    pose proof (checkRateLimit_full m ip (clock w) e He Hnow Hcount) as Hc.
    rewrite (POST_limited w request m) by (fold ip; by rewrite Hc).
    fold ip. by rewrite Hc.
Qed.

Lemma honeypot_consumes_budget_witness :
  POST sample_world (request_of form_bot) ∅
  = (({| status := 200;
         body := JObj [(lit "id", JStr (lit "fake-id"));
                       (lit "message", JStr (lit "Feedback sent"))] |},
      [Log (lit "[Feedback] Bot detected via honeypot")]),
     <[lit "203.0.113.7" := {| count := 1; resetAt := 61000 |}]> ∅)
  ∧ POST sample_world (request_of form_bot) table_room
    = (({| status := 200;
           body := JObj [(lit "id", JStr (lit "fake-id"));
                         (lit "message", JStr (lit "Feedback sent"))] |},
        [Log (lit "[Feedback] Bot detected via honeypot")]),
       <[lit "203.0.113.7" := {| count := 4; resetAt := 50000 |}]> table_room)
  ∧ POST sample_world (request_of form_bot) table_full
    = (({| status := 429; body := error_body (lit "Too many requests") |}, []),
       table_full).
Proof.
  split; [|split].
  - apply (proj1 (honeypot_consumes_budget sample_world (request_of form_bot) ∅
                    form_bot (lit "http://spam.example") eq_refl eq_refl
                    ltac:(vm_compute; discriminate))).
    left. reflexivity.
  - apply (proj1 (proj2 (honeypot_consumes_budget sample_world (request_of form_bot)
                           table_room form_bot (lit "http://spam.example")
                           eq_refl eq_refl ltac:(vm_compute; discriminate)))
             {| count := 3; resetAt := 50000 |}).
    + vm_compute. reflexivity.
    + vm_compute. discriminate.
    + vm_compute. reflexivity.
  - apply (proj2 (proj2 (honeypot_consumes_budget sample_world (request_of form_bot)
                           table_full form_bot (lit "http://spam.example")
                           eq_refl eq_refl ltac:(vm_compute; discriminate)))
             {| count := 10; resetAt := 50000 |}).
    + vm_compute. reflexivity.
    + vm_compute. discriminate.
    + vm_compute. discriminate.
Defined.

(** ** Validation *)

(** C6, as the code has it. A request that the limiter admits, whose form
    can be read and whose honeypot field is absent or blank, is answered
    400 'Message is required' when its message is absent or blank once
    trimmed, whatever its screenshot, its project, its headers and the
    state of the collaborators; nothing else happens. *)
Theorem blank_message_rejected (w : World) (request : Request) (m : RateMap)
    (form : FormData) :
  (checkRateLimit (clock w) (client_ip (headers request)) m).1 = true →
  formData request = Some form →
  honeypot_clear (website form) →
  blank_message (message form) →
  (POST w request m).1
  = ({| status := 400; body := error_body (lit "Message is required") |}, []).
Proof. apply POST_blank. Qed.

Lemma blank_message_rejected_witness :
  (POST sample_world (request_of form_blank) ∅).1
  = ({| status := 400; body := error_body (lit "Message is required") |}, []).
Proof.
  apply (blank_message_rejected sample_world (request_of form_blank) ∅ form_blank).
  - vm_compute. reflexivity.
  - reflexivity.
  - vm_compute. reflexivity.
  - vm_compute. reflexivity.
Defined.

(** C6, as stated, fails: a blank message sent with the honeypot field
    filled in is answered 200, not 400. *)
Lemma blank_message_with_honeypot_gets_200 :
  blank_message (message form_bot_blank)
  ∧ status (POST sample_world (request_of form_bot_blank) ∅).1.1 = 200
  ∧ status (POST sample_world (request_of form_bot_blank) ∅).1.1 ≠ 400.
Proof.
  split; [vm_compute; reflexivity|].
  split; [vm_compute; reflexivity | vm_compute; discriminate].
Qed.

(** ** Storage, classification and the screenshot *)

(** C5. For a request that reaches the insertion: when the insertion fails
    (the answer carries an error, or no row), the status is 500 and no
    notification is dispatched; when the classification gives null and the
    insertion answers with the row's id, the status is 200, the body
    carries that id and ai_data null, and one row is inserted, with the
    message, ai_data null and status 'new'. *)
Theorem storage_failure_is_fatal_ai_failure_is_not (w : World) (request : Request)
    (m : RateMap) (form : FormData) (s : str) :
  reaches_storage w request m form s →
  (error (insert_answer w) ≠ None ∨ data (insert_answer w) = None →
   status (POST w request m).1.1 = 500
   ∧ notified (POST w request m).1.2 = [])
  ∧ (∀ key shot id,
       GEMINI_API_KEY w = Some key →
       (analyzeFeedback s shot key (gemini_reply w)).1 = None →
       insert_answer w = {| data := Some id; error := None |} →
       (POST w request m).1.1
       = {| status := 200;
            body := JObj [(lit "id", JStr id);
                          (lit "ai_data", JNull);
                          (lit "message", JStr (lit "Feedback received"))] |}
       ∧ ∃ row, inserted (POST w request m).1.2 = [row]
                ∧ ai_data row = None
                ∧ message_raw row = s
                ∧ row_status row = lit "new").
Proof.
  intros Hreach.
  destruct (handle_screenshot_total w (screenshot form))
    as (url & b64 & es1 & Hshot & Hi1 & Hn1).
  destruct (classify_total w s b64) as (aiData & es2 & Hai & Hq & Hres).
  rewrite (POST_accepted w request m form s url b64 es1 aiData es2 Hreach Hshot Hai).
  cbv zeta. split.
  - intros Hfail.
    destruct (error (insert_answer w)) as [err|], (data (insert_answer w)) as [id|];
      simpl; unfold notified; rewrite ?omap_app; fold (notified es1) (notified es2);
      rewrite ?Hn1, ?(notified_quiet es2 Hq); try done.
    destruct Hfail; done.
  - intros key shot id Hkey Hnull Hins. rewrite Hins. simpl.
    assert (aiData = None) as ->.
    { destruct Hres as [->|(key' & Hkey' & ->)]; [done|].
      rewrite Hkey in Hkey'. injection Hkey' as <-.
      rewrite <- Hnull. apply analyzeFeedback_result. }
    split; [done|]. eexists. split.
    + unfold inserted. rewrite !omap_app. fold (inserted es1) (inserted es2).
      rewrite Hi1, (inserted_quiet es2 Hq). reflexivity.
    + done.
Qed.

Lemma storage_failure_is_fatal_ai_failure_is_not_witness :
  (status (POST (with_insert failed_answer sample_world)
                (request_of form_genuine) ∅).1.1 = 500
   ∧ notified (POST (with_insert failed_answer sample_world)
                    (request_of form_genuine) ∅).1.2 = [])
  ∧ ((POST (with_reply None sample_world) (request_of form_genuine) ∅).1.1
     = {| status := 200;
          body := JObj [(lit "id", JStr (lit "row-1"));
                        (lit "ai_data", JNull);
                        (lit "message", JStr (lit "Feedback received"))] |}
     ∧ ∃ row, inserted (POST (with_reply None sample_world)
                             (request_of form_genuine) ∅).1.2 = [row]
              ∧ ai_data row = None
              ∧ message_raw row = lit "Export button does nothing"
              ∧ row_status row = lit "new").
Proof.
  split.
  - apply (proj1 (storage_failure_is_fatal_ai_failure_is_not
                    (with_insert failed_answer sample_world)
                    (request_of form_genuine) ∅ form_genuine
                    (lit "Export button does nothing")
                    ltac:(repeat split; vm_compute; (reflexivity || discriminate)))).
    left. vm_compute. discriminate.
  - apply (proj2 (storage_failure_is_fatal_ai_failure_is_not
                    (with_reply None sample_world)
                    (request_of form_genuine) ∅ form_genuine
                    (lit "Export button does nothing")
                    ltac:(repeat split; vm_compute; (reflexivity || discriminate)))
             (lit "key") None (lit "row-1")).
    + reflexivity.
    + vm_compute. reflexivity.
    + reflexivity.
Defined.

Section WithFile.

Variables (w : World) (request : Request) (m : RateMap) (form : FormData).
Variables (s name type : str) (buffer : list Byte.byte).

Hypothesis Hreach : reaches_storage w request m form s.
Hypothesis Hfile : screenshot form = Some (FFile name type buffer).
Hypothesis Hbuf : buffer ≠ [].

Let pageUrl :=
  or_lit (or_else (x_page_url (headers request)) (referer (headers request)))
         (lit "unknown").
Let encoded := lit "data:image/png;base64," ++ base64 buffer.

(** What a request with a file leaves behind: the upload, the effects of
    the classification, one row, and the response and notification that
    the answer of the insertion decides. *)
Lemma POST_with_file aiData es2 :
  classify w s (Some encoded) = (Next aiData, es2) →
  Forall quiet es2 →
  let row :=
    {| page_url := pageUrl;
       user_agent := or_else (h_user_agent (headers request)) None;
       message_raw := s;
       screenshot_url :=
         match error (upload_answer w), data (upload_answer w) with
         | None, Some _ => Some (publicUrl w (upload_name w))
         | _, _ => None
         end;
       ai_data := aiData;
       project_id :=
         match project form with
         | Some (FText p) => if truthy_str p then Some (FText p) else None
         | other => other
         end;
       row_status := lit "new" |} in
  (∃ rest, (POST w request m).1.2
           = Upload (lit "feedback") (upload_name w) buffer (lit "image/png") (lit "3600")
             :: es2 ++ InsertRow (lit "feedback") row :: rest)
  ∧ inserted (POST w request m).1.2 = [row]
  ∧ (POST w request m).1.1
    = match error (insert_answer w), data (insert_answer w) with
      | Some _, _ =>
          {| status := 500; body := error_body (lit "Failed to save feedback") |}
      | None, None =>
          {| status := 500; body := error_body (lit "Internal server error") |}
      | None, Some id =>
          {| status := 200;
             body := JObj [(lit "id", JStr id);
                           (lit "ai_data", json_of_option aiData);
                           (lit "message", JStr (lit "Feedback received"))] |}
      end
  ∧ notified (POST w request m).1.2
    = match error (insert_answer w), data (insert_answer w) with
      | None, Some id =>
          [{| n_id := id; n_message_raw := s;
              n_page_url := pageUrl; n_ai_data := aiData |}]
      | _, _ => []
      end.
Proof.
  intros Hai Hq row.
  pose proof (handle_screenshot_file w name type buffer Hbuf) as Hshot.
  rewrite <- Hfile in Hshot.
  rewrite (POST_accepted w request m form s _ _ _ aiData es2 Hreach Hshot Hai).
  cbv zeta. fold pageUrl. fold row.
  assert (Hi : ∀ tail, inserted ([Upload (lit "feedback") (upload_name w) buffer
                                    (lit "image/png") (lit "3600")] ++ es2 ++ tail)
                       = inserted tail).
  { intros tail. unfold inserted. rewrite !omap_app. fold (inserted es2).
    by rewrite (inserted_quiet es2 Hq). }
  assert (Hn : ∀ tail, notified ([Upload (lit "feedback") (upload_name w) buffer
                                    (lit "image/png") (lit "3600")] ++ es2 ++ tail)
                       = notified tail).
  { intros tail. unfold notified. rewrite !omap_app. fold (notified es2).
    by rewrite (notified_quiet es2 Hq). }
  destruct (error (insert_answer w)), (data (insert_answer w));
    cbn [fst snd]; rewrite Hi, Hn; (split; [eexists; reflexivity | done]).
Qed.

End WithFile.

(** The classification does not depend on the screenshot. *)
Lemma classify_same_result (w : World) (s : str) (b b' : option str) :
  (classify w s b).1 = (classify w s b').1.
Proof.
  unfold classify. destruct (GEMINI_API_KEY w) as [key|]; [|done].
  destruct (truthy_str key); [|done].
  unfold lift. cbn [fst]. f_equal. apply analyzeFeedback_result.
Qed.

Section WithClient.

Variables (client : Client) (w : World) (request : Request) (m : RateMap).
Variables (form : FormData) (s name type : str) (buffer : list Byte.byte).

Hypothesis Hreach : reaches_storage w request m form s.
Hypothesis Hfile : screenshot form = Some (FFile name type buffer).
Hypothesis Hbuf : buffer ≠ [].

Let pageUrl :=
  or_lit (or_else (x_page_url (headers request)) (referer (headers request)))
         (lit "unknown").
Let encoded := lit "data:image/png;base64," ++ base64 buffer.

Lemma encoded_truthy : or_else (Some encoded) None = Some encoded.
Proof.
  subst encoded. set (p := lit "data:image/png;base64,"). vm_compute in p. by subst p.
Qed.

(** The whole result of a request with a file, whatever the client: the
    upload, what the client does with the encoded copy, the row, and what
    the answer of the insertion decides. *)
Lemma POST_with_file_any :
  let answer :=
    match GEMINI_API_KEY w with
    | Some key =>
        if truthy_str key then client s (Some encoded) key (gemini_reply w)
        else (None, [])
    | None => (None, [])
    end in
  let url :=
    match error (upload_answer w), data (upload_answer w) with
    | None, Some _ => Some (publicUrl w (upload_name w))
    | _, _ => None
    end in
  POST_with client w request m
  = ((after_insert w s pageUrl answer.1).1,
     Upload (lit "feedback") (upload_name w) buffer (lit "image/png") (lit "3600")
     :: answer.2
        ++ InsertRow (lit "feedback") (stored_row request form s url answer.1)
           :: (after_insert w s pageUrl answer.1).2,
     (checkRateLimit (clock w) (client_ip (headers request)) m).2).
Proof.
  intros answer url.
  destruct Hreach as (Hok & Hform & Hbot & Hmsg & Hs).
  pose proof (handle_screenshot_file w name type buffer Hbuf) as Hshot.
  rewrite <- Hfile in Hshot. fold url encoded in Hshot.
  assert (Hai : classify_with client w s (Some encoded) = (Next answer.1, answer.2)).
  { unfold classify_with. subst answer. rewrite encoded_truthy.
    destruct (GEMINI_API_KEY w) as [key|]; [|done].
    by destruct (truthy_str key). }
  unfold POST_with, after_insert, stored_row. fold pageUrl.
  destruct (checkRateLimit (clock w) (client_ip (headers request)) m) as [ok m'].
  simpl in Hok. subst ok. rewrite Hform. run.
  rewrite Hmsg, (truthy_nonempty _ Hs), Hshot. simpl. rewrite Hai.
  pass_honeypot Hbot;
    destruct (error (insert_answer w)), (data (insert_answer w)); simpl;
    rewrite <- ?app_assoc; reflexivity.
Qed.

End WithClient.

(** The record of a request whose upload fails: the response is the one of
    the case where the upload succeeds, one row is inserted in both cases,
    and the row of the failure is the row of the success with its
    screenshot reference null. The bytes of the file do not reach the row:
    with any other non-empty file in the field, and any answer of the
    upload, the row inserted is the same. *)
Lemma upload_failure_same_record (w : World) (request : Request) (m : RateMap)
    (form : FormData) (s name type : str) (buffer : list Byte.byte)
    (a_fail a_ok : Answer) :
  reaches_storage w request m form s →
  screenshot form = Some (FFile name type buffer) →
  buffer ≠ [] →
  error a_fail ≠ None ∨ data a_fail = None →
  error a_ok = None → data a_ok ≠ None →
  let failed := POST (with_upload a_fail w) request m in
  let fine := POST (with_upload a_ok w) request m in
  failed.1.1 = fine.1.1
  ∧ (∃ row, inserted fine.1.2 = [row]
            ∧ screenshot_url row = Some (publicUrl w (upload_name w))
            ∧ inserted failed.1.2 = [clear_screenshot_url row])
  ∧ notified failed.1.2 = notified fine.1.2
  ∧ (∀ a name' type' buffer', buffer' ≠ [] →
       inserted (POST (with_upload a w)
                   (with_screenshot (Some (FFile name' type' buffer')) request) m).1.2
       = inserted (POST (with_upload a w) request m).1.2).
Proof.
  intros Hreach Hfile Hbuf Hfail Hok1 Hok2 failed fine.
  destruct (classify_total w s (Some (lit "data:image/png;base64," ++ base64 buffer)))
    as (aiData & es2 & Hai & Hq & _).
  assert (Hrun := λ a, POST_with_file (with_upload a w) request m form s name type
                         buffer Hreach Hfile Hbuf aiData es2 Hai Hq).
  cbv zeta in Hrun. cbn [with_upload upload_answer insert_answer publicUrl] in Hrun.
  change (upload_name (with_upload ?a w)) with (upload_name w) in Hrun.
  destruct (Hrun a_fail) as (_ & Hif & Hrf & Hnf).
  destruct (Hrun a_ok) as (_ & Hio & Hro & Hno).
  subst failed fine. split; [by rewrite Hrf, Hro|]. split.
  - eexists. split; [exact Hio|]. rewrite Hif, Hok1. cbn [screenshot_url].
    destruct (data a_ok); [|done]. split; [done|].
    unfold clear_screenshot_url. cbn.
    destruct Hfail as [Hf|Hf].
    + by destruct (error a_fail).
    + rewrite Hf. by destruct (error a_fail).
  - split; [by rewrite Hnf, Hno|].
    intros a name' type' buffer' Hbuf'.
    destruct (Hrun a) as (_ & Hi & _). rewrite Hi.
    destruct Hreach as (Hok & Hform & Hbot & Hmsg & Hs).
    set (form' := {| website := website form; message := message form;
                     screenshot := Some (FFile name' type' buffer');
                     project := project form |}).
    assert (Hreach' : reaches_storage (with_upload a w)
                        (with_screenshot (Some (FFile name' type' buffer')) request)
                        m form' s).
    { repeat split; try done. cbn. by rewrite Hform. }
    destruct (classify_total w s (Some (lit "data:image/png;base64," ++ base64 buffer')))
      as (aiData' & es2' & Hai' & Hq' & _).
    pose proof (classify_same_result w s
                  (Some (lit "data:image/png;base64," ++ base64 buffer))
                  (Some (lit "data:image/png;base64," ++ base64 buffer'))) as Hsame.
    rewrite Hai, Hai' in Hsame. injection Hsame as <-.
    destruct (POST_with_file (with_upload a w)
                (with_screenshot (Some (FFile name' type' buffer')) request)
                m form' s name' type' buffer' Hreach' eq_refl Hbuf'
                aiData es2' Hai' Hq') as (_ & Hi' & _).
    rewrite Hi'. reflexivity.
Qed.


(** ** The screenshot is a PNG throughout *)

Section Png.

Lemma b64_char_not_comma (i : N) : b64_char i ≠ 44%N.
Proof.
  unfold b64_char.
  destruct (N.ltb_spec i 26); [lia|].
  destruct (N.ltb_spec i 52); [lia|].
  destruct (N.ltb_spec i 62); [lia|].
  destruct (N.eqb_spec i 62); lia.
Qed.

Lemma base64_comma_free (bs : list Byte.byte) : Forall (λ c, c ≠ 44%N) (base64 bs).
Proof.
  induction bs as [bs IH] using (induction_ltof1 _ (@length Byte.byte)).
  unfold ltof in IH.
  destruct bs as [|a [|b [|c r]]]; cbn [base64].
  - constructor.
  - repeat constructor; auto using b64_char_not_comma; lia.
  - repeat constructor; auto using b64_char_not_comma; lia.
  - repeat (apply Forall_cons; split; [apply b64_char_not_comma|]).
    apply IH. simpl. lia.
Qed.

Lemma split_comma_free (x : str) :
  Forall (λ c, c ≠ 44%N) x → split_char 44 x = [x].
Proof.
  induction 1 as [|c x Hc _ IH]; [done|].
  cbn [split_char]. destruct (N.eqb_spec c 44); [done|]. by rewrite IH.
Qed.

(** The part built from the copy the handler makes carries image/png and
    the encoded bytes. *)
Lemma inline_part_png (bs : list Byte.byte) :
  inline_part (lit "data:image/png;base64," ++ base64 bs)
  = PInline (lit "image/png") (base64 bs).
Proof.
  pose proof (base64_comma_free bs) as Hc.
  generalize dependent (base64 bs). intros x Hc.
  unfold inline_part.
  set (p := lit "data:image/png;base64,"). vm_compute in p. subst p.
  set (d := lit "data:"). vm_compute in d. subst d.
  set (i := lit "image/png"). vm_compute in i. subst i.
  cbn. by rewrite (split_comma_free x Hc).
Qed.

(** With a key, the client calls the model once, first thing, with the
    prompt and the image part. *)
Lemma analyzeFeedback_calls_model (s b64 key : str) (reply : option str) :
  key ≠ [] → b64 ≠ [] →
  ∃ rest, (analyzeFeedback s (Some b64) key reply).2
          = Generate (lit "gemini-2.5-flash-lite") [PText (prompt s); inline_part b64]
            :: rest.
Proof.
  intros Hk Hb. unfold analyzeFeedback.
  rewrite (truthy_nonempty _ Hk), (truthy_nonempty _ Hb). run.
  destruct reply as [text|]; [|by eexists].
  destruct (truthy_str text); simpl; [|by eexists].
  destruct (JSON_parse (extract_json text)) as [aiData|]; simpl; [|by eexists].
  destruct aiData; simpl; try (by eexists);
    match goal with
    | |- context [invalid_structure ?a] => destruct (invalid_structure a)
    end; by eexists.
Qed.

End Png.

(** For a request that reaches the insertion with a non-empty file as
    screenshot, whatever the name and the type of the file: the file is
    uploaded to the bucket 'feedback' under a generated name that ends in
    '.png', with contentType 'image/png'; the part the client builds from
    'data:image/png;base64,' followed by the encoded bytes has the MIME
    type 'image/png'; with a key configured, the model is called with the
    prompt and that part. *)
Lemma screenshot_uploaded_and_sent_as_png (w : World) (request : Request) (m : RateMap)
    (form : FormData) (s name type : str) (buffer : list Byte.byte) :
  reaches_storage w request m form s →
  screenshot form = Some (FFile name type buffer) →
  buffer ≠ [] →
  let filename :=
    decimal (upload_clock w) ++ lit "-" ++ random_suffix w ++ lit ".png" in
  let upload := Upload (lit "feedback") filename buffer (lit "image/png") (lit "3600") in
  (∃ rest, (POST w request m).1.2 = upload :: rest)
  ∧ inline_part (lit "data:image/png;base64," ++ base64 buffer)
    = PInline (lit "image/png") (base64 buffer)
  ∧ (∀ key, GEMINI_API_KEY w = Some key → key ≠ [] →
       ∃ rest, (POST w request m).1.2
               = upload
                 :: Generate (lit "gemini-2.5-flash-lite")
                      [PText (prompt s); PInline (lit "image/png") (base64 buffer)]
                 :: rest).
Proof.
  intros Hreach Hfile Hbuf filename upload.
  destruct (classify_total w s (Some (lit "data:image/png;base64," ++ base64 buffer)))
    as (aiData & es2 & Hai & Hq & _).
  destruct (POST_with_file w request m form s name type buffer Hreach Hfile Hbuf
              aiData es2 Hai Hq) as ((rest & Hes) & _).
  split; [by eexists|]. split; [apply inline_part_png|].
  intros key Hkey Hne. rewrite Hes.
  unfold classify in Hai. rewrite Hkey, (truthy_nonempty _ Hne) in Hai.
  assert (Henc : or_else (Some (lit "data:image/png;base64," ++ base64 buffer)) None
                 = Some (lit "data:image/png;base64," ++ base64 buffer)).
  { set (p := lit "data:image/png;base64,"). vm_compute in p. by subst p. }
  rewrite Henc in Hai.
  destruct (analyzeFeedback_calls_model s
              (lit "data:image/png;base64," ++ base64 buffer) key (gemini_reply w) Hne)
    as (rest2 & Hgen).
  { set (p := lit "data:image/png;base64,"). vm_compute in p. by subst p. }
  injection Hai as _ <-. rewrite Hgen, inline_part_png.
  by eexists.
Qed.


(** * Further properties *)

(** ** The paths of the handler *)

Section Paths.

Variables (w : World) (request : Request) (m : RateMap).

Let ip := client_ip (headers request).
Let internal_error : Response * list Effect :=
  ({| status := 500; body := error_body (lit "Internal server error") |},
   [Log (lit "[Feedback] Error:")]).

Lemma POST_unreadable :
  (checkRateLimit (clock w) ip m).1 = true →
  formData request = None →
  (POST w request m).1 = internal_error.
Proof.
  unfold POST. fold ip. destruct (checkRateLimit (clock w) ip m) as [ok m'].
  simpl. by intros -> ->.
Qed.

Lemma POST_website_file form name type content :
  (checkRateLimit (clock w) ip m).1 = true →
  formData request = Some form →
  website form = Some (FFile name type content) →
  (POST w request m).1 = internal_error.
Proof.
  unfold POST. fold ip. destruct (checkRateLimit (clock w) ip m) as [ok m'].
  simpl. intros -> ->. run. by intros ->.
Qed.

Lemma POST_message_file form name type content :
  (checkRateLimit (clock w) ip m).1 = true →
  formData request = Some form →
  honeypot_clear (website form) →
  message form = Some (FFile name type content) →
  (POST w request m).1 = internal_error.
Proof.
  unfold POST. fold ip. destruct (checkRateLimit (clock w) ip m) as [ok m'].
  simpl. intros -> -> Hbot Hmsg. run. rewrite Hmsg.
  pass_honeypot Hbot; reflexivity.
Qed.

Lemma honeypot_verdict (h : str) :
  (truthy_str h && truthy_str (trim h))%bool = false → trim h = [].
Proof.
  destruct h as [|c h]; [done|]. simpl truthy_str at 1. cbn [andb].
  by destruct (trim (c :: h)).
Qed.

(** Every request takes one of six paths. *)
Lemma POST_paths :
  ((checkRateLimit (clock w) ip m).1 = false
   ∧ (POST w request m).1
     = ({| status := 429; body := error_body (lit "Too many requests") |}, []))
  ∨ ((checkRateLimit (clock w) ip m).1 = true
     ∧ ((POST w request m).1 = internal_error
        ∨ (POST w request m).1
          = ({| status := 200;
                body := JObj [(lit "id", JStr (lit "fake-id"));
                              (lit "message", JStr (lit "Feedback sent"))] |},
             [Log (lit "[Feedback] Bot detected via honeypot")])
        ∨ (POST w request m).1
          = ({| status := 400; body := error_body (lit "Message is required") |}, [])
        ∨ ∃ form s, reaches_storage w request m form s)).
Proof.
  destruct (checkRateLimit (clock w) ip m).1 eqn:Hok;
    [right; split; [done|] | left; split; [done | by apply POST_limited]].
  destruct (formData request) as [form|] eqn:Hform;
    [|left; by apply POST_unreadable].
  assert (Hclear : honeypot_clear (website form) →
            (POST w request m).1 = internal_error
            ∨ (POST w request m).1
              = ({| status := 400; body := error_body (lit "Message is required") |}, [])
            ∨ ∃ form s, reaches_storage w request m form s).
  { intros Hbot. destruct (message form) as [[s|name type content]|] eqn:Hmsg.
    - destruct (trim s) as [|c t] eqn:Hs.
      + right; left. apply (POST_blank w request m form); try done.
        by rewrite Hmsg.
      + right; right. exists form, s. repeat split; try done. by rewrite Hs.
    - left. by apply (POST_message_file form name type content).
    - right; left. apply (POST_blank w request m form); try done.
      by rewrite Hmsg. }
  destruct (website form) as [[h|name type content]|] eqn:Hweb.
  - destruct (truthy_str h && truthy_str (trim h))%bool eqn:Hb.
    + right; left. apply (POST_bot w request m form h); try done.
      apply andb_prop in Hb as [_ Hb]. by destruct (trim h).
    + destruct Hclear as [?|[?|?]]; auto. simpl. by apply honeypot_verdict.
  - left. by apply (POST_website_file form name type content).
  - destruct Hclear as [?|[?|?]]; auto. done.
Qed.

End Paths.

(** ** More on the classification client *)

Section Client.

Implicit Types (s key text : str) (shot reply : option str) (v : json).

Lemma truthy_str_true s : truthy_str s = true ↔ s ≠ [].
Proof. by destruct s. Qed.

(** The image parts of a call: one for a screenshot string that is not
    empty, none otherwise. *)
Lemma analyzeFeedback_model_calls s shot key reply :
  model_calls (analyzeFeedback s shot key reply).2
  = if truthy_str key
    then [PText (prompt s)
          :: match shot with
             | Some b => if truthy_str b then [inline_part b] else []
             | None => []
             end]
    else [].
Proof.
  unfold analyzeFeedback. destruct (truthy_str key); [|done]. run.
  destruct reply as [text|]; [|done].
  destruct (truthy_str text); simpl; [|done].
  destruct (JSON_parse (extract_json text)) as [aiData|]; simpl; [|done].
  destruct aiData; simpl; try done;
    match goal with
    | |- context [invalid_structure ?a] => destruct (invalid_structure a)
    end; done.
Qed.

End Client.

(** X1. [analyzeFeedback] returns a value exactly when the key is not
    empty, the model answered a text that is not empty, the text (its
    fenced block, if it has one) parses as JSON and the parsed value passes
    the validation; the value returned is that parsed value. In every other
    case it returns null. *)
Theorem analyzeFeedback_returns_exactly (s : str) (shot : option str) (key : str)
    (reply : option str) (v : json) :
  (analyzeFeedback s shot key reply).1 = Some v
  ↔ key ≠ []
    ∧ ∃ text, reply = Some text ∧ text ≠ []
              ∧ JSON_parse (extract_json text) = Some v
              ∧ invalid_structure v = false.
Proof.
  split.
  - intros H. pose proof (analyzeFeedback_some _ _ _ _ _ H) as (text & -> & Hp & Hi).
    unfold analyzeFeedback in H.
    destruct (truthy_str key) eqn:Hk; [|done].
    split; [by apply truthy_str_true|].
    exists text. repeat split; try done.
    intros ->. revert H. by run.
  - intros (Hk & text & -> & Ht & Hp & Hi).
    unfold analyzeFeedback.
    rewrite (proj2 (truthy_str_true key) Hk). run.
    rewrite (proj2 (truthy_str_true text) Ht), Hp. simpl.
    destruct v; simpl; rewrite ?Hi; done.
Qed.

(** X2. With a key, the model is called exactly once, whatever it answers
    (there is no retry), with the prompt as first part and one image part
    when a screenshot string that is not empty is given; without a key it
    is never called. *)
Theorem analyzeFeedback_calls_model_once (s : str) (shot : option str) (key : str)
    (reply : option str) :
  (key = [] → model_calls (analyzeFeedback s shot key reply).2 = [])
  ∧ (key ≠ [] →
     ∃ image, model_calls (analyzeFeedback s shot key reply).2
              = [PText (prompt s) :: image]
              ∧ (image = [] ∨ ∃ b, shot = Some b ∧ b ≠ [] ∧ image = [inline_part b])
              ∧ (∀ b, shot = Some b → b ≠ [] → image = [inline_part b])).
Proof.
  rewrite analyzeFeedback_model_calls. split.
  - by intros ->.
  - intros Hk. rewrite (proj2 (truthy_str_true key) Hk).
    eexists. split; [reflexivity|]. split.
    + destruct shot as [b|]; [|by left].
      destruct b as [|c b]; [by left|]. right. by exists (c :: b).
    + intros b -> Hb. by rewrite (proj2 (truthy_str_true b) Hb).
Qed.

Lemma analyzeFeedback_calls_model_once_witness :
  model_calls (analyzeFeedback (lit "hi") None [] (Some reply_export_bug)).2 = []
  ∧ ∃ image, model_calls (analyzeFeedback (lit "hi") (Some (lit "AAAA")) (lit "key") None).2
             = [PText (prompt (lit "hi")) :: image]
             ∧ (image = [] ∨ ∃ b, Some (lit "AAAA") = Some b ∧ b ≠ []
                                  ∧ image = [inline_part b])
             ∧ (∀ b, Some (lit "AAAA") = Some b → b ≠ [] → image = [inline_part b]).
Proof.
  split.
  - apply (proj1 (analyzeFeedback_calls_model_once (lit "hi") None []
                    (Some reply_export_bug))). reflexivity.
  - apply (proj2 (analyzeFeedback_calls_model_once (lit "hi") (Some (lit "AAAA"))
                    (lit "key") None)). vm_compute. discriminate.
Defined.

(** ** Data URLs *)

Section DataUrl.

Implicit Types (s p x mime payload : str).

Lemma strip_prefix_self p x : strip_prefix p (p ++ x) = Some x.
Proof. induction p as [|a p IH]; [done|]. simpl. by rewrite N.eqb_refl. Qed.

Lemma split_char_app p x :
  Forall (λ c, c ≠ 44%N) p → split_char 44 (p ++ 44%N :: x) = p :: split_char 44 x.
Proof.
  induction 1 as [|c p Hc _ IH]; [done|].
  simpl. destruct (N.eqb_spec c 44); [done|]. by rewrite IH.
Qed.

Lemma take_until_app c p x :
  Forall (λ a, a ≠ c) p → take_until c (p ++ c :: x) = p.
Proof.
  induction 1 as [|a p Ha _ IH]; simpl.
  - by rewrite N.eqb_refl.
  - destruct (N.eqb_spec a c); [done|]. by rewrite IH.
Qed.

Lemma includes_char_app_r p c x : includes_char (p ++ c :: x) c = true.
Proof.
  unfold includes_char. rewrite existsb_app. simpl.
  rewrite N.eqb_refl. by rewrite orb_true_r.
Qed.

(** The pattern of the MIME type matches where the text starts, when a
    type that is not empty follows [data:]. *)
Lemma data_mime_head mime x :
  mime ≠ [] → Forall (λ a, a ≠ 59%N) mime →
  data_mime (lit "data:" ++ mime ++ 59%N :: x) = Some mime.
Proof.
  intros Hne Hm.
  set (d := lit "data:"). vm_compute in d. subst d.
  cbn [app data_mime]. set (d := lit "data:"). vm_compute in d. subst d.
  cbn [strip_prefix N.eqb Pos.eqb]. rewrite take_until_app by done.
  by destruct mime.
Qed.

Lemma includes_char_none s c :
  Forall (λ a, a ≠ c) s → includes_char s c = false.
Proof.
  unfold includes_char. induction 1 as [|a s Ha _ IH]; [done|].
  cbn [existsb]. rewrite IH, orb_false_r. apply N.eqb_neq. congruence.
Qed.

Lemma not_data_url s :
  startsWith s (lit "data:") = false → Forall (λ c, c ≠ 44%N) s →
  inline_part s = PInline (lit "image/png") s.
Proof.
  intros Hs Hc. unfold inline_part. by rewrite Hs, (includes_char_none s 44 Hc).
Qed.

End DataUrl.

(** X3. The image part built from a screenshot string. From a data URL
    'data:<type>;base64,<payload>' (type not empty, without semicolon or
    comma; payload without comma) the part has that type and that payload.
    From a string that does not start with 'data:' and has no comma, the
    part has the type image/png and the whole string as payload. *)
Theorem inline_part_of_data_url (mime payload s : str) :
  (mime ≠ [] →
   Forall (λ c, c ≠ 59%N ∧ c ≠ 44%N) mime →
   Forall (λ c, c ≠ 44%N) payload →
   inline_part (lit "data:" ++ mime ++ lit ";base64," ++ payload)
   = PInline mime payload)
  ∧ (startsWith s (lit "data:") = false →
     Forall (λ c, c ≠ 44%N) s →
     inline_part s = PInline (lit "image/png") s).
Proof.
  split; [|apply not_data_url].
  intros Hne Hm Hp.
  assert (Hm1 : Forall (λ c, c ≠ 59%N) mime)
    by (eapply Forall_impl; [exact Hm | by intros ? []]).
  assert (Hm2 : Forall (λ c, c ≠ 44%N) mime)
    by (eapply Forall_impl; [exact Hm | by intros ? []]).
  set (b := lit ";base64,"). vm_compute in b. subst b. cbn [app].
  unfold inline_part.
  rewrite (data_mime_head mime _ Hne Hm1).
  replace (lit "data:" ++ mime ++ 59%N :: 98%N :: 97%N :: 115%N :: 101%N :: 54%N
             :: 52%N :: 44%N :: payload)
    with ((lit "data:" ++ mime ++ [59; 98; 97; 115; 101; 54; 52]%N) ++ 44%N :: payload)
    by by_assoc.
  rewrite includes_char_app_r, split_char_app.
  - unfold startsWith. rewrite <- app_assoc, strip_prefix_self.
    unfold nth_str. simpl nth. by rewrite (split_comma_free payload Hp).
  - set (d := lit "data:"). vm_compute in d. subst d.
    repeat (apply Forall_app; split); try done; repeat constructor; done.
Qed.

Lemma inline_part_of_data_url_witness :
  inline_part (lit "data:" ++ lit "image/jpeg" ++ lit ";base64," ++ lit "/9j/4A==")
  = PInline (lit "image/jpeg") (lit "/9j/4A==")
  ∧ inline_part (lit "iVBORw0KGgo=") = PInline (lit "image/png") (lit "iVBORw0KGgo=").
Proof.
  split.
  - apply (proj1 (inline_part_of_data_url (lit "image/jpeg") (lit "/9j/4A==") [])).
    + vm_compute. discriminate.
    + vm_compute. repeat constructor; discriminate.
    + vm_compute. repeat constructor; discriminate.
  - apply (proj2 (inline_part_of_data_url [] [] (lit "iVBORw0KGgo="))).
    + vm_compute. reflexivity.
    + vm_compute. repeat constructor; discriminate.
Defined.

(** ** Replies with text around the fenced block *)

Section Prose.

Implicit Types (s p q mid body ws : str).

Lemma skip_space_split s :
  ∃ w, Forall (λ c, is_space c = true) w ∧ s = w ++ skip_space s.
Proof.
  induction s as [|c s (w & Hw & IH)]; [by exists []|].
  simpl. destruct (is_space c) eqn:Hc.
  - exists (c :: w). split; [by constructor | simpl; congruence].
  - by exists [].
Qed.

Lemma Forall_skip_space (P : N → Prop) s : Forall P s → Forall P (skip_space s).
Proof.
  intros H. destruct (skip_space_split s) as (w & _ & Hs).
  rewrite Hs in H. by apply Forall_app in H as [_ H].
Qed.

(** What [trim] leaves of the end of a text. *)
Lemma Forall_rtrim (P : N → Prop) q : Forall P q → Forall P (rev (skip_space (rev q))).
Proof.
  intros H. apply Forall_rev, Forall_skip_space. by apply Forall_rev.
Qed.

(** Trimming gives back a piece of the text, with whitespace on both
    sides. *)
Lemma trim_split s :
  ∃ w1 w2, s = w1 ++ trim s ++ w2.
Proof.
  destruct (skip_space_split s) as (w1 & _ & H1).
  destruct (skip_space_split (rev (skip_space s))) as (w2 & _ & H2).
  exists w1, (rev w2). unfold trim. rewrite H1 at 1. f_equal.
  rewrite <- rev_app_distr, <- H2. by rewrite rev_involutive.
Qed.

Lemma skip_space_before p c x :
  is_space c = false → skip_space (p ++ c :: x) = skip_space p ++ c :: x.
Proof.
  intros Hc. induction p as [|a p IH]; simpl; [by rewrite Hc|].
  by destruct (is_space a).
Qed.

Lemma trim_around p q a b mid :
  is_space a = false → is_space b = false →
  trim (p ++ (a :: mid ++ [b]) ++ q)
  = skip_space p ++ (a :: mid ++ [b]) ++ rev (skip_space (rev q)).
Proof.
  intros Ha Hb. unfold trim. cbn [app].
  rewrite skip_space_before by done.
  replace (skip_space p ++ a :: (mid ++ [b]) ++ q)
    with ((skip_space p ++ a :: mid) ++ b :: q) by by_assoc.
  rewrite rev_app_distr. cbn [rev]. rewrite <- app_assoc. cbn [app].
  rewrite skip_space_before by done.
  rewrite rev_app_distr. cbn [rev]. rewrite rev_involutive.
  by_assoc.
Qed.

Lemma body_end_none s : Forall (λ c, c ≠ 125%N) s → body_end s = None.
Proof.
  induction 1 as [|c s Hc _ IH]; [done|].
  simpl. rewrite IH. by destruct (N.eqb_spec c 125).
Qed.

Lemma space_not_brace ws :
  Forall (λ c, is_space c = true) ws → Forall (λ c, c ≠ 125%N) ws.
Proof.
  intros H. eapply Forall_impl; [exact H|]. by intros c Hc ->.
Qed.

Lemma block_here_fenced_then ws1 ws2 body q :
  Forall (λ c, is_space c = true) ws1 →
  Forall (λ c, is_space c = true) ws2 →
  Forall (λ c, c ≠ 125%N) q →
  block_here (ws1 ++ (123%N :: body ++ [125%N]) ++ ws2 ++ fence ++ q)
  = Some (123%N :: body ++ [125%N]).
Proof.
  intros H1 H2 Hq. unfold block_here.
  rewrite skip_space_app by done. simpl.
  rewrite <- app_assoc. simpl.
  rewrite body_end_last; [done| |].
  - apply body_end_none. apply Forall_app. split; [by apply space_not_brace|].
    unfold fence. simpl. by repeat (constructor; [done|]).
  - unfold closes. rewrite skip_space_app by done. reflexivity.
Qed.

Lemma fenced_block_after p s :
  Forall (λ c, c ≠ 96%N) p → fenced_block (p ++ s) = fenced_block s.
Proof.
  induction 1 as [|c p Hc _ IH]; [done|].
  change (fenced_block ((c :: p) ++ s))
    with (match match_here (c :: p ++ s) with
          | Some g => Some g
          | None => fenced_block (p ++ s)
          end).
  unfold match_here, fence. cbn [strip_prefix].
  by destruct (N.eqb_spec 96 c).
Qed.

Lemma fenced_block_fenced_then tagged ws1 ws2 body q :
  Forall (λ c, is_space c = true) ws1 →
  Forall (λ c, is_space c = true) ws2 →
  Forall (λ c, c ≠ 125%N) q →
  fenced_block (fenced tagged ws1 (123%N :: body ++ [125%N]) ws2 ++ q)
  = Some (123%N :: body ++ [125%N]).
Proof.
  intros H1 H2 Hq.
  assert (Hm : match_here (fenced tagged ws1 (123%N :: body ++ [125%N]) ws2 ++ q)
               = Some (123%N :: body ++ [125%N])).
  { unfold match_here, fenced. rewrite <- !app_assoc. destruct tagged.
    - change (strip_prefix fence (fence ++ lit "json" ++ ?x)) with (Some (lit "json" ++ x)).
      cbv beta iota.
      change (strip_prefix (lit "json") (lit "json" ++ ?x)) with (Some x).
      cbv beta iota.
      by rewrite (block_here_fenced_then ws1 ws2 body q H1 H2 Hq).
    - change (strip_prefix fence (fence ++ [] ++ ?x)) with (Some x).
      cbv beta iota.
      rewrite (block_here_fenced_then ws1 ws2 body q H1 H2 Hq).
      change ((123%N :: body ++ [125%N]) ++ ws2 ++ fence ++ q)
        with (123%N :: (body ++ [125%N]) ++ ws2 ++ fence ++ q).
      by rewrite strip_json_padding. }
  unfold fenced in *. simpl in *. by rewrite Hm.
Qed.

End Prose.

(** X4. A reply that holds a fenced block (tagged json or not) around an
    object, after any text without backtick and before any text without
    closing brace, is reduced to the object, braces included, before it is
    parsed. *)
Theorem extract_json_from_prose (p q ws1 ws2 body : str) (tagged : bool) :
  Forall (λ c, c ≠ 96%N) p →
  Forall (λ c, c ≠ 125%N) q →
  Forall (λ c, is_space c = true) ws1 →
  Forall (λ c, is_space c = true) ws2 →
  extract_json (p ++ fenced tagged ws1 (123%N :: body ++ [125%N]) ws2 ++ q)
  = 123%N :: body ++ [125%N].
Proof.
  intros Hp Hq H1 H2. unfold extract_json.
  set (mid := [96; 96]%N ++ (if tagged then lit "json" else []) ++ ws1
              ++ (123%N :: body ++ [125%N]) ++ ws2 ++ [96; 96]%N).
  assert (Hf : fenced tagged ws1 (123%N :: body ++ [125%N]) ws2 = 96%N :: mid ++ [96%N])
    by (subst mid; unfold fenced, fence; by_assoc).
  rewrite Hf, trim_around by done. rewrite <- Hf.
  rewrite fenced_block_after by by apply Forall_skip_space.
  by rewrite fenced_block_fenced_then by auto using Forall_rtrim.
Qed.

Lemma extract_json_from_prose_witness :
  extract_json (lit "Here is the result: " ++ fenced true [10%N]
                  (123%N :: jq "'a': '```'" ++ [125%N]) [10%N] ++ lit " Hope it helps.")
  = 123%N :: jq "'a': '```'" ++ [125%N].
Proof.
  apply (extract_json_from_prose (lit "Here is the result: ") (lit " Hope it helps.")
           [10%N] [10%N] (jq "'a': '```'") true).
  - vm_compute. repeat constructor; discriminate.
  - vm_compute. repeat constructor; discriminate.
  - by repeat constructor.
  - by repeat constructor.
Defined.

(** X5. A reply without three backticks in a row is handed to the parser
    as it is, trimmed. *)
Theorem extract_json_without_fence (text : str) :
  has_fence text = false → extract_json text = trim text.
Proof.
  intros H. unfold extract_json.
  destruct (trim_split text) as (w1 & w2 & Hs).
  rewrite Hs in H. apply has_fence_inside in H.
  by rewrite fenced_block_none.
Qed.

Lemma extract_json_without_fence_witness :
  extract_json (jq "  {'a': '`x`'}
") = trim (jq "  {'a': '`x`'}
").
Proof.
  apply (extract_json_without_fence (jq "  {'a': '`x`'}
")).
  vm_compute. reflexivity.
Defined.

(** ** The accepting path, in full *)

Section Reached.

Variables (w : World) (request : Request) (m : RateMap) (form : FormData) (s : str).

Hypothesis Hreach : reaches_storage w request m form s.

Let pageUrl :=
  or_lit (or_else (x_page_url (headers request)) (referer (headers request)))
         (lit "unknown").

Lemma handle_screenshot_cases (v : option FormValue) :
  handle_screenshot w v = (Next (None, None), [])
  ∨ ∃ name type buffer,
      v = Some (FFile name type buffer) ∧ buffer ≠ []
      ∧ handle_screenshot w v
        = (Next (match error (upload_answer w), data (upload_answer w) with
                 | None, Some _ => Some (publicUrl w (upload_name w))
                 | _, _ => None
                 end,
                 Some (lit "data:image/png;base64," ++ base64 buffer)),
           [Upload (lit "feedback") (upload_name w) buffer (lit "image/png") (lit "3600")]).
Proof.
  destruct v as [[t|name type buffer]|]; try by left.
  destruct buffer as [|b buffer]; [by left|].
  right. exists name, type, (b :: buffer). by rewrite handle_screenshot_file.
Qed.

Lemma classify_cases (b64 : option str) :
  ((GEMINI_API_KEY w = None ∨ GEMINI_API_KEY w = Some [])
   ∧ classify w s b64 = (Next None, []))
  ∨ ∃ key, GEMINI_API_KEY w = Some key ∧ key ≠ []
           ∧ classify w s b64
             = (Next (analyzeFeedback s (or_else b64 None) key (gemini_reply w)).1,
                (analyzeFeedback s (or_else b64 None) key (gemini_reply w)).2).
Proof.
  unfold classify. destruct (GEMINI_API_KEY w) as [[|c key]|]; [left|right|left]; auto.
  exists (c :: key). by repeat split.
Qed.

(** A request that reaches the insertion leaves a trace of this shape:
    at most one upload, the effects of the classification, the insertion,
    and a log line or the notification. *)
Lemma POST_reached :
  ∃ url aiData ups gens tail,
    (POST w request m).1.2
    = ups ++ gens ++ InsertRow (lit "feedback") (stored_row request form s url aiData) :: tail
    ∧ (ups = [] ∧ url = None
       ∨ ∃ name type buffer,
           screenshot form = Some (FFile name type buffer) ∧ buffer ≠ []
           ∧ ups = [Upload (lit "feedback") (upload_name w) buffer
                      (lit "image/png") (lit "3600")]
           ∧ (url = None ∨ url = Some (publicUrl w (upload_name w))))
    ∧ Forall quiet gens
    ∧ ((gens = [] ∧ aiData = None
        ∧ (GEMINI_API_KEY w = None ∨ GEMINI_API_KEY w = Some []))
       ∨ ∃ key shot, GEMINI_API_KEY w = Some key ∧ key ≠ []
                     ∧ gens = (analyzeFeedback s shot key (gemini_reply w)).2
                     ∧ aiData = (analyzeFeedback s shot key (gemini_reply w)).1)
    ∧ ((∃ err, error (insert_answer w) = Some err
               ∧ (POST w request m).1.1
                 = {| status := 500; body := error_body (lit "Failed to save feedback") |}
               ∧ tail = [Log (lit "[Feedback] Database error:")])
       ∨ (error (insert_answer w) = None ∧ data (insert_answer w) = None
          ∧ (POST w request m).1.1
            = {| status := 500; body := error_body (lit "Internal server error") |}
          ∧ tail = [Log (lit "[Feedback] Error:")])
       ∨ (∃ id, insert_answer w = {| data := Some id; error := None |}
                ∧ (POST w request m).1.1
                  = {| status := 200;
                       body := JObj [(lit "id", JStr id);
                                     (lit "ai_data", json_of_option aiData);
                                     (lit "message", JStr (lit "Feedback received"))] |}
                ∧ tail = [Notify {| n_id := id; n_message_raw := s;
                                    n_page_url := pageUrl; n_ai_data := aiData |}])).
Proof.
  assert (∃ url b64 ups,
            handle_screenshot w (screenshot form) = (Next (url, b64), ups)
            ∧ (ups = [] ∧ url = None
               ∨ ∃ name type buffer,
                   screenshot form = Some (FFile name type buffer) ∧ buffer ≠ []
                   ∧ ups = [Upload (lit "feedback") (upload_name w) buffer
                              (lit "image/png") (lit "3600")]
                   ∧ (url = None ∨ url = Some (publicUrl w (upload_name w)))))
    as (url & b64 & ups & Hshot & Hups).
  { destruct (handle_screenshot_cases (screenshot form))
      as [H|(name & type & buffer & Hv & Hb & H)]; rewrite H.
    - do 3 eexists. split; [reflexivity | by left].
    - do 3 eexists. split; [reflexivity|]. right. exists name, type, buffer.
      repeat split; try done.
      destruct (error (upload_answer w)), (data (upload_answer w)); auto. }
  assert (∃ aiData gens,
            classify w s b64 = (Next aiData, gens)
            ∧ ((gens = [] ∧ aiData = None
                ∧ (GEMINI_API_KEY w = None ∨ GEMINI_API_KEY w = Some []))
               ∨ ∃ key shot, GEMINI_API_KEY w = Some key ∧ key ≠ []
                             ∧ gens = (analyzeFeedback s shot key (gemini_reply w)).2
                             ∧ aiData = (analyzeFeedback s shot key (gemini_reply w)).1))
    as (aiData & gens & Hai & Hgens).
  { destruct (classify_cases b64) as [[Hk H]|(key & Hk & Hne & H)]; rewrite H.
    - do 2 eexists. split; [reflexivity|]. by left.
    - do 2 eexists. split; [reflexivity|]. right. by exists key, (or_else b64 None). }
  exists url, aiData, ups, gens.
  rewrite (POST_accepted w request m form s url b64 ups aiData gens Hreach Hshot Hai).
  cbv zeta. fold pageUrl.
  assert (Hq : Forall quiet gens).
  { destruct Hgens as [(-> & _)|(key & shot & _ & _ & -> & _)];
      [constructor | apply analyzeFeedback_quiet]. }
  destruct (insert_answer w) as [d e]. simpl.
  destruct e as [err|]; [|destruct d as [id|]]; eexists;
    (split; [reflexivity|]); (split; [exact Hups|]); (split; [exact Hq|]);
    (split; [exact Hgens|]).
  - left. by exists err.
  - right; right. by exists id.
  - right; left. done.
Qed.

End Reached.

(** ** What every request leaves behind *)

Section Traces.

Variables (w : World) (request : Request) (m : RateMap).

Lemma omap_quiet_inserted gens tail :
  Forall quiet gens → inserted (gens ++ tail) = inserted tail.
Proof.
  intros Hq. unfold inserted. rewrite omap_app. fold (inserted gens).
  by rewrite (inserted_quiet gens Hq).
Qed.

Lemma omap_quiet_notified gens tail :
  Forall quiet gens → notified (gens ++ tail) = notified tail.
Proof.
  intros Hq. unfold notified. rewrite omap_app. fold (notified gens).
  by rewrite (notified_quiet gens Hq).
Qed.

Lemma uploads_quiet gens : Forall quiet gens → uploads gens = [].
Proof.
  induction 1 as [|e es He _ IH]; [done|]. destruct e; simpl in *; done.
Qed.

Lemma uploads_app (a b : list Effect) : uploads (a ++ b) = uploads a ++ uploads b.
Proof. apply omap_app. Qed.

Lemma model_calls_app (a b : list Effect) :
  model_calls (a ++ b) = model_calls a ++ model_calls b.
Proof. apply omap_app. Qed.

Lemma inserted_app (a b : list Effect) : inserted (a ++ b) = inserted a ++ inserted b.
Proof. apply omap_app. Qed.

Lemma notified_app (a b : list Effect) : notified (a ++ b) = notified a ++ notified b.
Proof. apply omap_app. Qed.

(** The trace of a request that does not reach the insertion is empty or a
    single log line. *)
Lemma POST_trace :
  (POST w request m).1.2 = []
  ∨ (∃ msg, (POST w request m).1.2 = [Log msg])
  ∨ ∃ form s, reaches_storage w request m form s.
Proof.
  destruct (POST_paths w request m) as [[_ H]|[_ [H|[H|[H|H]]]]];
    try (rewrite H; cbn [snd]; eauto); auto.
Qed.

End Traces.

(** X6. Whatever the request and the state of the collaborators, the
    response is one of: 200 with an id and a message; 429 'Too many
    requests'; 400 'Message is required'; 500 'Failed to save feedback';
    500 'Internal server error'. No other status and no other error text
    leaves the handler. *)
Theorem POST_answers_closed_set (w : World) (request : Request) (m : RateMap) :
  let r := (POST w request m).1.1 in
  (status r = 200
   ∧ ∃ id msg rest, body r = JObj ((lit "id", JStr id) :: rest)
                    ∧ get (lit "message") (body r) = Some (JStr msg)
                    ∧ get (lit "error") (body r) = None)
  ∨ r = {| status := 429; body := error_body (lit "Too many requests") |}
  ∨ r = {| status := 400; body := error_body (lit "Message is required") |}
  ∨ r = {| status := 500; body := error_body (lit "Failed to save feedback") |}
  ∨ r = {| status := 500; body := error_body (lit "Internal server error") |}.
Proof.
  intros r. subst r.
  destruct (POST_paths w request m) as [[_ H]|[_ [H|[H|[H|(form & s & H)]]]]].
  - rewrite H. auto.
  - rewrite H. auto 6.
  - rewrite H. left. split; [done|]. do 3 eexists.
    split; [reflexivity|]. split; vm_compute; reflexivity.
  - rewrite H. auto.
  - destruct (POST_reached w request m form s H)
      as (url & aiData & ups & gens & tail & _ & _ & _ & _ & Hout).
    destruct Hout as [(err & _ & -> & _)|[(_ & _ & -> & _)|(id & _ & -> & _)]]; auto 6.
    left. split; [done|]. do 3 eexists.
    split; [reflexivity|]. split; vm_compute; reflexivity.
Qed.

(** X7. A request that the limiter admits and whose body cannot be read as
    a form, or whose website field is a file, or (the honeypot test
    passed) whose message field is a file, is answered 500 'Internal server
    error', with one log line and nothing else: no upload, no call of the
    model, no insertion, no notification. *)
Theorem unreadable_submission_is_internal_error (w : World) (request : Request)
    (m : RateMap) :
  (checkRateLimit (clock w) (client_ip (headers request)) m).1 = true →
  (formData request = None
   ∨ ∃ form name type content,
       formData request = Some form
       ∧ (website form = Some (FFile name type content)
          ∨ honeypot_clear (website form)
            ∧ message form = Some (FFile name type content))) →
  (POST w request m).1
  = ({| status := 500; body := error_body (lit "Internal server error") |},
     [Log (lit "[Feedback] Error:")]).
Proof.
  intros Hok [Hform|(form & name & type & content & Hform & [Hweb|[Hbot Hmsg]])].
  - by apply POST_unreadable.
  - by apply (POST_website_file w request m form name type content).
  - by apply (POST_message_file w request m form name type content).
Qed.

Lemma unreadable_submission_is_internal_error_witness :
  (POST sample_world {| headers := sample_headers; formData := None |} ∅).1
  = ({| status := 500; body := error_body (lit "Internal server error") |},
     [Log (lit "[Feedback] Error:")])
  ∧ (POST sample_world (request_of form_website_file) ∅).1
    = ({| status := 500; body := error_body (lit "Internal server error") |},
       [Log (lit "[Feedback] Error:")]).
Proof.
  split.
  - apply (unreadable_submission_is_internal_error sample_world
             {| headers := sample_headers; formData := None |} ∅).
    + vm_compute. reflexivity.
    + left. reflexivity.
  - apply (unreadable_submission_is_internal_error sample_world
             (request_of form_website_file) ∅).
    + vm_compute. reflexivity.
    + right. exists form_website_file, (lit "w.txt"), (lit "text/plain"), [x41].
      split; [reflexivity|]. left. reflexivity.
Defined.

(** X8. Whatever the request, the handler uploads at most one file, calls
    the model at most once, inserts at most one row and dispatches at most
    one notification; an upload or a call of the model is always followed
    by the insertion of a row, and a notification is never dispatched
    without one. *)
Theorem one_call_per_collaborator (w : World) (request : Request) (m : RateMap) :
  let es := (POST w request m).1.2 in
  (length (uploads es) <= 1)%nat
  ∧ (length (model_calls es) <= 1)%nat
  ∧ (length (inserted es) <= 1)%nat
  ∧ (length (notified es) <= 1)%nat
  ∧ (uploads es ≠ [] ∨ model_calls es ≠ [] ∨ notified es ≠ [] →
     length (inserted es) = 1%nat).
Proof.
  intros es. subst es.
  destruct (POST_trace w request m) as [H|[(msg & H)|(form & s & H)]].
  - rewrite H. repeat split; simpl; try lia. intros [?|[?|?]]; done.
  - rewrite H. repeat split; simpl; try lia. intros [?|[?|?]]; done.
  - destruct (POST_reached w request m form s H)
      as (url & aiData & ups & gens & tail & -> & Hups & Hq & Hgens & Hout).
    assert (Htail : uploads tail = [] ∧ model_calls tail = [] ∧ inserted tail = []
                    ∧ (length (notified tail) <= 1)%nat).
    { destruct Hout as [(? & _ & _ & ->)|[(_ & _ & _ & ->)|(? & _ & _ & ->)]];
        repeat split; simpl; lia. }
    destruct Htail as (Hu & Hg & Hi & Hn).
    assert (Hups' : (length (uploads ups) <= 1)%nat ∧ model_calls ups = []
                    ∧ inserted ups = [] ∧ notified ups = []).
    { destruct Hups as [[-> _]|(? & ? & ? & _ & _ & -> & _)]; repeat split; simpl; lia. }
    destruct Hups' as (Hu1 & Hg1 & Hi1 & Hn1).
    assert (Hgens' : (length (model_calls gens) <= 1)%nat).
    { destruct Hgens as [(-> & _)|(key & shot & _ & _ & -> & _)]; [simpl; lia|].
      rewrite analyzeFeedback_model_calls. destruct (truthy_str key); simpl; lia. }
    rewrite !uploads_app, !model_calls_app, !inserted_app, !notified_app.
    change (uploads (InsertRow ?t ?r :: tail)) with (uploads tail).
    change (model_calls (InsertRow ?t ?r :: tail)) with (model_calls tail).
    change (inserted (InsertRow ?t ?r :: tail)) with (r :: inserted tail).
    change (notified (InsertRow ?t ?r :: tail)) with (notified tail).
    rewrite (uploads_quiet gens Hq), (inserted_quiet gens Hq), (notified_quiet gens Hq).
    rewrite Hu, Hg, Hi, Hg1, Hi1, Hn1, !length_app. simpl. repeat split; lia.
Qed.

Lemma one_call_per_collaborator_witness :
  length (inserted (POST sample_world (request_of form_with_jpeg) ∅).1.2) = 1%nat.
Proof.
  destruct (one_call_per_collaborator sample_world (request_of form_with_jpeg) ∅)
    as (_ & _ & _ & _ & H).
  apply H. left. vm_compute. discriminate.
Defined.

Section Rows.

Variables (w : World) (request : Request) (m : RateMap).

Lemma or_lit_nonempty (a : option str) (d : str) : d ≠ [] → or_lit a d ≠ [].
Proof. intros Hd. destruct a as [[|c x]|]; done. Qed.

Lemma or_else_none_nonempty (a : option str) : or_else a None ≠ Some [].
Proof. destruct a as [[|c x]|]; done. Qed.

Lemma unknown_nonempty : lit "unknown" ≠ [].
Proof. intros H. vm_compute in H. discriminate. Qed.

(** The rows and notifications of a request: none, unless it reaches the
    insertion; then one row, and the notification the insertion allows. *)
Lemma POST_rows :
  (inserted (POST w request m).1.2 = [] ∧ notified (POST w request m).1.2 = []
   ∧ model_calls (POST w request m).1.2 = [])
  ∨ ∃ form s url aiData,
      reaches_storage w request m form s
      ∧ inserted (POST w request m).1.2 = [stored_row request form s url aiData]
      ∧ (url = None ∨ url = Some (publicUrl w (upload_name w)))
      ∧ (aiData = None
         ∧ (model_calls (POST w request m).1.2 = []
            ∨ ∃ key, GEMINI_API_KEY w = Some key ∧ key ≠ [])
         ∨ ∃ key shot, GEMINI_API_KEY w = Some key ∧ key ≠ []
                       ∧ aiData = (analyzeFeedback s shot key (gemini_reply w)).1)
      ∧ (notified (POST w request m).1.2 = []
         ∧ status (POST w request m).1.1 = 500
         ∨ ∃ id, insert_answer w = {| data := Some id; error := None |}
                 ∧ (POST w request m).1.1
                   = {| status := 200;
                        body := JObj [(lit "id", JStr id);
                                      (lit "ai_data", json_of_option aiData);
                                      (lit "message", JStr (lit "Feedback received"))] |}
                 ∧ notified (POST w request m).1.2
                   = [{| n_id := id; n_message_raw := s;
                         n_page_url := page_url (stored_row request form s url aiData);
                         n_ai_data := aiData |}]).
Proof.
  destruct (POST_trace w request m) as [H|[(msg & H)|(form & s & H)]];
    [left; by rewrite H | left; by rewrite H | right].
  destruct (POST_reached w request m form s H)
    as (url & aiData & ups & gens & tail & Hes & Hups & Hq & Hgens & Hout).
  exists form, s, url, aiData. split; [done|].
  assert (Hups' : model_calls ups = [] ∧ inserted ups = [] ∧ notified ups = []
                  ∧ (url = None ∨ url = Some (publicUrl w (upload_name w)))).
  { destruct Hups as [[-> ->]|(? & ? & ? & _ & _ & -> & ?)]; repeat split; auto. }
  destruct Hups' as (Hg1 & Hi1 & Hn1 & Hurl).
  assert (Hi : inserted (POST w request m).1.2 = stored_row request form s url aiData
                                                  :: inserted tail).
  { rewrite Hes, !inserted_app, Hi1, (inserted_quiet gens Hq). reflexivity. }
  assert (Hn : notified (POST w request m).1.2 = notified tail).
  { rewrite Hes, !notified_app, Hn1, (notified_quiet gens Hq). reflexivity. }
  assert (Hg : model_calls (POST w request m).1.2 = model_calls gens ++ model_calls tail).
  { rewrite Hes, !model_calls_app, Hg1. reflexivity. }
  rewrite Hi, Hn. clear Hes.
  split; [|split; [exact Hurl|split]].
  - destruct Hout as [(? & _ & _ & ->)|[(_ & _ & _ & ->)|(? & _ & _ & ->)]]; done.
  - destruct Hgens as [(-> & -> & _)|(key & shot & Hk & Hne & -> & ->)].
    + left. split; [done|]. left. rewrite Hg.
      destruct Hout as [(? & _ & _ & ->)|[(_ & _ & _ & ->)|(? & _ & _ & ->)]]; done.
    + right. by exists key, shot.
  - destruct Hout as [(? & _ & -> & ->)|[(_ & _ & -> & ->)|(id & ? & -> & ->)]];
      [by left | by left | right]. by exists id.
Qed.

End Rows.

(** X9. Every row the handler hands to the storage carries the message as
    it was sent, not blank; the status 'new'; a page URL that is not empty
    ('unknown' when no header gives one); no empty user agent and no empty
    project (null instead); as screenshot reference null or the public URL
    of the uploaded file; and as classification null or a reply that passed
    the validation of the classification client. *)
Theorem stored_rows_are_well_formed (w : World) (request : Request) (m : RateMap)
    (row : Row) :
  row ∈ inserted (POST w request m).1.2 →
  (∃ form, formData request = Some form
           ∧ message form = Some (FText (message_raw row)))
  ∧ trim (message_raw row) ≠ []
  ∧ row_status row = lit "new"
  ∧ page_url row ≠ []
  ∧ user_agent row ≠ Some []
  ∧ project_id row ≠ Some (FText [])
  ∧ (screenshot_url row = None
     ∨ screenshot_url row = Some (publicUrl w (upload_name w)))
  ∧ (ai_data row = None
     ∨ ∃ v, ai_data row = Some v ∧ invalid_structure v = false).
Proof.
  intros Hrow.
  destruct (POST_rows w request m)
    as [(Hi & _)|(form & s & url & aiData & Hreach & Hi & Hurl & Hai & _)];
    rewrite Hi in Hrow; [by apply elem_of_nil in Hrow|].
  apply list_elem_of_singleton in Hrow. subst row.
  destruct Hreach as (_ & Hform & _ & Hmsg & Hs).
  split; [by exists form|]. split; [done|]. split; [done|].
  split; [apply or_lit_nonempty, unknown_nonempty|].
  split; [apply or_else_none_nonempty|].
  split.
  { simpl. destruct (project form) as [[[|c p]|]|]; done. }
  split; [exact Hurl|]. simpl.
  destruct Hai as [[-> _]|(key & shot & _ & _ & ->)]; [by left|].
  destruct (analyzeFeedback s shot key (gemini_reply w)).1 as [v|] eqn:Hv; [|by left].
  right. exists v. split; [done|].
  by apply analyzeFeedback_some in Hv as (? & _ & _ & ?).
Qed.

Lemma stored_rows_are_well_formed_witness :
  ∃ row, row ∈ inserted (POST sample_world (request_of form_with_jpeg) ∅).1.2
         ∧ message_raw row = lit "Export button does nothing"
         ∧ trim (message_raw row) ≠ []
         ∧ row_status row = lit "new".
Proof.
  eexists. split; [vm_compute; left|].
  split; [reflexivity|].
  refine (let H := stored_rows_are_well_formed sample_world (request_of form_with_jpeg)
                     ∅ _ _ in conj (proj1 (proj2 H)) (proj1 (proj2 (proj2 H)))).
  vm_compute. left.
Defined.

(** X10. A notification is dispatched only for a row that was inserted
    and acknowledged with an id: it carries that id, and the message, page
    URL and classification of the row; the response is then 200 with the
    same id and classification. *)
Theorem notification_matches_row (w : World) (request : Request) (m : RateMap)
    (n : Notice) :
  n ∈ notified (POST w request m).1.2 →
  ∃ row, inserted (POST w request m).1.2 = [row]
         ∧ insert_answer w = {| data := Some (n_id n); error := None |}
         ∧ n_message_raw n = message_raw row
         ∧ n_page_url n = page_url row
         ∧ n_ai_data n = ai_data row
         ∧ (POST w request m).1.1
           = {| status := 200;
                body := JObj [(lit "id", JStr (n_id n));
                              (lit "ai_data", json_of_option (ai_data row));
                              (lit "message", JStr (lit "Feedback received"))] |}.
Proof.
  intros Hn.
  destruct (POST_rows w request m)
    as [(_ & Hnone & _)|(form & s & url & aiData & _ & Hi & _ & _ & Hout)].
  { rewrite Hnone in Hn. by apply elem_of_nil in Hn. }
  destruct Hout as [[Hnone _]|(id & Hins & Hresp & Hnot)].
  { rewrite Hnone in Hn. by apply elem_of_nil in Hn. }
  rewrite Hnot in Hn. apply list_elem_of_singleton in Hn. subst n.
  eexists. split; [exact Hi|]. by repeat split.
Qed.

Lemma notification_matches_row_witness :
  ∃ n row, n ∈ notified (POST sample_world (request_of form_genuine) ∅).1.2
           ∧ inserted (POST sample_world (request_of form_genuine) ∅).1.2 = [row]
           ∧ n_id n = lit "row-1"
           ∧ n_ai_data n = ai_data row.
Proof.
  eexists. 
  assert (Hn : {| n_id := lit "row-1";
                  n_message_raw := lit "Export button does nothing";
                  n_page_url := lit "https://app.example/reports";
                  n_ai_data := JSON_parse reply_export_bug |}
               ∈ notified (POST sample_world (request_of form_genuine) ∅).1.2)
    by (vm_compute; left).
  destruct (notification_matches_row sample_world (request_of form_genuine) ∅ _ Hn)
    as (row & Hi & _ & _ & _ & Hai & _).
  exists row. split; [exact Hn|]. repeat split; [exact Hi | exact Hai].
Defined.

(** X11. Without a Gemini key in the environment (absent, or empty), the
    model is never called, whatever the request, and the row inserted and
    the notification dispatched, if any, carry a null classification. *)
Theorem missing_key_skips_classification (w : World) (request : Request) (m : RateMap) :
  GEMINI_API_KEY w = None ∨ GEMINI_API_KEY w = Some [] →
  model_calls (POST w request m).1.2 = []
  ∧ (∀ row, row ∈ inserted (POST w request m).1.2 → ai_data row = None)
  ∧ (∀ n, n ∈ notified (POST w request m).1.2 → n_ai_data n = None).
Proof.
  intros Hkey.
  assert (Hno : ∀ key, GEMINI_API_KEY w = Some key → key ≠ [] → False).
  { intros key Hk Hne. destruct Hkey as [H|H]; rewrite H in Hk; [done|].
    by injection Hk as <-. }
  destruct (POST_rows w request m)
    as [(Hi & Hn & Hg)|(form & s & url & aiData & _ & Hi & _ & Hai & Hout)].
  { rewrite Hi, Hn, Hg. repeat split; by intros ? ?%elem_of_nil. }
  destruct Hai as [[-> [Hg|(key & Hk & Hne)]]|(key & shot & Hk & Hne & _)];
    try (by destruct (Hno key)).
  split; [exact Hg|]. split.
  - intros row. rewrite Hi. by intros ->%list_elem_of_singleton.
  - intros n. destruct Hout as [[-> _]|(id & _ & _ & ->)];
      [by intros ?%elem_of_nil | by intros ->%list_elem_of_singleton].
Qed.

Lemma missing_key_skips_classification_witness :
  model_calls (POST world_without_key (request_of form_with_jpeg) ∅).1.2 = [].
Proof.
  apply (missing_key_skips_classification world_without_key
           (request_of form_with_jpeg) ∅).
  left. reflexivity.
Defined.

(** ** The identity of a client *)

Lemma first_entry (x : str) : nth_str 0 (split_char 44 x) = take_until 44 x.
Proof.
  unfold nth_str. induction x as [|c x IH]; [done|].
  cbn [split_char take_until]. destruct (N.eqb c 44); [done|].
  destruct (split_char 44 x) as [|h t]; simpl in *; by rewrite <- IH.
Qed.

Lemma take_until_free (c : N) (x : str) : c ∉ take_until c x.
Proof.
  induction x as [|a x IH]; [apply not_elem_of_nil|].
  cbn [take_until]. destruct (N.eqb_spec a c); [apply not_elem_of_nil|].
  apply not_elem_of_cons. split; [congruence | done].
Qed.

(** X12. The identity under which a request is counted is never empty.
    It is the text before the first comma of x-forwarded-for when that
    text is not empty (and then holds no comma), whatever x-real-ip says;
    otherwise x-real-ip when that is not empty; otherwise 'unknown'. *)
Theorem client_ip_is_usable (h : Headers) :
  client_ip h ≠ []
  ∧ (∀ x, x_forwarded_for h = Some x → take_until 44 x ≠ [] →
          client_ip h = take_until 44 x ∧ 44%N ∉ client_ip h)
  ∧ (x_forwarded_for h = None
     ∨ (∃ x, x_forwarded_for h = Some x ∧ take_until 44 x = []) →
     (∀ y, x_real_ip h = Some y → y ≠ [] → client_ip h = y)
     ∧ (x_real_ip h = None ∨ x_real_ip h = Some [] → client_ip h = lit "unknown")).
Proof.
  unfold client_ip. split; [apply or_lit_nonempty, unknown_nonempty|]. split.
  - intros x -> Hx. cbn [fmap option_fmap option_map]. rewrite first_entry.
    destruct (take_until 44 x) as [|c t] eqn:Ht; [done|]. simpl.
    split; [done|]. rewrite <- Ht. apply take_until_free.
  - intros Hxff.
    assert (Hnone : or_else ((λ s, nth_str 0 (split_char 44 s)) <$> x_forwarded_for h)
                            (x_real_ip h) = x_real_ip h).
    { destruct Hxff as [->|(x & -> & Hx)]; [done|].
      cbn [fmap option_fmap option_map]. by rewrite first_entry, Hx. }
    rewrite Hnone. split.
    + intros y -> Hy. by destruct y.
    + by intros [->| ->].
Qed.

Lemma client_ip_is_usable_witness :
  client_ip sample_headers = take_until 44 (lit "203.0.113.7, 10.0.0.1")
  ∧ 44%N ∉ client_ip sample_headers.
Proof.
  apply (proj1 (proj2 (client_ip_is_usable sample_headers))
           (lit "203.0.113.7, 10.0.0.1")).
  - reflexivity.
  - vm_compute. discriminate.
Defined.

(** ** The limiter across requests *)

Section Budget.

Implicit Types (m : RateMap) (ip : str) (now : Z).

Lemma checkRateLimit_refused m ip now :
  (checkRateLimit now ip m).1 = false →
  (checkRateLimit now ip m).2 = m
  ∧ ∃ e, m !! ip = Some e ∧ now <= resetAt e ∧ RATE_LIMIT <= count e.
Proof.
  unfold checkRateLimit. destruct (m !! ip) as [e|] eqn:He; [|done].
  destruct (Z.gtb_spec now (resetAt e)); [done|].
  destruct (Z.geb_spec (count e) RATE_LIMIT); [|done].
  intros _. split; [done|]. exists e. repeat split; lia.
Qed.

Lemma checkRateLimit_admitted m ip now :
  (checkRateLimit now ip m).1 = true →
  ∃ e, (checkRateLimit now ip m).2 = <[ip := e]> m
       ∧ (opens_window m ip now ∧ e = {| count := 1; resetAt := now + RATE_WINDOW |}
          ∨ ∃ e0, m !! ip = Some e0 ∧ now <= resetAt e0 ∧ count e0 < RATE_LIMIT
                  ∧ e = {| count := count e0 + 1; resetAt := resetAt e0 |}).
Proof.
  unfold checkRateLimit, opens_window. destruct (m !! ip) as [e0|] eqn:He.
  - destruct (Z.gtb_spec now (resetAt e0)).
    + intros _. eexists. split; [reflexivity|]. left. split; [|done].
      right. exists e0. split; [done | lia].
    + destruct (Z.geb_spec (count e0) RATE_LIMIT); [done|].
      intros _. eexists. split; [reflexivity|]. right. exists e0.
      repeat split; try done; lia.
  - intros _. eexists. split; [reflexivity|]. left. by split; [left|].
Qed.

Lemma checkRateLimit_table_ok m ip now :
  table_ok m → table_ok (checkRateLimit now ip m).2.
Proof.
  intros Hm. destruct (checkRateLimit now ip m).1 eqn:Hok.
  - destruct (checkRateLimit_admitted m ip now Hok) as (e & -> & He).
    intros ip' e'. rewrite lookup_insert. case_decide as Hip.
    + intros [= <-].
      destruct He as [[_ ->]|(e0 & He0 & _ & Hlt & ->)]; simpl.
      * unfold RATE_LIMIT. lia.
      * specialize (Hm ip e0 He0). lia.
    + apply Hm.
  - by destruct (checkRateLimit_refused m ip now Hok) as [-> _].
Qed.

Lemma checkRateLimit_dom m ip now :
  dom m ⊆ dom (checkRateLimit now ip m).2 ∧ ip ∈ dom (checkRateLimit now ip m).2.
Proof.
  destruct (checkRateLimit now ip m).1 eqn:Hok.
  - destruct (checkRateLimit_admitted m ip now Hok) as (e & -> & _).
    rewrite dom_insert_L. set_solver.
  - destruct (checkRateLimit_refused m ip now Hok) as [-> (e & He & _)].
    split; [done|]. apply elem_of_dom. by exists e.
Qed.

(** The status 429 is the refusal of the limiter, and nothing else. *)
Lemma status_429_iff (w : World) (request : Request) m :
  status (POST w request m).1.1 = 429
  ↔ (checkRateLimit (clock w) (client_ip (headers request)) m).1 = false.
Proof.
  destruct (POST_paths w request m) as [[Hok H]|[Hok [H|[H|[H|(form & s & H)]]]]];
    rewrite Hok; try (rewrite H; simpl; split; done).
  destruct (POST_reached w request m form s H)
    as (url & aiData & ups & gens & tail & _ & _ & _ & _ & Hout).
  destruct Hout as [(? & _ & -> & _)|[(_ & _ & -> & _)|(? & _ & -> & _)]];
    simpl; split; done.
Qed.

(** Handling requests one after the other drives the limiter as [serve]
    does. *)
Lemma handle_all_serve (reqs : list (World * Request)) :
  ∀ m, (handle_all reqs m).2 = (serve (map call_of reqs) m).2
       ∧ map (λ d, (d.1, negb (status d.2.1 =? 429))) (handle_all reqs m).1
         = (serve (map call_of reqs) m).1.
Proof.
  induction reqs as [|[w request] reqs IH]; intros m; [done|].
  cbn [handle_all map serve call_of fst snd].
  pose proof (POST_rate_table w request m) as Htab.
  pose proof (status_429_iff w request m) as Hst.
  destruct (POST w request m) as [r m1]. simpl in Htab, Hst. subst m1.
  destruct (checkRateLimit (clock w) (client_ip (headers request)) m) as [ok m1].
  simpl in *. destruct (IH m1) as [IH1 IH2].
  destruct (handle_all reqs m1) as [rs m2].
  destruct (serve (map call_of reqs) m1) as [ds m2']. simpl in *.
  split; [done|]. f_equal; [|done]. f_equal.
  destruct ok.
  - destruct (Z.eqb_spec (status r.1) 429) as [H429|]; [|done].
    apply Hst in H429. done.
  - by rewrite (proj2 Hst eq_refl).
Qed.

Lemma lookup_filter_map {A B} (ip : str) (f : A → B) (l : list (str * A)) :
  ∀ (k : nat) (x : A),
    map snd (filter (λ d, d.1 = ip) l) !! k = Some x →
    map snd (filter (λ d, d.1 = ip) (map (λ d, (d.1, f d.2)) l)) !! k = Some (f x).
Proof.
  induction l as [|[i a] l IH]; intros k x; [done|].
  cbn [map]. rewrite !filter_cons. simpl.
  destruct (decide (i = ip)); simpl; [|apply IH].
  destruct k as [|k]; simpl; [by intros [= ->] | apply IH].
Qed.

(** From the call that opens a window, the decisions for the identity. *)
Lemma serve_from_opening m ip (t0 : Z) (rest : list (str * Z)) :
  opens_window m ip t0 →
  (∀ t, (ip, t) ∈ rest → t <= t0 + RATE_WINDOW) →
  ∀ (k : nat) (b : bool),
    decisions_of ip (serve ((ip, t0) :: rest) m).1 !! k = Some b →
    b = bool_decide (Z.of_nat k < RATE_LIMIT).
Proof.
  intros Hopen Hrest. simpl. rewrite (checkRateLimit_open _ _ _ Hopen).
  destruct (serve rest _) as [ds m2] eqn:Hs. simpl.
  unfold decisions_of. rewrite filter_cons. simpl.
  rewrite decide_True by done. simpl.
  intros [|k] b.
  - simpl. intros [= <-]. reflexivity.
  - simpl. intros Hk.
    assert (Hb := serve_in_window ip rest
                    (<[ip:={| count := 1; resetAt := t0 + RATE_WINDOW |}]> m)
                    1 (t0 + RATE_WINDOW) (lookup_insert_eq _ _ _)).
    rewrite Hs in Hb. simpl in Hb. rewrite (Hb Hrest k b Hk).
    apply bool_decide_ext. lia.
Qed.

End Budget.

(** X13. The status 429 is given exactly when the limiter refuses the
    call; the request then leaves no trace at all (not even a log line)
    and the table is unchanged. Every other request, whatever its fate,
    takes one unit of the budget of its identity: its entry is created with
    count 1, or, in an open window, its count goes up by one. *)
Theorem refusal_leaves_no_trace (w : World) (request : Request) (m : RateMap) :
  let ip := client_ip (headers request) in
  let r := POST w request m in
  (status r.1.1 = 429 ↔ (checkRateLimit (clock w) ip m).1 = false)
  ∧ (status r.1.1 = 429 → r.1.2 = [] ∧ r.2 = m)
  ∧ (status r.1.1 ≠ 429 →
     ∃ e, r.2 = <[ip := e]> m
          ∧ (opens_window m ip (clock w) → count e = 1)
          ∧ (∀ e0, m !! ip = Some e0 → clock w <= resetAt e0 →
                   count e = count e0 + 1 ∧ resetAt e = resetAt e0)).
Proof.
  intros ip r. subst r. split; [apply status_429_iff|]. split.
  - intros H. apply status_429_iff in H. fold ip in H.
    rewrite POST_rate_table, (POST_limited w request m H). fold ip.
    by destruct (checkRateLimit_refused m ip (clock w) H) as [-> _].
  - intros H.
    assert (Hok : (checkRateLimit (clock w) ip m).1 = true).
    { destruct (checkRateLimit (clock w) ip m).1 eqn:Hok; [done|].
      by apply status_429_iff in Hok. }
    rewrite POST_rate_table. fold ip.
    destruct (checkRateLimit_admitted m ip (clock w) Hok) as (e & -> & He).
    exists e. split; [done|].
    destruct He as [[Hopen ->]|(e0 & He0 & Hnow & Hlt & ->)]; split; simpl.
    + done.
    + intros e0 He0 Hnow. destruct Hopen as [Hnone|(e1 & He1 & Hgt)];
        [by rewrite Hnone in He0|]. rewrite He0 in He1. injection He1 as <-. lia.
    + intros [Hnone|(e1 & He1 & Hgt)]; [by rewrite Hnone in He0|].
      rewrite He0 in He1. injection He1 as <-. lia.
    + intros e1 He1 _. rewrite He0 in He1. by injection He1 as <-.
Qed.

Lemma refusal_leaves_no_trace_witness :
  (POST sample_world (request_of form_with_jpeg) table_full).1.2 = []
  ∧ (POST sample_world (request_of form_with_jpeg) table_full).2 = table_full.
Proof.
  apply (proj1 (proj2 (refusal_leaves_no_trace sample_world
                         (request_of form_with_jpeg) table_full))).
  vm_compute. reflexivity.
Defined.

(** X14. However many requests are handled, from a table whose counts lie
    between 1 and the limit: every count stays between 1 and the limit, no
    entry is ever removed, and every identity that sent a request has an
    entry. *)
Theorem table_stays_within_limit (reqs : list (World * Request)) (m : RateMap) :
  table_ok m →
  table_ok (handle_all reqs m).2
  ∧ dom m ⊆ dom (handle_all reqs m).2
  ∧ ∀ wr, wr ∈ reqs → client_ip (headers wr.2) ∈ dom (handle_all reqs m).2.
Proof.
  revert m. induction reqs as [|[w request] reqs IH]; intros m Hm.
  { simpl. split; [exact Hm|]. split; [done|]. intros ? H. by apply elem_of_nil in H. }
  cbn [handle_all].
  pose proof (POST_rate_table w request m) as Htab.
  destruct (POST w request m) as [r m1]. simpl in Htab. subst m1.
  pose proof (checkRateLimit_table_ok m (client_ip (headers request)) (clock w) Hm) as Hm1.
  pose proof (checkRateLimit_dom m (client_ip (headers request)) (clock w)) as [Hd1 Hd2].
  destruct (IH _ Hm1) as (IH1 & IH2 & IH3).
  destruct (handle_all reqs _) as [rs m2]. simpl in *.
  split; [done|]. split; [by etrans|].
  intros wr [->|Hwr]%elem_of_cons; [by apply IH2 | by apply IH3].
Qed.

Lemma table_stays_within_limit_witness :
  table_ok (handle_all eleven_requests ∅).2
  ∧ dom (∅ : RateMap) ⊆ dom (handle_all eleven_requests ∅).2
  ∧ ∀ wr, wr ∈ eleven_requests →
          client_ip (headers wr.2) ∈ dom (handle_all eleven_requests ∅).2.
Proof.
  apply (table_stays_within_limit eleven_requests ∅).
  intros ip e H. vm_compute in H. discriminate.
Defined.

(** X15. From the request that opens a window for an identity, and for as
    long as the requests of that identity fall within RATE_WINDOW of it,
    the k-th request of the identity (counting from 0, whatever the
    requests hold and whatever other identities send in between) is
    answered 429 exactly when k is RATE_LIMIT or more: the first ten get
    another status, the eleventh and the following get 429. *)
Theorem eleventh_request_refused (w0 : World) (request0 : Request)
    (rest : list (World * Request)) (m : RateMap) :
  let ip := client_ip (headers request0) in
  opens_window m ip (clock w0) →
  Forall (λ wr, client_ip (headers wr.2) = ip → clock wr.1 <= clock w0 + RATE_WINDOW)
         rest →
  ∀ (k : nat) r,
    answers_to ip (handle_all ((w0, request0) :: rest) m).1 !! k = Some r →
    (status r.1 = 429 ↔ RATE_LIMIT <= Z.of_nat k).
Proof.
  intros ip Hopen Hrest k r Hk.
  destruct (handle_all_serve ((w0, request0) :: rest) m) as [_ Hds].
  assert (Hdec : decisions_of ip (serve (map call_of ((w0, request0) :: rest)) m).1 !! k
                 = Some (negb (status r.1 =? 429))).
  { rewrite <- Hds. unfold decisions_of, answers_to in *.
    set (rs := (handle_all ((w0, request0) :: rest) m).1) in *.
    by apply (lookup_filter_map ip
                (λ a : Response * list Effect, negb (status a.1 =? 429))). }
  cbn [map call_of fst snd] in Hdec. fold ip in Hdec.
  apply (serve_from_opening m ip (clock w0)) in Hdec; [| done |].
  - destruct (Z.eqb_spec (status r.1) 429) as [H429|H429]; simpl in Hdec.
    + symmetry in Hdec. apply bool_decide_eq_false_1 in Hdec. split; [lia | done].
    + symmetry in Hdec. apply bool_decide_eq_true_1 in Hdec. split; [done | lia].
  - intros t Ht. apply list_elem_of_In, in_map_iff in Ht as ([w request] & [= Hip <-] & Hin).
    rewrite Forall_forall in Hrest. apply (Hrest (w, request)); [|done].
    by apply list_elem_of_In.
Qed.

Lemma eleventh_request_refused_witness :
  map (λ r : Response * list Effect, status r.1)
      (answers_to (lit "203.0.113.7")
         (handle_all ((sample_world, request_of form_genuine) :: eleven_requests) ∅).1)
  = [200; 200; 200; 400; 200; 200; 200; 200; 200; 200; 429; 429]
  ∧ ∀ (k : nat) r,
      answers_to (client_ip (headers (request_of form_genuine)))
        (handle_all ((sample_world, request_of form_genuine) :: eleven_requests) ∅).1
        !! k = Some r →
      (status r.1 = 429 ↔ RATE_LIMIT <= Z.of_nat k).
Proof.
  split; [vm_compute; reflexivity|].
  apply (eleventh_request_refused sample_world (request_of form_genuine)
           eleven_requests ∅).
  - left. reflexivity.
  - unfold eleven_requests, RATE_WINDOW. repeat constructor; simpl; intros _; lia.
Defined.

(** ** The notification email *)

(** What the validation leaves of a classification that is returned. *)
Lemma validated_fields (s : str) (shot : option str) (key : str)
    (reply : option str) (v : json) :
  (analyzeFeedback s shot key reply).1 = Some v →
  ∃ c p, truthy (Some v) = true
         ∧ truthy (get (lit "short_summary") v) = true
         ∧ truthy (get (lit "suggested_feature_area") v) = true
         ∧ get (lit "suggested_category") v = Some (JStr c) ∧ c ∈ categories ∧ c ≠ []
         ∧ get (lit "suggested_priority") v = Some (JStr p) ∧ p ∈ priorities ∧ p ≠ [].
Proof.
  intros Hai.
  apply analyzeFeedback_some in Hai as (text & _ & _ & Hinv).
  unfold invalid_structure in Hinv.
  repeat (apply orb_false_elim in Hinv as [Hinv ?]).
  repeat match goal with H : negb _ = false |- _ => apply negb_false_iff in H end.
  destruct (includes_elem categories (get (lit "suggested_category") v))
    as (c & Hc & Hcin); [done|].
  destruct (includes_elem priorities (get (lit "suggested_priority") v))
    as (p & Hp & Hpin); [done|].
  exists c, p. repeat split; try done.
  - by destruct v.
  - intros ->. vm_compute in Hcin.
    repeat (apply elem_of_cons in Hcin as [Hcin|Hcin]; [done|]).
    by apply elem_of_nil in Hcin.
  - intros ->. vm_compute in Hpin.
    repeat (apply elem_of_cons in Hpin as [Hpin|Hpin]; [done|]).
    by apply elem_of_nil in Hpin.
Qed.

Section Mail.

Variables (to_string : json → str) (env : MailEnv) (feedback : Notice).

Let category :=
  json_or (get_opt (lit "suggested_category") (n_ai_data feedback)) (lit "unknown").
Let priority :=
  json_or (get_opt (lit "suggested_priority") (n_ai_data feedback)) (lit "medium").

(** The email that is sent, when one is. *)
Lemma sendNotificationEmail_sends (e : Email) :
  Send e ∈ sendNotificationEmail to_string env feedback →
  ∃ resendKey notifyEmail,
    RESEND_API_KEY env = Some resendKey ∧ resendKey ≠ []
    ∧ FEEDBACK_NOTIFY_EMAIL env = Some notifyEmail ∧ notifyEmail ≠ []
    ∧ e = {| e_from := or_lit (RESEND_FROM_EMAIL env) (lit "feedback@yourdomain.com");
             e_to := notifyEmail;
             e_subject :=
               (if is_str priority (lit "high") then red_circle
                else if is_str priority (lit "medium") then yellow_circle
                else green_circle)
               ++ lit " New Feedback: " ++ to_string category;
             e_html := email_html (to_string category) (to_string priority)
                                  (n_page_url feedback) (n_message_raw feedback) |}.
Proof.
  unfold sendNotificationEmail. fold category priority.
  destruct (RESEND_API_KEY env) as [[|c1 k1]|]; simpl;
    try (by intros ?%elem_of_nil).
  destruct (FEEDBACK_NOTIFY_EMAIL env) as [[|c2 k2]|]; simpl;
    try (by intros ?%elem_of_nil).
  intros H. exists (c1 :: k1), (c2 :: k2). repeat split; try done.
  destruct (resend env).
  - apply list_elem_of_singleton in H. done.
  - apply elem_of_cons in H as [[= ->]|H]; [done|].
    apply list_elem_of_singleton in H. done.
  - apply list_elem_of_singleton in H. by injection H.
Qed.

Lemma replace_newlines_free (s : str) : 10%N ∉ replace_newlines s.
Proof.
  induction s as [|c s IH]; [apply not_elem_of_nil|].
  cbn [replace_newlines]. destruct (N.eqb_spec c 10).
  - intros H. apply elem_of_app in H as [H|H]; [|done].
    vm_compute in H. repeat (apply elem_of_cons in H as [H|H]; [done|]).
    by apply elem_of_nil in H.
  - apply not_elem_of_cons. split; [congruence | done].
Qed.

Lemma replace_newlines_id (s : str) : 10%N ∉ s → replace_newlines s = s.
Proof.
  induction s as [|c s IH]; [done|].
  intros [Hc Hs]%not_elem_of_cons. cbn [replace_newlines].
  destruct (N.eqb_spec c 10); [congruence|]. by rewrite IH.
Qed.

End Mail.

(** X16. No email is sent unless both the Resend key and the address to
    notify are set and not empty: the function then does nothing at all.
    When an email is sent it goes to that address, from RESEND_FROM_EMAIL
    or, without one, from feedback@yourdomain.com; at most one email is
    sent per call, and a failure of the Resend client only adds a log
    line. *)
Theorem email_needs_both_keys (to_string : json → str) (env : MailEnv)
    (feedback : Notice) :
  (RESEND_API_KEY env = None ∨ RESEND_API_KEY env = Some []
   ∨ FEEDBACK_NOTIFY_EMAIL env = None ∨ FEEDBACK_NOTIFY_EMAIL env = Some [] →
   sendNotificationEmail to_string env feedback = [])
  ∧ (∀ e, Send e ∈ sendNotificationEmail to_string env feedback →
          (∃ key, RESEND_API_KEY env = Some key ∧ key ≠ [])
          ∧ FEEDBACK_NOTIFY_EMAIL env = Some (e_to e) ∧ e_to e ≠ []
          ∧ e_from e ≠ []
          ∧ (∀ from, RESEND_FROM_EMAIL env = Some from → from ≠ [] → e_from e = from))
  ∧ (∃ e, sendNotificationEmail to_string env feedback = []
          ∨ sendNotificationEmail to_string env feedback
            = [MailLog (lit "[Feedback] Failed to send email:")]
          ∨ sendNotificationEmail to_string env feedback = [Send e]
          ∨ sendNotificationEmail to_string env feedback
            = [Send e; MailLog (lit "[Feedback] Failed to send email:")]).
Proof.
  split; [|split].
  - unfold sendNotificationEmail.
    intros [->|[->|[H|H]]]; try done;
      (destruct (or_else (RESEND_API_KEY env) None); [by rewrite H | done]).
  - intros e He.
    apply sendNotificationEmail_sends in He
      as (key & notify & Hk & Hkne & Hn & Hnne & ->). simpl.
    split; [by exists key|]. split; [done|]. split; [done|]. split.
    + apply or_lit_nonempty. intros H. vm_compute in H. discriminate.
    + intros from -> Hf. by destruct from.
  - unfold sendNotificationEmail.
    destruct (or_else (RESEND_API_KEY env) None);
      [|exists {| e_from := []; e_to := []; e_subject := []; e_html := [] |}; by left].
    destruct (or_else (FEEDBACK_NOTIFY_EMAIL env) None);
      [|exists {| e_from := []; e_to := []; e_subject := []; e_html := [] |}; by left].
    destruct (resend env).
    + exists {| e_from := []; e_to := []; e_subject := []; e_html := [] |}.
      right; left. reflexivity.
    + eexists. right; right; right. reflexivity.
    + eexists. right; right; left. reflexivity.
Qed.

Lemma email_needs_both_keys_witness :
  sendNotificationEmail sample_to_string
    {| RESEND_API_KEY := Some (lit "re_key"); FEEDBACK_NOTIFY_EMAIL := Some [];
       RESEND_FROM_EMAIL := None; resend := SendResolves |} sample_notice = [].
Proof.
  apply (proj1 (email_needs_both_keys sample_to_string _ sample_notice)).
  right; right; right. reflexivity.
Defined.

(** X17. The subject of the email for a notice whose classification is
    what [analyzeFeedback] returned: without classification it is the
    yellow circle and 'New Feedback: unknown'; with one, it is the sign of
    the priority (red for high, yellow for medium, green for low) and 'New
    Feedback: ' followed by the category, one of the six of the closed
    set. *)
Theorem email_subject_of_classification (to_string : json → str) (env : MailEnv)
    (feedback : Notice) (e : Email) (s : str) (shot : option str) (key : str)
    (reply : option str) :
  (∀ x, to_string (JStr x) = x) →
  n_ai_data feedback = (analyzeFeedback s shot key reply).1 →
  Send e ∈ sendNotificationEmail to_string env feedback →
  (n_ai_data feedback = None →
   e_subject e = yellow_circle ++ lit " New Feedback: unknown")
  ∧ (∀ v, n_ai_data feedback = Some v →
       ∃ c p, get (lit "suggested_category") v = Some (JStr c) ∧ c ∈ categories
              ∧ get (lit "suggested_priority") v = Some (JStr p)
              ∧ (p = lit "high" ∧ e_subject e = red_circle ++ lit " New Feedback: " ++ c
                 ∨ p = lit "medium"
                   ∧ e_subject e = yellow_circle ++ lit " New Feedback: " ++ c
                 ∨ p = lit "low"
                   ∧ e_subject e = green_circle ++ lit " New Feedback: " ++ c)).
Proof.
  intros Hts Hai He.
  apply sendNotificationEmail_sends in He as (rk & ne & _ & _ & _ & _ & ->). simpl.
  split.
  - intros ->. simpl. rewrite Hts. vm_compute. reflexivity.
  - intros v Hv. rewrite Hv in Hai. symmetry in Hai.
    apply validated_fields in Hai
      as (c & p & _ & _ & _ & Hc & Hcin & Hct & Hp & Hpin & Hpt).
    exists c, p. rewrite Hv. cbn [get_opt]. rewrite Hc, Hp.
    split; [done|]. split; [done|]. split; [done|].
    unfold json_or. cbn [truthy]. rewrite !(truthy_nonempty _ Hct),
      !(truthy_nonempty _ Hpt), Hts.
    unfold priorities in Hpin.
    apply elem_of_cons in Hpin as [->|Hpin].
    { right; right. split; [done|]. vm_compute. reflexivity. }
    apply elem_of_cons in Hpin as [->|Hpin].
    { right; left. split; [done|]. cbn [is_str]. unfold str_eqb.
      rewrite bool_decide_eq_false_2 by (intros H; vm_compute in H; discriminate).
      by rewrite bool_decide_eq_true_2. }
    apply list_elem_of_singleton in Hpin as ->. left. split; [done|].
    cbn [is_str]. unfold str_eqb. by rewrite bool_decide_eq_true_2.
Qed.

Lemma email_subject_of_classification_witness :
  e_subject sample_email = red_circle ++ lit " New Feedback: bug".
Proof.
  destruct (email_subject_of_classification sample_to_string sample_mail_env
              sample_notice sample_email (n_message_raw sample_notice) None
              (lit "key") (Some reply_export_bug))
    as [_ H].
  - by intros x.
  - vm_compute. reflexivity.
  - vm_compute. apply list_elem_of_here.
  - destruct (H _ eq_refl) as (c & p & Hc & _ & Hp & Hsub).
    vm_compute in Hc. vm_compute in Hp. simplify_eq.
    destruct Hsub as [[_ Hs]|[[Hp _]|[Hp _]]]; [done| |]; vm_compute in Hp; discriminate.
Defined.

(** X18. The html of the email holds the message between the blockquote
    tags with every line feed replaced by a br tag and nothing else
    changed: a message without line feed is there as it was typed, markup
    included. *)
Theorem email_embeds_message_unescaped (to_string : json → str) (env : MailEnv)
    (feedback : Notice) (e : Email) :
  Send e ∈ sendNotificationEmail to_string env feedback →
  ∃ head tail body,
    e_html e = head ++ lit "<blockquote>" ++ body ++ lit "</blockquote>" ++ tail
    ∧ body = replace_newlines (n_message_raw feedback)
    ∧ (10%N ∉ body)
    ∧ (10%N ∉ n_message_raw feedback → body = n_message_raw feedback)
    ∧ (∀ a b, n_message_raw feedback = a ++ 10%N :: b →
              body = replace_newlines a ++ lit "<br>" ++ replace_newlines b).
Proof.
  intros He.
  apply sendNotificationEmail_sends in He as (rk & ne & _ & _ & _ & _ & ->).
  cbn [e_html]. unfold email_html.
  match goal with
  | |- ∃ _ _ _, ?a ++ ?c ++ ?b ++ ?pr ++ ?d ++ ?pg ++ ?f ++ ?msg ++ ?g = _ ∧ _ =>
      (exists (a ++ c ++ b ++ pr ++ d ++ pg ++ firstn (length f - 12) f),
              (skipn 13 g), msg);
      split;
        [replace f with (firstn (length f - 12) f ++ lit "<blockquote>") at 1
           by (vm_compute; reflexivity);
         replace g with (lit "</blockquote>" ++ skipn 13 g) at 1
           by (vm_compute; reflexivity);
         by_assoc
        |split; [done|split; [apply replace_newlines_free|split]]]
  end.
  - apply replace_newlines_id.
  - intros a b ->. clear. induction a as [|c a IH]; cbn [app replace_newlines].
    + rewrite N.eqb_refl. reflexivity.
    + destruct (N.eqb c 10); [|by rewrite IH].
      rewrite IH. by rewrite <- !app_assoc.
Qed.

Lemma email_embeds_message_unescaped_witness :
  Send sample_email ∈ sendNotificationEmail sample_to_string sample_mail_env sample_notice
  ∧ ∃ head tail body,
      e_html sample_email
      = head ++ lit "<blockquote>" ++ body ++ lit "</blockquote>" ++ tail
      ∧ body = replace_newlines (n_message_raw sample_notice)
      ∧ (10%N ∉ body)
      ∧ (10%N ∉ n_message_raw sample_notice → body = n_message_raw sample_notice)
      ∧ (∀ a b, n_message_raw sample_notice = a ++ 10%N :: b →
                body = replace_newlines a ++ lit "<br>" ++ replace_newlines b).
Proof.
  split; [vm_compute; apply list_elem_of_here|].
  apply (email_embeds_message_unescaped sample_to_string sample_mail_env sample_notice).
  vm_compute. apply list_elem_of_here.
Defined.

(** ** The widget *)

Section WidgetRuns.

Variables (to_string : json → str) (p : Widget.Props) (href : str).

(** The attached file, if any, is within the limit of the selection. *)
Let small (st : Widget.State) : Prop :=
  ∀ file, Widget.screenshotFile st = Some file → Widget.size file ≤ 5 * 1024 * 1024.

(** What holds of a request the widget sends. *)
Let well_formed (url page : str) (form : FormData) : Prop :=
  url = Widget.apiEndpoint p ∧ page = href
  ∧ (∃ s, message form = Some (FText s) ∧ trim s ≠ [])
  ∧ (∃ h, website form = Some (FText h))
  ∧ (screenshot form = None
     ∨ ∃ file, screenshot form = Some (Widget.entry file)
               ∧ Widget.size file ≤ 5 * 1024 * 1024)
  ∧ (project form = None
     ∨ ∃ id, Widget.projectId p = Some id ∧ id ≠ [] ∧ project form = Some (FText id)).

Lemma handleScreenshotSelect_small file st :
  small st → small (Widget.handleScreenshotSelect file st).1.
Proof.
  unfold Widget.handleScreenshotSelect.
  destruct (Z.ltb_spec (5 * 1024 * 1024) (Widget.size file)); [done|].
  intros _ f [= <-]. done.
Qed.

Lemma handleScreenshotSelect_effects file st e :
  e ∈ (Widget.handleScreenshotSelect file st).2 →
  (∃ msg, e = Widget.Alert msg) ∨ (∃ f, e = Widget.ReadAsDataURL f).
Proof.
  unfold Widget.handleScreenshotSelect.
  destruct (5 * 1024 * 1024 <? Widget.size file); simpl;
    intros ->%list_elem_of_singleton; eauto.
Qed.

Lemma paste_items_small items : ∀ st,
  small st → small (Widget.paste_items items st).1.
Proof.
  induction items as [|[item_type file] items IH]; intros st Hst; [done|].
  cbn [Widget.paste_items].
  destruct (if startsWith item_type (lit "image/")
            then match file with
                 | Some f => Widget.handleScreenshotSelect f st
                 | None => (st, [])
                 end
            else (st, [])) as [st1 es1] eqn:H1.
  destruct (Widget.paste_items items st1) as [st2 es2] eqn:H2.
  change st2 with (st2, es2).1. rewrite <- H2. apply IH.
  change st1 with (st1, es1).1. rewrite <- H1.
  destruct (startsWith item_type (lit "image/")); [|done].
  destruct file; [by apply handleScreenshotSelect_small | done].
Qed.

Lemma paste_items_effects items : ∀ st e,
  e ∈ (Widget.paste_items items st).2 →
  (∃ msg, e = Widget.Alert msg) ∨ (∃ f, e = Widget.ReadAsDataURL f).
Proof.
  induction items as [|[item_type file] items IH]; intros st e.
  { by intros ?%elem_of_nil. }
  cbn [Widget.paste_items].
  destruct (if startsWith item_type (lit "image/")
            then match file with
                 | Some f => Widget.handleScreenshotSelect f st
                 | None => (st, [])
                 end
            else (st, [])) as [st1 es1] eqn:H1.
  destruct (Widget.paste_items items st1) as [st2 es2] eqn:H2.
  simpl. intros [He|He]%elem_of_app.
  - destruct (startsWith item_type (lit "image/"));
      [|injection H1 as <- <-; by apply elem_of_nil in He].
    destruct file as [f|]; [|injection H1 as <- <-; by apply elem_of_nil in He].
    apply (handleScreenshotSelect_effects f st). by rewrite H1.
  - apply (IH st1). by rewrite H2.
Qed.

(** The answer of a request changes neither the attachment nor the
    message, and sends nothing. *)
Lemma handleSend_settle_keeps sent outcome st :
  let r := Widget.handleSend_settle to_string p href sent outcome st in
  Widget.screenshotFile r.1 = Widget.screenshotFile st
  ∧ Widget.message r.1 = Widget.message st
  ∧ Widget.honeypot r.1 = Widget.honeypot st
  ∧ Widget.isOpen r.1 = Widget.isOpen st
  ∧ Widget.isSent r.1 = true
  ∧ Widget.isSending r.1 = false
  ∧ ∀ url page form, Widget.Fetch url page form ∉ r.2.
Proof.
  unfold Widget.handleSend_settle, Widget.catch_block.
  destruct outcome as [|[] [[]|]]; simpl;
    repeat match goal with
           | |- context [truthy ?x] => destruct (truthy x)
           end;
    destruct (Widget.onSubmit p) as [[]|]; destruct (Widget.onError p); simpl;
    (repeat split; try done; intros url page form H;
     repeat (apply elem_of_cons in H as [H|H]; [done|]);
     by apply elem_of_nil in H).
Qed.

Lemma step_small ev st : small st → small (Widget.step to_string p href ev st).1.
Proof.
  intros Hst. destruct ev; simpl; try done.
  - destruct files; [done|]. by apply handleScreenshotSelect_small.
  - unfold Widget.handleDrop. destruct files as [|file files]; [done|].
    destruct (startsWith _ _); [by apply handleScreenshotSelect_small | done].
  - unfold Widget.handlePaste. destruct (negb _); [done|].
    destruct items; [by apply paste_items_small | done].
  - by destruct (Widget.handleSend_request p href st).
  - intros file. by rewrite (proj1 (handleSend_settle_keeps sent outcome st)); auto.
Qed.

Lemma handleSend_request_well_formed st url page form :
  small st →
  Widget.handleSend_request p href st = Some (Widget.Fetch url page form) →
  well_formed url page form.
Proof.
  intros Hst. unfold Widget.handleSend_request.
  destruct (truthy_str (trim (Widget.message st))) eqn:Hm; [|done].
  destruct (Widget.isSending st); [done|]. simpl. intros [= <- <- <-].
  repeat split; simpl.
  - exists (Widget.message st). split; [done|]. by apply truthy_str_true.
  - by eexists.
  - destruct (Widget.screenshotFile st) as [file|] eqn:Hf; [right | by left].
    exists file. split; [done | by apply Hst].
  - destruct (Widget.projectId p) as [id|]; [|by left].
    destruct (truthy_str id) eqn:Hid; [right | by left].
    exists id. repeat split; try done. by apply truthy_str_true.
Qed.

Lemma step_fetch ev st url page form :
  small st →
  Widget.Fetch url page form ∈ (Widget.step to_string p href ev st).2 →
  well_formed url page form.
Proof.
  intros Hst. destruct ev; simpl; try (by intros ?%elem_of_nil).
  - unfold Widget.handleClose. simpl. destruct (Widget.isSent st).
    + by intros ?%list_elem_of_singleton.
    + by intros ?%elem_of_nil.
  - destruct files as [|file files]; [by intros ?%elem_of_nil|].
    by intros [[? ?]|[? ?]]%handleScreenshotSelect_effects.
  - unfold Widget.handleDrop. destruct files as [|file files];
      [by intros ?%elem_of_nil|].
    destruct (startsWith _ _); [|by intros ?%elem_of_nil].
    by intros [[? ?]|[? ?]]%handleScreenshotSelect_effects.
  - unfold Widget.handlePaste. destruct (negb _); [by intros ?%elem_of_nil|].
    destruct items; [|by intros ?%elem_of_nil].
    by intros [[? ?]|[? ?]]%paste_items_effects.
  - destruct (Widget.handleSend_request p href st) as [request|] eqn:Hr;
      [|by intros ?%elem_of_nil].
    simpl. intros <-%list_elem_of_singleton.
    by apply (handleSend_request_well_formed st).
  - intros H. by apply (handleSend_settle_keeps sent outcome st) in H.
Qed.

Lemma run_fetch evs : ∀ st url page form,
  small st →
  Widget.Fetch url page form ∈ (Widget.run to_string p href evs st).2 →
  well_formed url page form.
Proof.
  induction evs as [|ev evs IH]; intros st url page form Hst.
  { by intros ?%elem_of_nil. }
  cbn [Widget.run].
  destruct (Widget.step to_string p href ev st) as [st1 es1] eqn:H1.
  destruct (Widget.run to_string p href evs st1) as [st2 es2] eqn:H2.
  simpl. intros [He|He]%elem_of_app.
  - apply (step_fetch ev st); [done|]. by rewrite H1.
  - apply (IH st1); [|by rewrite H2].
    change st1 with (st1, es1).1. rewrite <- H1. by apply step_small.
Qed.

End WidgetRuns.

(** X19. Whatever happens to the widget from its first render on (typing,
    choosing, dropping, pasting and removing pictures, opening and closing,
    clicking Send, answers coming in), every request it sends goes to the
    configured endpoint with the address of the page, carries a message
    that is not blank, the honeypot field as a text and, if a picture at
    all, one of at most 5 MiB; the project is the one of the props or
    absent. *)
Theorem widget_requests_are_well_formed (to_string : json → str)
    (p : Widget.Props) (href : str) (evs : list Widget.Event)
    (url page : str) (form : FormData) :
  Widget.Fetch url page form ∈ (Widget.run to_string p href evs Widget.initial).2 →
  url = Widget.apiEndpoint p ∧ page = href
  ∧ (∃ s, message form = Some (FText s) ∧ trim s ≠ [])
  ∧ (∃ h, website form = Some (FText h))
  ∧ (screenshot form = None
     ∨ ∃ file, screenshot form = Some (Widget.entry file)
               ∧ Widget.size file ≤ 5 * 1024 * 1024)
  ∧ (project form = None
     ∨ ∃ id, Widget.projectId p = Some id ∧ id ≠ [] ∧ project form = Some (FText id)).
Proof.
  apply (run_fetch to_string p href evs Widget.initial). by intros file.
Qed.

Lemma widget_requests_are_well_formed_witness :
  Widget.Fetch (lit "/api/feedback") sample_href sample_sent_form
  ∈ (Widget.run sample_to_string sample_props sample_href sample_events
       Widget.initial).2
  ∧ ∃ s, message sample_sent_form = Some (FText s) ∧ trim s ≠ [].
Proof.
  assert (H : Widget.Fetch (lit "/api/feedback") sample_href sample_sent_form
              ∈ (Widget.run sample_to_string sample_props sample_href sample_events
                   Widget.initial).2).
  { vm_compute. apply list_elem_of_further, list_elem_of_here. }
  split; [done|].
  apply (widget_requests_are_well_formed sample_to_string sample_props sample_href
           sample_events _ _ _ H).
Defined.

Section WidgetSend.

Variables (to_string : json → str) (p : Widget.Props) (href : str) (st : Widget.State).

Hypothesis Hmessage : trim (Widget.message st) ≠ [].
Hypothesis Hidle : Widget.isSending st = false.

Lemma handleSend_request_some :
  ∃ form, Widget.handleSend_request p href st
          = Some (Widget.Fetch (Widget.apiEndpoint p) href form)
          ∧ website form = Some (FText (Widget.honeypot st))
          ∧ message form = Some (FText (Widget.message st)).
Proof.
  unfold Widget.handleSend_request.
  rewrite (truthy_nonempty _ Hmessage), Hidle. simpl. by eexists.
Qed.

(** The state a request leaves whose answer brings no classification. *)
Lemma show_default :
  Widget.setIsSending false
    (Widget.show Widget.default_card (JStr Widget.thanks) (Widget.setIsSending true st))
  = Widget.show Widget.default_card (JStr Widget.thanks) st.
Proof. destruct st. simpl in *. by subst. Qed.

Lemma handleSend_failed outcome :
  outcome = Widget.NetworkError
  ∨ (∃ result, outcome = Widget.Responded false result)
  ∨ outcome = Widget.Responded true None
  ∨ outcome = Widget.Responded true (Some JNull) →
  ∃ form,
    Widget.handleSend to_string p href outcome st
    = (Widget.show Widget.default_card (JStr Widget.thanks) st,
       Widget.Fetch (Widget.apiEndpoint p) href form
       :: Widget.ConsoleError (lit "[OpenFeedbackLayer] Send error:")
       :: if Widget.onError p then [Widget.Failed] else []).
Proof.
  intros H. destruct handleSend_request_some as (form & Hreq & _).
  exists form. unfold Widget.handleSend. rewrite Hreq.
  unfold Widget.handleSend_settle, Widget.catch_block.
  destruct H as [->|[[result ->]|[->| ->]]]; simpl;
    rewrite show_default, andb_true_r; reflexivity.
Qed.

Lemma handleSend_unclassified result :
  result ≠ JNull →
  truthy (get (lit "ai_data") result) = false →
  (Widget.handleSend to_string p href (Widget.Responded true (Some result)) st).1
  = Widget.show Widget.default_card (JStr Widget.thanks) st.
Proof.
  intros Hnull Hai. destruct handleSend_request_some as (form & Hreq & _).
  unfold Widget.handleSend. rewrite Hreq.
  unfold Widget.handleSend_settle, Widget.catch_block.
  destruct result; try done; rewrite ?Hai;
    destruct (Widget.onSubmit p) as [[]|]; destruct st; simpl in *; by subst.
Qed.

End WidgetSend.

(** X20. A send that fails looks like one that succeeded. When the request
    fails (the network, a status that is not ok such as 400, 429 or 500, a
    body that is not JSON or is null), the widget logs the error, calls
    onError if there is one, never onSubmit, and ends in the very state it
    ends in for an accepted feedback without classification: sent, with
    the card feedback / general / P1 and the thanks. *)
Theorem failed_send_looks_like_success (to_string : json → str) (p : Widget.Props)
    (href : str) (st : Widget.State) (outcome : Widget.FetchOutcome) :
  trim (Widget.message st) ≠ [] →
  Widget.isSending st = false →
  outcome = Widget.NetworkError
  ∨ (∃ result, outcome = Widget.Responded false result)
  ∨ outcome = Widget.Responded true None
  ∨ outcome = Widget.Responded true (Some JNull) →
  let r := Widget.handleSend to_string p href outcome st in
  Widget.isSent r.1 = true ∧ Widget.isSending r.1 = false
  ∧ Widget.classification r.1 = Some Widget.default_card
  ∧ Widget.aiResponse r.1 = Some (JStr Widget.thanks)
  ∧ (∃ form, r.2 = Widget.Fetch (Widget.apiEndpoint p) href form
                   :: Widget.ConsoleError (lit "[OpenFeedbackLayer] Send error:")
                   :: if Widget.onError p then [Widget.Failed] else [])
  ∧ ∀ result, result ≠ JNull → truthy (get (lit "ai_data") result) = false →
      (Widget.handleSend to_string p href (Widget.Responded true (Some result)) st).1
      = r.1.
Proof.
  intros Hm Hidle Hfail.
  destruct (handleSend_failed to_string p href st Hm Hidle outcome Hfail) as (form & Hr).
  simpl. rewrite Hr. simpl. repeat split; try done.
  - by exists form.
  - intros result Hnull Hai. by apply handleSend_unclassified.
Qed.

Lemma failed_send_looks_like_success_witness :
  Widget.classification
    (Widget.handleSend sample_to_string sample_props sample_href
       (Widget.Responded false None) sample_state).1
  = Some Widget.default_card.
Proof.
  apply (failed_send_looks_like_success sample_to_string sample_props sample_href
           sample_state (Widget.Responded false None)).
  - vm_compute. discriminate.
  - reflexivity.
  - right; left. by eexists.
Defined.

Section Wire.

Lemma skip_space_nil s : skip_space s = [] ↔ Forall (λ c, is_space c = true) s.
Proof.
  induction s as [|c s IH]; simpl; [by split|].
  destruct (is_space c) eqn:Hc.
  - rewrite IH. split; [by constructor | by inversion 1].
  - split; [done|]. inversion 1; congruence.
Qed.

(** A text is blank when all of it is whitespace. *)
Lemma trim_blank s : trim s = [] ↔ Forall (λ c, is_space c = true) s.
Proof.
  unfold trim. split.
  - intros H. apply (f_equal (@rev N)) in H. rewrite rev_involutive in H.
    simpl in H. apply skip_space_nil, Forall_rev in H.
    rewrite rev_involutive in H.
    destruct (skip_space_split s) as (w & Hw & Hs). rewrite Hs.
    apply Forall_app. by split.
  - intros H. apply skip_space_nil in H. by rewrite H.
Qed.

(** The line feeds of a text that is not blank can be sent as carriage
    return and line feed: it stays not blank. *)
Lemma crlf_not_blank s : trim s ≠ [] → trim (crlf s) ≠ [].
Proof.
  rewrite !trim_blank. intros H H'. apply H. clear H.
  induction s as [|c s IH]; [constructor|].
  simpl in H'. destruct (N.eqb_spec c 10) as [->|Hc].
  - inversion H' as [|? ? _ H2]. inversion H2 as [|? ? _ H3].
    constructor; [done | by apply IH].
  - inversion H'. constructor; [done | by apply IH].
Qed.

End Wire.

(** X21. The widget never sends what the handler rejects as invalid: to
    the request of a send, whatever the headers, the world and the table
    of the limiter, the handler answers 200, 429 or 500 and never 400;
    with the honeypot field blank, a request that the limiter admits
    reaches the storage. The texts of the form arrive as the encoding
    leaves them, which keeps a text that is not blank from becoming
    blank. *)
Theorem widget_submission_is_never_invalid (wire : str → str) (p : Widget.Props)
    (href : str) (st : Widget.State) (url page : str) (form : FormData)
    (w : World) (hs : Headers) (m : RateMap) :
  (∀ s, trim s ≠ [] → trim (wire s) ≠ []) →
  Widget.handleSend_request p href st = Some (Widget.Fetch url page form) →
  let request := {| headers := hs; formData := Some (transported wire form) |} in
  (status (POST w request m).1.1 = 200 ∨ status (POST w request m).1.1 = 429
   ∨ status (POST w request m).1.1 = 500)
  ∧ (trim (wire (Widget.honeypot st)) = [] →
     (checkRateLimit (clock w) (client_ip hs) m).1 = true →
     reaches_storage w request m (transported wire form) (wire (Widget.message st))).
Proof.
  intros Hwire Hreq request.
  unfold Widget.handleSend_request in Hreq.
  destruct (truthy_str (trim (Widget.message st))) eqn:Hm; [|done].
  destruct (Widget.isSending st); [done|]. simpl in Hreq.
  injection Hreq as <- <- <-.
  apply truthy_str_true in Hm. apply Hwire in Hm.
  assert (Hreach : trim (wire (Widget.honeypot st)) = [] →
            (checkRateLimit (clock w) (client_ip hs) m).1 = true →
            reaches_storage w request m
              (transported wire
                 (Build_FormData (Some (FText (Widget.honeypot st)))
                    (Some (FText (Widget.message st)))
                    (Widget.entry <$> Widget.screenshotFile st)
                    match Widget.projectId p with
                    | Some id => if truthy_str id then Some (FText id) else None
                    | None => None
                    end))
              (wire (Widget.message st))).
  { intros Hh Hok. by repeat split. }
  split; [|done].
  destruct (checkRateLimit (clock w) (client_ip hs) m).1 eqn:Hok.
  - destruct (trim (wire (Widget.honeypot st))) as [|c t] eqn:Hh.
    + pose proof (Hreach eq_refl eq_refl) as Hr.
      destruct (POST_reached w request m _ _ Hr)
        as (? & ? & ? & ? & ? & _ & _ & _ & _ & [H|[H|H]]).
      * destruct H as (? & _ & -> & _). by right; right.
      * destruct H as (_ & _ & -> & _). by right; right.
      * destruct H as (? & _ & -> & _). by left.
    + left.
      match type of Hreach with
      | context [reaches_storage _ _ _ ?f _] =>
          rewrite (POST_bot w request m f (wire (Widget.honeypot st))); try done
      end.
      by rewrite Hh.
  - right; left. by rewrite (POST_limited w request m Hok).
Qed.

Lemma widget_submission_is_never_invalid_witness :
  status (POST sample_world
            {| headers := sample_headers;
               formData := Some (transported crlf sample_sent_form) |} ∅).1.1 = 200.
Proof.
  destruct (widget_submission_is_never_invalid crlf sample_props sample_href
              (Widget.setScreenshotFile (Some sample_file) sample_state)
              (lit "/api/feedback") sample_href sample_sent_form
              sample_world sample_headers ∅) as [[H|[H|H]] _].
  - intros s. apply crlf_not_blank.
  - vm_compute. reflexivity.
  - done.
  - vm_compute in H. discriminate.
  - vm_compute in H. discriminate.
Defined.

(** X22. What the widget shows of a classification that [analyzeFeedback]
    returned and the response carries: the category, one of the six; the
    feature area and the summary as they are; and the priority as P0 for
    high, P1 for medium, P2 for low: for such a classification the
    priority is always one of the three labels. *)
Theorem widget_shows_validated_classification (to_string : json → str)
    (p : Widget.Props) (href : str) (st : Widget.State) (result v : json)
    (s : str) (shot : option str) (key : str) (reply : option str) :
  (∀ x, to_string (JStr x) = x) →
  trim (Widget.message st) ≠ [] →
  Widget.isSending st = false →
  Widget.onSubmit p = None ∨ Widget.onSubmit p = Some Widget.Returns →
  get (lit "ai_data") result = Some v →
  (analyzeFeedback s shot key reply).1 = Some v →
  let r := Widget.handleSend to_string p href (Widget.Responded true (Some result)) st in
  ∃ c pr area summary label,
    get (lit "suggested_category") v = Some (JStr c) ∧ c ∈ categories
    ∧ get (lit "suggested_priority") v = Some (JStr pr)
    ∧ get (lit "suggested_feature_area") v = Some area
    ∧ get (lit "short_summary") v = Some summary
    ∧ Widget.classification r.1
      = Some {| Widget.category := JStr c; Widget.feature_area := area;
                Widget.priority := Widget.Label label |}
    ∧ Widget.aiResponse r.1 = Some summary
    ∧ Widget.isSent r.1 = true
    ∧ (pr = lit "high" ∧ label = lit "P0" ∨ pr = lit "medium" ∧ label = lit "P1"
       ∨ pr = lit "low" ∧ label = lit "P2").
Proof.
  intros Hts Hm Hidle Hcb Hai Hv r.
  destruct (validated_fields s shot key reply v Hv)
    as (c & pr & Htv & Hsum & Harea & Hc & Hcin & Hct & Hp & Hpin & Hpt).
  destruct (get (lit "suggested_feature_area") v) as [area|] eqn:Ha; [|done].
  destruct (get (lit "short_summary") v) as [summary|] eqn:Hs; [|done].
  assert (Hlabel : ∃ label, Widget.formatPriority pr = Widget.Label label
            ∧ (pr = lit "high" ∧ label = lit "P0" ∨ pr = lit "medium" ∧ label = lit "P1"
               ∨ pr = lit "low" ∧ label = lit "P2")).
  { unfold priorities in Hpin.
    apply elem_of_cons in Hpin as [->|Hpin].
    { exists (lit "P2"). split; [vm_compute; reflexivity | by right; right]. }
    apply elem_of_cons in Hpin as [->|Hpin].
    { exists (lit "P1"). split; [vm_compute; reflexivity | by right; left]. }
    apply list_elem_of_singleton in Hpin as ->.
    exists (lit "P0"). split; [vm_compute; reflexivity | by left]. }
  destruct Hlabel as (label & Hlabel & Hcases).
  exists c, pr, area, summary, label.
  split; [done|]. split; [done|]. split; [done|]. split; [done|]. split; [done|].
  assert (Hr : r.1 = Widget.setIsSending false
             (Widget.show
                {| Widget.category := JStr c; Widget.feature_area := area;
                   Widget.priority := Widget.Label label |}
                summary (Widget.setIsSending true st))).
  { subst r. destruct (handleSend_request_some p href st Hm Hidle) as (form & Hreq & _).
    unfold Widget.handleSend. rewrite Hreq.
    unfold Widget.handleSend_settle.
    assert (Hnn : result ≠ JNull) by (by intros ->).
    destruct result; try done; rewrite Hai, Htv; cbn [get_opt];
      rewrite Hc, Hp, Ha, Hs; unfold json_or; rewrite Harea, Hsum; cbn [truthy];
      rewrite (truthy_nonempty _ Hct), (truthy_nonempty _ Hpt), Hts, Hlabel;
      by destruct Hcb as [-> | ->]. }
  rewrite Hr. by repeat split.
Qed.

Lemma widget_shows_validated_classification_witness :
  Widget.classification
    (Widget.handleSend sample_to_string sample_props sample_href
       (Widget.Responded true (Some sample_body)) sample_state).1
  = Some {| Widget.category := JStr (lit "bug");
            Widget.feature_area := JStr (lit "export");
            Widget.priority := Widget.Label (lit "P0") |}.
Proof.
  destruct (widget_shows_validated_classification sample_to_string sample_props
              sample_href sample_state sample_body
              (json_of_option (JSON_parse reply_export_bug))
              (lit "Export button does nothing") None (lit "key")
              (Some reply_export_bug))
    as (c & pr & area & summary & label & Hc & _ & Hp & Ha & _ & Hcard & _ & _ & Hl).
  - by intros x.
  - vm_compute. discriminate.
  - reflexivity.
  - by right.
  - vm_compute. reflexivity.
  - vm_compute. reflexivity.
  - rewrite Hcard. vm_compute in Hc, Hp, Ha. simplify_eq.
    destruct Hl as [[_ ->]|[[H _]|[H _]]]; [done| |]; vm_compute in H; discriminate.
Defined.

(** * The screenshot: what is uploaded, what is encoded, and where the
      encoding goes *)

Section ScreenshotRoute.

Variables (w : World) (request : Request) (m : RateMap) (form : FormData).
Variables (s name type : str) (buffer : list Byte.byte).

Hypothesis Hreach : reaches_storage w request m form s.
Hypothesis Hfile : screenshot form = Some (FFile name type buffer).
Hypothesis Hbuf : buffer ≠ [].

Let pageUrl :=
  or_lit (or_else (x_page_url (headers request)) (referer (headers request)))
         (lit "unknown").

(** The classification of the route, which does not depend on the
    screenshot for a given reply of the model. *)
Let aiData : option json :=
  match GEMINI_API_KEY w with
  | Some key =>
      if truthy_str key then (analyzeFeedback s None key (gemini_reply w)).1 else None
  | None => None
  end.

(** What the route answers, stores and notifies for a request with a
    file, in terms that do not hold the bytes of the file. *)
Lemma POST_file_observed :
  let url :=
    match error (upload_answer w), data (upload_answer w) with
    | None, Some _ => Some (publicUrl w (upload_name w))
    | _, _ => None
    end in
  (POST w request m).1.1 = (after_insert w s pageUrl aiData).1
  ∧ inserted (POST w request m).1.2 = [stored_row request form s url aiData]
  ∧ notified (POST w request m).1.2 = notified (after_insert w s pageUrl aiData).2
  ∧ (POST w request m).2 = (checkRateLimit (clock w) (client_ip (headers request)) m).2.
Proof.
  intros url.
  change (POST w request m) with (POST_with analyzeFeedback w request m).
  rewrite (POST_with_file_any analyzeFeedback w request m form s name type buffer
             Hreach Hfile Hbuf).
  cbv zeta. fold pageUrl url.
  set (answer := match GEMINI_API_KEY w with
                 | Some key =>
                     if truthy_str key
                     then analyzeFeedback s
                            (Some (lit "data:image/png;base64," ++ base64 buffer))
                            key (gemini_reply w)
                     else (None, [])
                 | None => (None, [])
                 end).
  assert (Hv : answer.1 = aiData).
  { subst answer aiData. destruct (GEMINI_API_KEY w) as [key|]; [|done].
    destruct (truthy_str key); [|done]. apply analyzeFeedback_result. }
  assert (Hq : Forall quiet answer.2).
  { subst answer. destruct (GEMINI_API_KEY w) as [key|]; [|constructor].
    destruct (truthy_str key); [|constructor]. apply analyzeFeedback_quiet. }
  rewrite Hv. cbn [fst snd].
  split; [done|]. split; [|split; [|done]].
  - change (inserted (?u :: ?es ++ ?r :: ?tail))
      with (inserted ([u] ++ es ++ [r] ++ tail)).
    rewrite !inserted_app, (inserted_quiet _ Hq). cbn [inserted omap app].
    unfold after_insert.
    by destruct (error (insert_answer w)), (data (insert_answer w)).
  - change (notified (?u :: ?es ++ ?r :: ?tail))
      with (notified ([u] ++ es ++ [r] ++ tail)).
    by rewrite !notified_app, (notified_quiet _ Hq).
Qed.

End ScreenshotRoute.

(** The route, the table, the response and the notifications do not depend
    on the file in the screenshot field, as long as there is one. *)
Lemma POST_file_bytes_irrelevant (w : World) (request : Request) (m : RateMap)
    (form : FormData) (s name type name' type' : str) (buffer buffer' : list Byte.byte) :
  reaches_storage w request m form s →
  screenshot form = Some (FFile name type buffer) →
  buffer ≠ [] → buffer' ≠ [] →
  let other := POST w (with_screenshot (Some (FFile name' type' buffer')) request) m in
  let this := POST w request m in
  other.1.1 = this.1.1
  ∧ inserted other.1.2 = inserted this.1.2
  ∧ notified other.1.2 = notified this.1.2
  ∧ other.2 = this.2.
Proof.
  intros Hreach Hfile Hbuf Hbuf' other this.
  set (form' := {| website := website form; message := message form;
                   screenshot := Some (FFile name' type' buffer');
                   project := project form |}).
  assert (Hreach' : reaches_storage w
                      (with_screenshot (Some (FFile name' type' buffer')) request)
                      m form' s).
  { destruct Hreach as (Hok & Hform & Hbot & Hmsg & Hs).
    repeat split; try done. cbn. by rewrite Hform. }
  destruct (POST_file_observed w request m form s name type buffer Hreach Hfile Hbuf)
    as (H1 & H2 & H3 & H4).
  destruct (POST_file_observed w _ m form' s name' type' buffer' Hreach' eq_refl Hbuf')
    as (H1' & H2' & H3' & H4').
  subst other this. rewrite H1, H2, H3, H4, H1', H2', H3', H4'. done.
Qed.

(** C8. For a request that reaches the insertion with a non-empty file as
    screenshot. Whatever the classification client: the file is uploaded;
    the encoded copy ('data:image/png;base64,' and the base64 of the bytes)
    is the screenshot argument of the one call of the client, when a key is
    configured, and occurs nowhere else: the row, the response, the log
    line or the notification and the table are given in full, in terms of
    the request and of what the client returned. When the upload fails (its
    answer carries an error, or no data), the result is the one of the
    success in everything but the screenshot reference of the row, which is
    null. With the client of the route, [POST]: the call leaves only log
    lines and the call of the model; the response is the same, one row is
    inserted in both cases and the same notifications are dispatched; and
    with any other non-empty file in the field, and any answer of the
    upload, the response, the row inserted, the notifications and the table
    are the same. *)
Theorem upload_failure_tolerated (client : Client) (w : World) (request : Request)
    (m : RateMap) (form : FormData) (s name type : str) (buffer : list Byte.byte)
    (a_fail a_ok : Answer) :
  reaches_storage w request m form s →
  screenshot form = Some (FFile name type buffer) →
  buffer ≠ [] →
  error a_fail ≠ None ∨ data a_fail = None →
  error a_ok = None → data a_ok ≠ None →
  let pageUrl :=
    or_lit (or_else (x_page_url (headers request)) (referer (headers request)))
           (lit "unknown") in
  let upload :=
    Upload (lit "feedback") (upload_name w) buffer (lit "image/png") (lit "3600") in
  let encoded := lit "data:image/png;base64," ++ base64 buffer in
  let answer :=
    match GEMINI_API_KEY w with
    | Some key =>
        if truthy_str key then client s (Some encoded) key (gemini_reply w)
        else (None, [])
    | None => (None, [])
    end in
  let row := stored_row request form s (Some (publicUrl w (upload_name w))) answer.1 in
  let after := after_insert w s pageUrl answer.1 in
  let table := (checkRateLimit (clock w) (client_ip (headers request)) m).2 in
  (* whatever the client *)
  POST_with client (with_upload a_ok w) request m
  = (after.1, upload :: answer.2 ++ InsertRow (lit "feedback") row :: after.2, table)
  ∧ POST_with client (with_upload a_fail w) request m
    = (after.1,
       upload :: answer.2 ++ InsertRow (lit "feedback") (clear_screenshot_url row) :: after.2,
       table)
  (* with the client of the route *)
  ∧ POST_with analyzeFeedback = POST
  ∧ (∀ key, Forall quiet (analyzeFeedback s (Some encoded) key (gemini_reply w)).2)
  ∧ (let failed := POST (with_upload a_fail w) request m in
     let fine := POST (with_upload a_ok w) request m in
     failed.1.1 = fine.1.1
     ∧ (∃ row, inserted fine.1.2 = [row]
               ∧ screenshot_url row = Some (publicUrl w (upload_name w))
               ∧ inserted failed.1.2 = [clear_screenshot_url row])
     ∧ notified failed.1.2 = notified fine.1.2)
  ∧ (∀ a name' type' buffer', buffer' ≠ [] →
       let other := POST (with_upload a w)
                         (with_screenshot (Some (FFile name' type' buffer')) request) m in
       let this := POST (with_upload a w) request m in
       other.1.1 = this.1.1
       ∧ inserted other.1.2 = inserted this.1.2
       ∧ notified other.1.2 = notified this.1.2
       ∧ other.2 = this.2).
Proof.
  intros Hreach Hfile Hbuf Hfail Hok1 Hok2 pageUrl upload encoded answer row after table.
  assert (Hany := λ a, POST_with_file_any client (with_upload a w) request m form s
                         name type buffer Hreach Hfile Hbuf).
  cbv zeta in Hany.
  cbn [with_upload upload_answer GEMINI_API_KEY gemini_reply clock publicUrl] in Hany.
  change (upload_name (with_upload ?a w)) with (upload_name w) in Hany.
  change (after_insert (with_upload ?a w)) with (after_insert w) in Hany.
  fold pageUrl upload encoded answer after table in Hany.
  split; [|split; [|split; [done|split; [|split]]]].
  - rewrite Hany, Hok1. by destruct (data a_ok).
  - rewrite Hany.
    replace (match error a_fail, data a_fail with
             | None, Some _ => Some (publicUrl w (upload_name w))
             | _, _ => None
             end) with (@None str); [done|].
    destruct Hfail as [Hf|Hf]; [by destruct (error a_fail) | rewrite Hf].
    by destruct (error a_fail).
  - intros key. apply analyzeFeedback_quiet.
  - destruct (upload_failure_same_record w request m form s name type buffer
                a_fail a_ok Hreach Hfile Hbuf Hfail Hok1 Hok2) as (H1 & H2 & H3 & _).
    done.
  - intros a name' type' buffer' Hbuf'.
    by apply (POST_file_bytes_irrelevant (with_upload a w) request m form s name type
                name' type' buffer buffer').
Qed.

Lemma upload_failure_tolerated_witness :
  (POST_with probe_client (with_upload failed_answer sample_world)
     (request_of form_with_jpeg) ∅).1.2
  = [Upload (lit "feedback") (lit "1700000000000-k3x9q.png") [xff; xd8; xff; xe0]
       (lit "image/png") (lit "3600");
     Log (lit "data:image/png;base64,/9j/4A==");
     InsertRow (lit "feedback")
       {| page_url := lit "https://app.example/reports";
          user_agent := Some (lit "Mozilla/5.0");
          message_raw := lit "Export button does nothing";
          screenshot_url := None;
          ai_data := None;
          project_id := None;
          row_status := lit "new" |};
     Notify {| n_id := lit "row-1";
               n_message_raw := lit "Export button does nothing";
               n_page_url := lit "https://app.example/reports";
               n_ai_data := None |}].
Proof.
  destruct (upload_failure_tolerated probe_client sample_world
              (request_of form_with_jpeg) ∅ form_with_jpeg
              (lit "Export button does nothing") (lit "shot.jpg") (lit "image/jpeg")
              [xff; xd8; xff; xe0] failed_answer (upload_answer sample_world))
    as (_ & H & _).
  - repeat split; vm_compute; (reflexivity || discriminate).
  - reflexivity.
  - discriminate.
  - left. discriminate.
  - reflexivity.
  - discriminate.
  - rewrite H. vm_compute. reflexivity.
Defined.

(** C10. For a request that reaches the insertion with a non-empty file as
    screenshot, whatever the name and the type of the file. The file is
    uploaded to the bucket 'feedback' under a generated name that ends in
    '.png', with contentType 'image/png'. With a key configured, and
    whatever the classification client, the screenshot string the handler
    hands to the client is 'data:image/png;base64,' followed by the base64
    of the bytes. From that string the client of the route takes the MIME
    type out of the data prefix, and it is 'image/png'; the part it builds
    has that type and the base64 as data; and [POST], the handler with that
    client, calls the model with the prompt and that part. *)
Theorem screenshot_handled_as_png (client : Client) (w : World) (request : Request)
    (m : RateMap) (form : FormData) (s name type : str) (buffer : list Byte.byte) :
  reaches_storage w request m form s →
  screenshot form = Some (FFile name type buffer) →
  buffer ≠ [] →
  let filename :=
    decimal (upload_clock w) ++ lit "-" ++ random_suffix w ++ lit ".png" in
  let upload := Upload (lit "feedback") filename buffer (lit "image/png") (lit "3600") in
  let screenshotBase64 := lit "data:image/png;base64," ++ base64 buffer in
  (* whatever the client *)
  (∃ rest, (POST_with client w request m).1.2 = upload :: rest)
  ∧ (∀ key, GEMINI_API_KEY w = Some key → key ≠ [] →
       ∃ rest, (POST_with client w request m).1.2
               = upload
                 :: (client s (Some screenshotBase64) key (gemini_reply w)).2 ++ rest)
  (* the client of the route *)
  ∧ POST_with analyzeFeedback = POST
  ∧ startsWith screenshotBase64 (lit "data:") = true
  ∧ data_mime screenshotBase64 = Some (lit "image/png")
  ∧ inline_part screenshotBase64 = PInline (lit "image/png") (base64 buffer)
  ∧ (∀ key, GEMINI_API_KEY w = Some key → key ≠ [] →
       ∃ rest, (POST w request m).1.2
               = upload
                 :: Generate (lit "gemini-2.5-flash-lite")
                      [PText (prompt s); PInline (lit "image/png") (base64 buffer)]
                 :: rest).
Proof.
  intros Hreach Hfile Hbuf filename upload screenshotBase64.
  pose proof (POST_with_file_any client w request m form s name type buffer
                Hreach Hfile Hbuf) as Hany.
  cbv zeta in Hany. fold screenshotBase64 in Hany.
  change (upload_name w) with filename in Hany. fold upload in Hany.
  split; [|split; [|split; [done|split; [|split; [|split]]]]].
  - rewrite Hany. by eexists.
  - intros key Hkey Hne. rewrite Hany, Hkey, (truthy_nonempty _ Hne).
    by eexists.
  - subst screenshotBase64.
    set (p := lit "data:image/png;base64,"). vm_compute in p. subst p.
    set (d := lit "data:"). vm_compute in d. by subst d.
  - subst screenshotBase64.
    set (p := lit "data:image/png;base64,"). vm_compute in p. subst p.
    set (i := lit "image/png"). vm_compute in i. by subst i.
  - apply inline_part_png.
  - by destruct (screenshot_uploaded_and_sent_as_png w request m form s name type buffer
                   Hreach Hfile Hbuf) as (_ & _ & H).
Qed.

Lemma screenshot_handled_as_png_witness :
  ∃ rest,
    (POST_with probe_client sample_world (request_of form_with_jpeg) ∅).1.2
    = Upload (lit "feedback") (lit "1700000000000-k3x9q.png") [xff; xd8; xff; xe0]
        (lit "image/png") (lit "3600")
      :: Log (lit "data:image/png;base64,/9j/4A==")
      :: rest.
Proof.
  destruct (screenshot_handled_as_png probe_client sample_world
              (request_of form_with_jpeg) ∅ form_with_jpeg
              (lit "Export button does nothing") (lit "shot.jpg") (lit "image/jpeg")
              [xff; xd8; xff; xe0])
    as (_ & H & _).
  - repeat split; vm_compute; (reflexivity || discriminate).
  - reflexivity.
  - discriminate.
  - destruct (H (lit "key") eq_refl) as (rest & Hrest).
    + intros Hk. vm_compute in Hk. discriminate.
    + exists rest. rewrite Hrest. vm_compute. reflexivity.
Defined.
